(** * The content-discovery and crawl pipeline of the support extension

    A shallow embedding of [AdvancedWebsiteAnalyzer]
    (src/frontend-extention/content-script.js) and the properties its
    specification states about it.

    Conventions.
    - A JavaScript string is a [string]: a sequence of code units, here the
      code units below 256 (Latin-1).  [toLowerCase] and [trim] are written
      out for that range.
    - A thrown value is an [Error] carrying its [message]; a computation
      that may throw returns a [result].
    - A promise is described by how it ends, a [completion]: fulfilled,
      rejected, or never settled.
    - The browser (location, DOM parser, URL constructor, network, clock,
      regular-expression engine) is a record [Browser]; the methods the
      class calls but the source file does not define are a record
      [Methods].  The functions of the class take them as arguments.
    - A run of the crawl is described by its events, in the order in
      which they happen: a fetch is issued, a promise settles, a batch is
      awaited, the coordinator pauses. *)

From Stdlib Require Import String Ascii List Arith Lia Bool ZArith Permutation.
From stdpp Require Import gmap strings list.

Import ListNotations.
Local Open Scope string_scope.
#[local] Set Warnings "-register-all".

(** ** JavaScript strings *)

Module JsString.

(** WhiteSpace and LineTerminator code units below 256: TAB, LF, VT, FF,
    CR, SPACE and NO-BREAK SPACE. *)
Definition isWhiteSpace (c : ascii) : bool :=
  let n := nat_of_ascii c in
  (((9 <=? n) && (n <=? 13)) || (n =? 32) || (n =? 160))%nat.

(** Upper-case letters below 256: A-Z, and U+00C0-U+00DE without the
    multiplication sign U+00D7.  Each is 32 below its lower-case form. *)
Definition isUpper (c : ascii) : bool :=
  let n := nat_of_ascii c in
  (((65 <=? n) && (n <=? 90))
   || ((192 <=? n) && (n <=? 222) && negb (n =? 215)))%nat.

Definition lowerChar (c : ascii) : ascii :=
  if isUpper c then ascii_of_nat (nat_of_ascii c + 32) else c.

Fixpoint toLowerCase (s : string) : string :=
  match s with
  | EmptyString => EmptyString
  | String c s' => String (lowerChar c) (toLowerCase s')
  end.

Fixpoint trimStart (s : string) : string :=
  match s with
  | EmptyString => EmptyString
  | String c s' => if isWhiteSpace c then trimStart s' else s
  end.

Fixpoint trimEnd (s : string) : string :=
  match s with
  | EmptyString => EmptyString
  | String c s' =>
      match trimEnd s' with
      | EmptyString => if isWhiteSpace c then EmptyString else String c EmptyString
      | t => String c t
      end
  end.

Definition trim (s : string) : string := trimEnd (trimStart s).

(** [s.startsWith(p)] *)
Definition startsWith (s p : string) : bool := String.prefix p s.

(** [s.includes(k)]: [k] occurs in [s] at some position. *)
Fixpoint includes (s k : string) : bool :=
  String.prefix k s
  || match s with
     | EmptyString => false
     | String _ s' => includes s' k
     end.

(** [a || b] on a possibly undefined string: the empty string is falsy. *)
Definition orElse (a : option string) (b : string) : string :=
  match a with
  | Some (String c s) => String c s
  | _ => b
  end.

End JsString.

Import JsString.

(** ** Exceptions and promises *)

Record Error := mkError { message : string }.

Inductive result (A : Type) : Type :=
| Ok (a : A)
| Throw (e : Error).
Arguments Ok {A} a.
Arguments Throw {A} e.

Definition bind {A B} (r : result A) (k : A -> result B) : result B :=
  match r with
  | Ok a => k a
  | Throw e => Throw e
  end.

Notation "'let*' x ':=' r 'in' k" := (bind r (fun x => k))
  (at level 10, x pattern, r at level 100, k at level 200).

(** [mapM f l]: run [f] on the elements in order, stop at the first throw.
    This is a [forEach] whose callback may throw. *)
Fixpoint mapM {A B} (f : A -> result B) (l : list A) : result (list B) :=
  match l with
  | [] => Ok []
  | a :: l' =>
      let* b := f a in
      let* bs := mapM f l' in
      Ok (b :: bs)
  end.

(** How a promise ends. *)
Inductive completion (A : Type) : Type :=
| Fulfilled (a : A)
| Rejected (e : Error)
| Pending.
Arguments Fulfilled {A} a.
Arguments Rejected {A} e.
Arguments Pending {A}.

(** The promise of an [async] function whose body is [r]. *)
Definition settle {A} (r : result A) : completion A :=
  match r with
  | Ok a => Fulfilled a
  | Throw e => Rejected e
  end.

(** [await p] inside an [async] body, followed by [k]. *)
Definition await {A B} (p : completion A) (k : A -> completion B) : completion B :=
  match p with
  | Fulfilled a => k a
  | Rejected e => Rejected e
  | Pending => Pending
  end.

(** [try { await p; k } catch (error) { h }] *)
Definition tryAwait {A B} (p : completion A) (k : A -> B) (h : Error -> B)
  : completion B :=
  match p with
  | Fulfilled a => Fulfilled (k a)
  | Rejected e => Fulfilled (h e)
  | Pending => Pending
  end.

(** ** The document tree *)

Module Dom.

Inductive node : Type :=
| TextNode (data : string)
| Element (tag : string) (attrs : list (string * string)) (children : list node).

(** A document is its root element, if it still has one. *)
Definition Document : Type := option node.

(** An element found in a tree, with its ancestors, nearest first. *)
Definition located : Type := list node * node.

Definition tagName (n : node) : string :=
  match n with
  | TextNode _ => ""
  | Element t _ _ => t
  end.

Fixpoint lookupAttr (a : string) (attrs : list (string * string)) : option string :=
  match attrs with
  | [] => None
  | (k, v) :: rest => if String.eqb k a then Some v else lookupAttr a rest
  end.

Definition getAttribute (n : node) (a : string) : option string :=
  match n with
  | TextNode _ => None
  | Element _ attrs _ => lookupAttr a attrs
  end.

(** [node.textContent]: the text of all descendants, in tree order. *)
Fixpoint textContent (n : node) : string :=
  match n with
  | TextNode d => d
  | Element _ _ cs =>
      (fix texts (l : list node) : string :=
         match l with
         | [] => ""
         | c :: l' => textContent c ++ texts l'
         end) cs
  end.

(** The elements of the subtree of [n], [n] first, in tree order. *)
Fixpoint elementsFrom (anc : list node) (n : node) : list located :=
  match n with
  | TextNode _ => []
  | Element _ _ cs =>
      (anc, n) ::
      (fix below (l : list node) : list located :=
         match l with
         | [] => []
         | c :: l' => (elementsFrom (n :: anc) c ++ below l')%list
         end) cs
  end.

Definition elementsOf (d : Document) : list located :=
  match d with
  | None => []
  | Some r => elementsFrom [] r
  end.

(** The selectors the analyzer uses. *)
Inductive simple : Type :=
| Tag (t : string)                  (* [p] *)
| Class (c : string)                (* [.ads] *)
| TagWithAttr (t a : string)        (* [a[href]] *)
| AttrContains (a v : string).      (* [[class*="address"]] *)

Inductive selector : Type :=
| Simple (s : simple)
| Descendant (above s : simple).    (* [url loc] *)

(** The tokens of a [class] attribute: split at ASCII whitespace. *)
Definition isAsciiSpace (c : ascii) : bool :=
  let n := nat_of_ascii c in
  ((n =? 9) || (n =? 10) || (n =? 12) || (n =? 13) || (n =? 32))%nat.

Fixpoint tokensFrom (cur : string) (s : string) : list string :=
  match s with
  | EmptyString => match cur with EmptyString => [] | _ => [cur] end
  | String c s' =>
      if isAsciiSpace c
      then match cur with
           | EmptyString => tokensFrom "" s'
           | _ => cur :: tokensFrom "" s'
           end
      else tokensFrom (cur ++ String c "") s'
  end.

Definition classList (n : node) : list string :=
  match getAttribute n "class" with
  | None => []
  | Some v => tokensFrom "" v
  end.

Definition matchesSimple (s : simple) (n : node) : bool :=
  match n with
  | TextNode _ => false
  | Element t _ _ =>
      match s with
      | Tag t' => String.eqb t t'
      | Class c => existsb (String.eqb c) (classList n)
      | TagWithAttr t' a =>
          String.eqb t t' && match getAttribute n a with Some _ => true | None => false end
      | AttrContains a v =>
          match getAttribute n a with Some x => includes x v | None => false end
      end
  end.

Definition matches (sel : selector) (e : located) : bool :=
  match sel with
  | Simple s => matchesSimple s (snd e)
  | Descendant above s =>
      matchesSimple s (snd e) && existsb (matchesSimple above) (fst e)
  end.

(** [document.querySelectorAll('s1, s2, ...')] *)
Definition querySelectorAll (sels : list selector) (d : Document) : list located :=
  List.filter (fun e => existsb (fun sel => matches sel e) sels) (elementsOf d).

(** [element.querySelectorAll(...)]: the matches strictly below [e]. *)
Definition querySelectorAllIn (sels : list selector) (e : located) : list located :=
  List.filter (fun x => existsb (fun sel => matches sel x) sels)
    (List.tl (elementsFrom (fst e) (snd e))).

Definition querySelector (sels : list selector) (d : Document) : option located :=
  List.head (querySelectorAll sels d).

(** The tree without the subtrees whose root satisfies [p]. *)
Fixpoint prune (p : node -> bool) (n : node) : node :=
  match n with
  | TextNode _ => n
  | Element t a cs =>
      Element t a
        ((fix kept (l : list node) : list node :=
            match l with
            | [] => []
            | c :: l' => if p c then kept l' else prune p c :: kept l'
            end) cs)
  end.

(** [doc.querySelectorAll(s).forEach(el => el.remove())] *)
Definition removeAll (s : simple) (d : Document) : Document :=
  match d with
  | None => None
  | Some r => if matchesSimple s r then None else Some (prune (matchesSimple s) r)
  end.

(** [document.body]: the first [body] or [frameset] child of the [html]
    root, or null. *)
Definition body (d : Document) : option node :=
  match d with
  | Some (Element t _ cs) =>
      if String.eqb t "html"
      then List.find (fun c => String.eqb (tagName c) "body"
                               || String.eqb (tagName c) "frameset") cs
      else None
  | _ => None
  end.

End Dom.

(** ** Plain JavaScript objects used as maps *)

Module JsObject.

(** The own string-keyed properties in the order [Object.entries] lists
    them: array indices first, ascending, then the other keys in the
    order they were created. *)
Definition t (V : Type) : Type := list (string * V).

Definition isDigit (c : ascii) : bool :=
  let n := nat_of_ascii c in ((48 <=? n) && (n <=? 57))%nat.

Fixpoint digitsValue (acc : N) (s : string) : option N :=
  match s with
  | EmptyString => Some acc
  | String c s' =>
      if isDigit c
      then digitsValue (acc * 10 + (N_of_ascii c - 48))%N s'
      else None
  end.

(** A canonical numeric string below 2^32 - 1. *)
Definition arrayIndex (k : string) : option N :=
  match k with
  | EmptyString => None
  | String c rest =>
      if String.eqb k "0" then Some 0%N
      else if Ascii.eqb c "0" then None
      else if (10 <? String.length k)%nat then None
      else match digitsValue 0 k with
           | Some n => if (n <? 4294967295)%N then Some n else None
           | None => None
           end
  end.

Definition has {V} (k : string) (o : t V) : bool :=
  existsb (fun kv => String.eqb (fst kv) k) o.

Fixpoint replace {V} (k : string) (v : V) (o : t V) : t V :=
  match o with
  | [] => []
  | (k', v') :: o' =>
      if String.eqb k' k then (k', v) :: o' else (k', v') :: replace k v o'
  end.

Fixpoint insertIndex {V} (n : N) (k : string) (v : V) (o : t V) : t V :=
  match o with
  | [] => [(k, v)]
  | (k', v') :: o' =>
      match arrayIndex k' with
      | Some m => if (m <? n)%N then (k', v') :: insertIndex n k v o'
                  else (k, v) :: o
      | None => (k, v) :: o
      end
  end.

(** [o[k] = v] for an object value [v].  The key [__proto__] reaches the
    prototype setter and creates no own property. *)
Definition assign {V} (k : string) (v : V) (o : t V) : t V :=
  if String.eqb k "__proto__" then o
  else if has k o then replace k v o
  else match arrayIndex k with
       | Some n => insertIndex n k v o
       | None => (o ++ [(k, v)])%list
       end.

Definition keys {V} (o : t V) : list string := List.map fst o.

End JsObject.

(** ** The data the pipeline builds *)

Inductive Category : Type :=
| Faq | Policy | Contact | Billing | Cancellation | Refund | General.

Definition categoryName (c : Category) : string :=
  match c with
  | Faq => "faq" | Policy => "policy" | Contact => "contact"
  | Billing => "billing" | Cancellation => "cancellation"
  | Refund => "refund" | General => "general"
  end.

Definition Category_eqb (a b : Category) : bool :=
  String.eqb (categoryName a) (categoryName b).

(** A value built by a method the source does not define, kept as its JSON
    text. *)
Definition JsValue : Type := string.

(** Which of the four discovery methods created an object. *)
Inductive Producer : Type := Navigation | Sitemap | Robots | Generated.

(** The identity of a link object: a JavaScript [Set] of objects compares
    its members by identity, not by their fields. *)
Record ObjId := mkObjId { maker : Producer; serial : nat }.

Definition Producer_eqb (a b : Producer) : bool :=
  match a, b with
  | Navigation, Navigation | Sitemap, Sitemap
  | Robots, Robots | Generated, Generated => true
  | _, _ => false
  end.

Definition ObjId_eqb (a b : ObjId) : bool :=
  Producer_eqb (maker a) (maker b) && (serial a =? serial b)%nat.

Module Link.
(** [{url, text, type, location}] from the navigation scan and
    [{url, source, type}] from the sitemap scan; an absent field is
    [None] (undefined).  [madeBy p l] is the object [l] as one of the
    objects of producer [p]: a producer cannot return an object that
    another one made. *)
Record t := mk {
  oid : ObjId;
  url : string;
  text : option string;
  source : option string;
  type : Category;
  location : option JsValue
}.

Definition madeBy (p : Producer) (l : t) : t :=
  mk (mkObjId p (serial (oid l))) (url l) (text l) (source l) (type l) (location l).
End Link.

Module Content.
Record heading := mkHeading { level : nat; text : string; id : option string }.
Record listing := mkListing { type : string; items : list string }.
Record contactInfo := mkContactInfo {
  emails : list string; phones : list string; addresses : list string }.
Record t := mk {
  title : string;
  headings : list heading;
  paragraphs : list string;
  lists : list listing;
  tables : JsValue;
  forms : JsValue;
  contact : contactInfo;
  metadata : JsValue
}.
End Content.

Module Page.
(** What [crawlSupportPages] stores for a crawled link. *)
Record metadata := mkMetadata {
  crawledAt : string; linkText : option string; source : string }.
Record t := mk {
  url : string; type : Category; content : Content.t; meta : metadata }.
End Page.

Module Processed.
(** What [processAndStructureContent] stores for a crawled page. *)
Record t := mk {
  url : string; type : Category; title : string;
  sections : JsValue; policies : JsValue; procedures : JsValue;
  contactInfo : Content.contactInfo; lastUpdated : string }.
End Processed.

Module Actionable.
Record cancellationInfo := mkCancellation {
  steps : list JsValue; requirements : list JsValue;
  deadlines : list JsValue; contactMethods : list JsValue }.
Record refundsInfo := mkRefunds {
  policies : list JsValue; timeframes : list JsValue;
  procedures : list JsValue; exceptions : list JsValue }.
Record billingInfo := mkBilling {
  paymentMethods : list JsValue; cycles : list JsValue;
  issues : list JsValue; contacts : list JsValue }.
Record contactData := mkContact {
  emails : list JsValue; phones : list JsValue;
  hours : list JsValue; departments : list JsValue }.
Record t := mk {
  cancellation : cancellationInfo; refunds : refundsInfo;
  billing : billingInfo; contact : contactData }.

Definition empty : t :=
  mk (mkCancellation [] [] [] []) (mkRefunds [] [] [] [])
     (mkBilling [] [] [] []) (mkContact [] [] [] []).
End Actionable.

(** The structured data: category to pages, in the order the categories
    were first seen. *)
Definition Structured : Type := list (Category * list Processed.t).

(** ** The browser and the methods not in the source *)

Inductive FetchOutcome : Type :=
| FetchFailed (e : Error)                           (* [fetch] rejects *)
| FetchResponse (ok : bool) (body : result string). (* [response.ok], [response.text()] *)

(** The reply of the background page to [fetchPageContent]. *)
Inductive Reply : Type :=
| NoReply                                 (* [response] is undefined *)
| ReplySuccess (html : string)            (* [{success: true, html}] *)
| ReplyFailure (error : option string).   (* [{success: false, error}] *)

Inductive Regex : Type := emailRegex | phoneRegex.

Record Browser := {
  location_origin : string;                         (* window.location.origin *)
  location_href : string;                           (* window.location.href *)
  document : Dom.Document;                          (* the current page *)
  newURL : string -> string -> result string;       (* new URL(a, b).href *)
  fetch : string -> FetchOutcome;
  parseXML : string -> Dom.Document;                (* DOMParser, text/xml *)
  parseHTML : string -> Dom.Document;               (* DOMParser, text/html *)
  sendMessage : nat -> string -> Reply;             (* reply to the request for link number k *)
  settleOrder : list (nat * string) -> list (nat * string);
                                                    (* the order in which requests sent together are answered *)
  matchAll : Regex -> string -> list string;        (* text.match(regex) || [] *)
  crawlTime : nat -> string;                        (* the clock when link number k is stored *)
  reportTime : string                               (* the clock when the result is built *)
}.

(** The methods [AdvancedWebsiteAnalyzer] calls without defining them in
    the source file.  Each is a function of its arguments that returns or
    throws. *)
Record Methods := {
  analyzeCurrentPage : result JsValue;
  checkRobotsTxt : string -> result (list Link.t);
  generateCommonSupportUrls : string -> result (list Link.t);
  getLinkLocation : Dom.located -> result JsValue;
  extractTables : Dom.Document -> result JsValue;
  extractForms : Dom.Document -> result JsValue;
  extractMetadata : Dom.Document -> result JsValue;
  identifyContentSections : Content.t -> result JsValue;
  extractPolicies : Content.t -> result JsValue;
  extractProcedures : Content.t -> result JsValue;
  extractActionableFromPage : Processed.t -> Actionable.t -> result Actionable.t
}.

(** ** The analyzer *)

Record Analyzer := mkAnalyzer {
  supportSections : JsObject.t JsValue;
  crawledUrls : gset string;
  maxDepth : Z;
  currentDepth : Z;
  supportPatterns : list string;
  contentTypes : list (Category * list string)
}.

(** [constructor()] *)
Definition constructor : Analyzer :=
  {| supportSections := [];
     crawledUrls := ∅;
     maxDepth := 3;
     currentDepth := 0;
     supportPatterns :=
       ["/help"; "/support"; "/faq"; "/contact"; "/customer-service";
        "/documentation"; "/docs"; "/knowledge-base"; "/help-center";
        "/cancellation"; "/refund"; "/billing"; "/terms"; "/policy"];
     contentTypes :=
       [(Faq, ["faq"; "frequently asked"; "common questions"]);
        (Policy, ["policy"; "terms"; "conditions"; "agreement"]);
        (Contact, ["contact"; "support"; "help"; "customer service"]);
        (Billing, ["billing"; "payment"; "subscription"; "pricing"]);
        (Cancellation, ["cancel"; "cancellation"; "unsubscribe"; "terminate"]);
        (Refund, ["refund"; "return"; "money back"; "reimbursement"])] |}.

Definition withCrawledUrls (this : Analyzer) (s : gset string) : Analyzer :=
  mkAnalyzer (supportSections this) s (maxDepth this) (currentDepth this)
             (supportPatterns this) (contentTypes this).

Definition withMaxDepth (this : Analyzer) (d : Z) : Analyzer :=
  mkAnalyzer (supportSections this) (crawledUrls this) d (currentDepth this)
             (supportPatterns this) (contentTypes this).

(** ** Classification and URL resolution *)

Definition supportKeywords : list string :=
  ["help"; "support"; "faq"; "contact"; "customer"; "service";
   "documentation"; "docs"; "knowledge"; "cancel"; "refund";
   "billing"; "payment"; "terms"; "policy"; "privacy"].

Definition isSupportRelated (url text : string) : bool :=
  let combined := toLowerCase (url ++ " " ++ text) in
  existsb (fun keyword => includes combined keyword) supportKeywords.

(** The [for ... of Object.entries(this.contentTypes)] loop of
    [categorizeLink]: the first entry with a matching keyword returns. *)
Fixpoint firstCategory (combined : string) (entries : list (Category * list string))
  : Category :=
  match entries with
  | [] => General
  | (category, keywords) :: rest =>
      if existsb (fun keyword => includes combined keyword) keywords
      then category
      else firstCategory combined rest
  end.

Definition categorizeLink (this : Analyzer) (url text : string) : Category :=
  let combined := toLowerCase (url ++ " " ++ text) in
  firstCategory combined (contentTypes this).

Definition resolveUrl (B : Browser) (href : string) : result string :=
  if startsWith href "http" then Ok href
  else if startsWith href "/" then Ok (location_origin B ++ href)
  else newURL B href (location_href B).

(** ** Link discovery *)

Section Discovery.

Context (B : Browser) (M : Methods).

(** ['a[href]'] and ['url loc, sitemap loc'] *)
Definition anchorsWithHref : list Dom.selector :=
  [Dom.Simple (Dom.TagWithAttr "a" "href")].

Definition sitemapLocs : list Dom.selector :=
  [Dom.Descendant (Dom.Tag "url") (Dom.Tag "loc");
   Dom.Descendant (Dom.Tag "sitemap") (Dom.Tag "loc")].

(** [link.getAttribute('href')] of an element selected by [a[href]] *)
Definition hrefOf (link : Dom.located) : string :=
  default "" (Dom.getAttribute (snd link) "href").

(** The body of [allLinks.forEach] in [findNavigationLinks], for the
    anchors from number [k] on; [links] is the array built so far. *)
Fixpoint scanAnchors (this : Analyzer) (k : nat) (allLinks : list Dom.located)
    (links : list Link.t) : result (list Link.t) :=
  match allLinks with
  | [] => Ok links
  | link :: rest =>
      let href := hrefOf link in
      let text := trim (toLowerCase (Dom.textContent (snd link))) in
      let* url := resolveUrl B href in
      if isSupportRelated url text
      then
        let type := categorizeLink this url text in
        let* location := getLinkLocation M link in
        scanAnchors this (S k) rest
          (links ++ [Link.mk (mkObjId Navigation k) url (Some text) None
                             type (Some location)])%list
      else scanAnchors this (S k) rest links
  end.

Definition findNavigationLinks (this : Analyzer) : result (list Link.t) :=
  let allLinks := Dom.querySelectorAll anchorsWithHref (document B) in
  scanAnchors this 0 allLinks [].

(** The body of [urls.forEach] in [checkSitemap]. *)
Definition pushSitemapUrl (this : Analyzer) (links : list Link.t)
    (urlElement : Dom.located) : list Link.t :=
  let url := Dom.textContent (snd urlElement) in
  if isSupportRelated url ""
  then (links ++ [Link.mk (mkObjId Sitemap (length links)) url None
                          (Some "sitemap") (categorizeLink this url "") None])%list
  else links.

(** One turn of the [for (const sitemapUrl of sitemapUrls)] loop, with
    its [try]/[catch]. *)
Definition readSitemap (this : Analyzer) (links : list Link.t)
    (sitemapUrl : string) : list Link.t :=
  match fetch B sitemapUrl with
  | FetchFailed _ => links
  | FetchResponse false _ => links
  | FetchResponse true (Throw _) => links
  | FetchResponse true (Ok text) =>
      let xmlDoc := parseXML B text in
      let urls := Dom.querySelectorAll sitemapLocs xmlDoc in
      fold_left (pushSitemapUrl this) urls links
  end.

Definition checkSitemap (this : Analyzer) (baseUrl : string)
  : completion (list Link.t) :=
  let sitemapUrls := [baseUrl ++ "/sitemap.xml"; baseUrl ++ "/sitemap_index.xml"] in
  let links : list Link.t := [] in
  Fulfilled (fold_left (readSitemap this) sitemapUrls links).

(** The array [checkSitemap] returns. *)
Definition sitemapLinksOf (this : Analyzer) : list Link.t :=
  fold_left (readSitemap this)
    [location_origin B ++ "/sitemap.xml"; location_origin B ++ "/sitemap_index.xml"] [].

(** The identities of the sitemap links: the link pushed when the array
    has [n] members is number [n]. *)
Definition numbered (links : list Link.t) : Prop :=
  List.map Link.oid links
  = List.map (mkObjId Sitemap) (seq 0 (length links)).

(** [links.add(link)] on a [Set] of objects. *)
Definition setAdd (links : list Link.t) (link : Link.t) : list Link.t :=
  if existsb (fun l => ObjId_eqb (Link.oid l) (Link.oid link)) links
  then links
  else (links ++ [link])%list.

(** [found.forEach(link => links.add(link))] *)
Definition addAll (links found : list Link.t) : list Link.t :=
  fold_left setAdd found links.

Definition discoverSupportLinks (this : Analyzer) : completion (list Link.t) :=
  let links : list Link.t := [] in
  let baseUrl := location_origin B in
  (* Method 1 *)
  await (settle (findNavigationLinks this)) (fun navLinks =>
  let links := addAll links navLinks in
  (* Method 2 *)
  await (tryAwait (checkSitemap this baseUrl)
           (fun sitemapLinks => addAll links sitemapLinks)
           (fun _ => links)) (fun links =>
  (* Method 3 *)
  await (tryAwait (settle (checkRobotsTxt M baseUrl))
           (fun robotsLinks => addAll links (List.map (Link.madeBy Robots) robotsLinks))
           (fun _ => links)) (fun links =>
  (* Method 4 *)
  await (settle (generateCommonSupportUrls M baseUrl)) (fun commonLinks =>
  let links := addAll links (List.map (Link.madeBy Generated) commonLinks) in
  Fulfilled links)))).

End Discovery.

(** ** Fetching and extracting a page *)

Section Extraction.

Context (B : Browser) (M : Methods).

Definition extractTitle (doc : Dom.Document) : string :=
  match Dom.querySelector [Dom.Simple (Dom.Tag "title")] doc with
  | Some t => orElse (Some (trim (Dom.textContent (snd t)))) ""
  | None => ""
  end.

(** [parseInt(heading.tagName[1])] *)
Definition headingLevel (tag : string) : nat :=
  match tag with
  | String _ (String d _) => nat_of_ascii d - 48
  | _ => 0
  end.

Definition extractHeadings (doc : Dom.Document) : list Content.heading :=
  let headingElements :=
    Dom.querySelectorAll
      (List.map (fun t => Dom.Simple (Dom.Tag t)) ["h1"; "h2"; "h3"; "h4"; "h5"; "h6"])
      doc in
  fold_left
    (fun headings heading =>
       (headings ++
        [Content.mkHeading
           (headingLevel (Dom.tagName (snd heading)))
           (trim (Dom.textContent (snd heading)))
           (match Dom.getAttribute (snd heading) "id" with
            | Some (String c r) => Some (String c r)
            | _ => None
            end)])%list)
    headingElements [].

Definition extractParagraphs (doc : Dom.Document) : list string :=
  let pElements := Dom.querySelectorAll [Dom.Simple (Dom.Tag "p")] doc in
  fold_left
    (fun paragraphs p =>
       let text := trim (Dom.textContent (snd p)) in
       if (20 <? String.length text)%nat
       then (paragraphs ++ [text])%list
       else paragraphs)
    pElements [].



Definition extractLists (doc : Dom.Document) : list Content.listing :=
  let listElements :=
    Dom.querySelectorAll [Dom.Simple (Dom.Tag "ul"); Dom.Simple (Dom.Tag "ol")] doc in
  fold_left
    (fun lists list =>
       let items :=
         List.map (fun li => trim (Dom.textContent (snd li)))
           (Dom.querySelectorAllIn [Dom.Simple (Dom.Tag "li")] list) in
       if (0 <? length items)%nat
       then (lists ++ [Content.mkListing (toLowerCase (Dom.tagName (snd list))) items])%list
       else lists)
    listElements [].

(** [[...new Set(found)]]: the first occurrence of each string. *)
Fixpoint unique (seen : list string) (found : list string) : list string :=
  match found with
  | [] => []
  | x :: rest =>
      if existsb (String.eqb x) seen then unique seen rest
      else x :: unique (x :: seen) rest
  end.

Definition extractContactInfo (doc : Dom.Document) : result Content.contactInfo :=
  match Dom.body doc with
  | None => Throw (mkError "Cannot read properties of null (reading 'textContent')")
  | Some b =>
      let bodyText := Dom.textContent b in
      let emails := unique [] (matchAll B emailRegex bodyText) in
      let phones := unique [] (matchAll B phoneRegex bodyText) in
      let addressElements :=
        Dom.querySelectorAll
          [Dom.Simple (Dom.AttrContains "class" "address");
           Dom.Simple (Dom.AttrContains "class" "location")] doc in
      let addresses :=
        List.filter (fun addr => (10 <? String.length addr)%nat)
          (List.map (fun el => trim (Dom.textContent (snd el))) addressElements) in
      Ok (Content.mkContactInfo emails phones addresses)
  end.

Definition unwantedSelectors : list Dom.simple :=
  [Dom.Tag "script"; Dom.Tag "style"; Dom.Tag "nav"; Dom.Tag "header";
   Dom.Tag "footer"; Dom.Class "advertisement"; Dom.Class "ads";
   Dom.Class "sidebar"; Dom.Class "menu"].

Definition extractContentFromHtml (html : string) : result Content.t :=
  let doc := parseHTML B html in
  let doc := fold_left (fun d selector => Dom.removeAll selector d) unwantedSelectors doc in
  let title := extractTitle doc in
  let headings := extractHeadings doc in
  let paragraphs := extractParagraphs doc in
  let lists := extractLists doc in
  let* tables := extractTables M doc in
  let* forms := extractForms M doc in
  let* contactInfo := extractContactInfo doc in
  let* metadata := extractMetadata M doc in
  Ok (Content.mk title headings paragraphs lists tables forms contactInfo metadata).

(** The promise of [crawlSinglePage]; [k] is the number of the link the
    request is made for.  The promise is settled inside the reply
    callback: an exception of [extractContentFromHtml] there leaves it
    pending. *)
Definition crawlSinglePage (k : nat) (url : string) : completion Content.t :=
  match sendMessage B k url with
  | ReplySuccess html =>
      match extractContentFromHtml html with
      | Ok content => Fulfilled content
      | Throw _ => Pending
      end
  | ReplyFailure error => Rejected (mkError (orElse error "Failed to fetch content"))
  | NoReply => Rejected (mkError "Failed to fetch content")
  end.

End Extraction.

(** ** The crawl coordinator *)

(** What the coordinator does, in the order it does it. *)
Inductive Event : Type :=
| BatchTaken (batch : list Link.t)      (* a turn of the loop takes its slice *)
| FetchIssued (k : nat) (url : string)  (* the request for link number k is sent *)
| FetchSettled (k : nat) (url : string) (added : bool)
                                        (* its promise settles; [added]: [crawledUrls.add(url)] ran *)
| BatchAwaited                          (* [Promise.all] resolves *)
| Delay (ms : nat).                     (* the [setTimeout] pause *)

Record CrawlRun := mkRun {
  returned : completion (JsObject.t Page.t);  (* the promise of [crawlSupportPages] *)
  visited : gset string;                      (* [this.crawledUrls] when it stops *)
  trace : list Event
}.

Definition isFulfilled {A} (c : completion A) : bool :=
  match c with Fulfilled _ => true | _ => false end.

Definition isPending {A} (c : completion A) : bool :=
  match c with Pending => true | _ => false end.

(** [Promise.all] *)
Fixpoint promiseAll {A} (ps : list (completion A)) : completion (list A) :=
  match ps with
  | [] => Fulfilled []
  | Rejected e :: _ => Rejected e
  | Fulfilled a :: rest =>
      match promiseAll rest with
      | Fulfilled l => Fulfilled (a :: l)
      | Rejected e => Rejected e
      | Pending => Pending
      end
  | Pending :: rest =>
      match promiseAll rest with
      | Rejected e => Rejected e
      | _ => Pending
      end
  end.

(** [array.slice(i, j)] for [0 <= i <= j] *)
Definition slice {A} (l : list A) (i j : nat) : list A :=
  firstn (j - i) (skipn i l).

(** A link of a batch with its number in [supportLinks]. *)
Abbreviation Job := (nat * Link.t)%type.

Section Crawl.

Context (B : Browser) (M : Methods).

Definition maxConcurrent : nat := 3.

Definition jobsOf (i : nat) (batch : list Link.t) : list Job :=
  combine (seq i (length batch)) batch.

(** The [async (linkInfo) => ...] callback of [batch.map], run when
    [this.crawledUrls] is [seen]. *)
Definition crawlJob (seen : gset string) (job : Job) : completion (option Page.t) :=
  let '(k, linkInfo) := job in
  if bool_decide (Link.url linkInfo ∈ seen) then Fulfilled None
  else
    tryAwait (crawlSinglePage B M k (Link.url linkInfo))
      (fun content =>
         Some (Page.mk (Link.url linkInfo) (Link.type linkInfo) content
                 (Page.mkMetadata (crawlTime B k) (Link.text linkInfo)
                    (orElse (Link.source linkInfo) "navigation"))))
      (fun _ => None).

(** The requests a batch sends: one for each link whose URL is not in
    [this.crawledUrls]. *)
Definition requestsOf (seen : gset string) (jobs : list Job) : list (nat * string) :=
  List.map (fun job : Job => (fst job, Link.url (snd job)))
    (List.filter (fun job : Job => negb (bool_decide (Link.url (snd job) ∈ seen))) jobs).

Definition outcomeOf (r : nat * string) : completion Content.t :=
  crawlSinglePage B M (fst r) (snd r).

(** The continuation after [await this.crawlSinglePage(...)]: on success
    [this.crawledUrls.add(url)] runs. *)
Definition settleRequest (seen : gset string) (r : nat * string) : gset string :=
  if isFulfilled (outcomeOf r) then {[snd r]} ∪ seen else seen.

Definition issueEvent (r : nat * string) : Event := FetchIssued (fst r) (snd r).

Definition settleEvent (r : nat * string) : Event :=
  FetchSettled (fst r) (snd r) (isFulfilled (outcomeOf r)).

Record BatchRun := mkBatch {
  batchResults : completion (list (option Page.t));
  batchSeen : gset string;
  batchEvents : list Event
}.

(** From [batch.map] to [await Promise.all(batchPromises)]. *)
Definition runBatch (i : nat) (batch : list Link.t) (seen : gset string) : BatchRun :=
  let jobs := jobsOf i batch in
  let batchPromises := List.map (crawlJob seen) jobs in
  let requests := requestsOf seen jobs in
  let answered :=
    settleOrder B (List.filter (fun r => negb (isPending (outcomeOf r))) requests) in
  let results := promiseAll batchPromises in
  mkBatch results
    (fold_left settleRequest answered seen)
    (List.map issueEvent requests ++ List.map settleEvent answered
     ++ (if isFulfilled results then [BatchAwaited] else []))%list.

(** [batchResults.forEach(result => { if (result) ... })] *)
Definition storeResults (batchResults : list (option Page.t))
    (crawledContent : JsObject.t Page.t) : JsObject.t Page.t :=
  fold_left
    (fun content result =>
       match result with
       | Some page => JsObject.assign (Page.url page) page content
       | None => content
       end)
    batchResults crawledContent.

(** The [for (let i = 0; i < supportLinks.length; i += maxConcurrent)]
    loop from index [i] on.  [fuel] bounds the number of turns; [None]
    means the bound was too small. *)
Fixpoint crawlFrom (fuel : nat) (supportLinks : list Link.t) (i : nat)
    (crawledContent : JsObject.t Page.t) (seen : gset string) : option CrawlRun :=
  match fuel with
  | O => None
  | S fuel' =>
      if (i <? length supportLinks)%nat
      then
        let batch := slice supportLinks i (i + maxConcurrent) in
        let b := runBatch i batch seen in
        match batchResults b with
        | Fulfilled results =>
            let crawledContent := storeResults results crawledContent in
            let pause :=
              if (i + maxConcurrent <? length supportLinks)%nat
              then [Delay 1000] else [] in
            match crawlFrom fuel' supportLinks (i + maxConcurrent)
                    crawledContent (batchSeen b) with
            | Some r =>
                Some (mkRun (returned r) (visited r)
                        (BatchTaken batch :: batchEvents b ++ pause ++ trace r)%list)
            | None => None
            end
        | Rejected e =>
            Some (mkRun (Rejected e) (batchSeen b) (BatchTaken batch :: batchEvents b))
        | Pending =>
            Some (mkRun Pending (batchSeen b) (BatchTaken batch :: batchEvents b))
        end
      else Some (mkRun (Fulfilled crawledContent) seen [])
  end.

(** [crawlSupportPages]: the loop is given one turn more than there are
    links, which is more than it takes. *)
Definition crawlSupportPages (this : Analyzer) (supportLinks : list Link.t)
  : option CrawlRun :=
  let crawledContent : JsObject.t Page.t := [] in
  crawlFrom (S (length supportLinks)) supportLinks 0 crawledContent (crawledUrls this).

End Crawl.

(** ** Structuring and the entry point *)

Inductive AnalysisResult : Type :=
| Analysis (currentPage : JsValue) (supportSections : Structured)
           (actionableInfo : Actionable.t)
           (pagesAnalyzed : nat) (contentTypes : list string) (timestamp : string)
| AnalysisError (error : string).

Record AnalysisRun := mkAnalysisRun {
  answer : completion AnalysisResult;   (* the promise of [performDeepAnalysis] *)
  after : Analyzer;                     (* the analyzer when it stops *)
  crawlTrace : list Event
}.

Section Analysis.

Context (B : Browser) (M : Methods).

(** [structured[type] = structured[type] || []; structured[type].push(processed)] *)
Fixpoint pushStructured (type : Category) (processed : Processed.t)
    (structured : Structured) : Structured :=
  match structured with
  | [] => [(type, [processed])]
  | (c, pages) :: rest =>
      if Category_eqb c type then (c, pages ++ [processed])%list :: rest
      else (c, pages) :: pushStructured type processed rest
  end.

Definition processEntry (structured : Structured) (entry : string * Page.t)
  : result Structured :=
  let '(url, pageData) := entry in
  let* sections := identifyContentSections M (Page.content pageData) in
  let* policies := extractPolicies M (Page.content pageData) in
  let* procedures := extractProcedures M (Page.content pageData) in
  let processed :=
    Processed.mk url (Page.type pageData) (Content.title (Page.content pageData))
      sections policies procedures (Content.contact (Page.content pageData))
      (Page.crawledAt (Page.meta pageData)) in
  Ok (pushStructured (Page.type pageData) processed structured).

(** A [forEach] over [l] whose callback updates [acc] and may throw. *)
Fixpoint foldM {A S} (f : S -> A -> result S) (l : list A) (acc : S) : result S :=
  match l with
  | [] => Ok acc
  | a :: l' => let* acc' := f acc a in foldM f l' acc'
  end.

Definition processAndStructureContent (crawledContent : JsObject.t Page.t)
  : result Structured :=
  foldM processEntry crawledContent [].

Definition extractActionableInformation (structuredData : Structured)
  : result Actionable.t :=
  foldM
    (fun actionable (entry : Category * list Processed.t) =>
       foldM (fun actionable page => extractActionableFromPage M page actionable)
         (snd entry) actionable)
    structuredData Actionable.empty.

(** The [catch] of [performDeepAnalysis]. *)
Definition caught (this : Analyzer) (t : list Event) (error : Error) : AnalysisRun :=
  mkAnalysisRun (Fulfilled (AnalysisError (message error))) this t.

(** [performDeepAnalysis]: the five phases inside one [try]; every error
    that reaches it is caught.  [None] only if the crawl loop ran out of
    turns. *)
Definition performDeepAnalysis (this : Analyzer) : option AnalysisRun :=
  (* Phase 1 *)
  match analyzeCurrentPage M with
  | Throw error => Some (caught this [] error)
  | Ok currentPageData =>
  (* Phase 2 *)
  match discoverSupportLinks B M this with
  | Rejected error => Some (caught this [] error)
  | Pending => Some (mkAnalysisRun Pending this [])
  | Fulfilled supportLinks =>
  (* Phase 3 *)
  match crawlSupportPages B M this supportLinks with
  | None => None
  | Some run =>
  let this := withCrawledUrls this (visited run) in
  match returned run with
  | Rejected error => Some (caught this (trace run) error)
  | Pending => Some (mkAnalysisRun Pending this (trace run))
  | Fulfilled crawledContent =>
  (* Phase 4 *)
  match processAndStructureContent crawledContent with
  | Throw error => Some (caught this (trace run) error)
  | Ok structuredData =>
  (* Phase 5 *)
  match extractActionableInformation structuredData with
  | Throw error => Some (caught this (trace run) error)
  | Ok actionableData =>
      Some (mkAnalysisRun
              (Fulfilled
                 (Analysis currentPageData structuredData actionableData
                    (size (crawledUrls this))
                    (List.map (fun entry => categoryName (fst entry)) structuredData)
                    (reportTime B)))
              this (trace run))
  end end end end end end.

End Analysis.

(** ** A concrete site, used to run the definitions *)

Module Example.

Definition anchor (href text : string) : Dom.node :=
  Dom.Element "a" [("href", href)] [Dom.TextNode text].

Definition htmlPage (bodyChildren : list Dom.node) : Dom.Document :=
  Some (Dom.Element "html" []
          [Dom.Element "head" [] [Dom.Element "title" [] [Dom.TextNode "Example"]];
           Dom.Element "body" [] bodyChildren]).

(** A sitemap: [<urlset><url><loc>u</loc></url>...</urlset>] *)
Definition urlset (locs : list string) : Dom.Document :=
  Some (Dom.Element "urlset" []
          (List.map (fun u => Dom.Element "url" []
                                [Dom.Element "loc" [] [Dom.TextNode u]]) locs)).

(** The directory of a URL: up to its last slash. *)
Fixpoint dirOf (base : string) : string :=
  match base with
  | EmptyString => EmptyString
  | String c rest =>
      if includes rest "/" then String c (dirOf rest)
      else if Ascii.eqb c "/" then String c EmptyString
      else EmptyString
  end.

(** What follows the first [://] of a string, if it has one. *)
Fixpoint afterScheme (s : string) : option string :=
  match s with
  | EmptyString => None
  | String c rest =>
      if String.prefix "://" s
      then Some (String.substring 3 (String.length s - 3) s)
      else afterScheme rest
  end.

(** The error of the URL constructor. *)
Definition invalidUrl : Error := mkError "Failed to construct 'URL': Invalid URL".

(** A URL constructor for the examples.  It knows two rules of the URL
    standard: a reference with a scheme and [://] is absolute, and is
    rejected when no host follows; any other reference is taken as a
    path next to the base. *)
Definition urlConstructor (url base : string) : result string :=
  match afterScheme url with
  | Some EmptyString => Throw invalidUrl
  | Some _ => Ok url
  | None => Ok (dirOf base ++ url)
  end.

Definition sitemapText : string := "<urlset>...</urlset>".

(** The browser on a page of https://example.com with the given
    document, sitemap entries and replies of the background page.  Only
    /sitemap.xml exists on the site; the HTML parser of the example reads
    a text as a page with that text as its one paragraph; requests sent
    together are answered last first. *)
Definition browser (doc : Dom.Document) (locs : list string)
    (replies : nat -> string -> Reply) : Browser :=
  {| location_origin := "https://example.com";
     location_href := "https://example.com/shop/index.html";
     document := doc;
     newURL := urlConstructor;
     fetch := fun u =>
       if String.eqb u "https://example.com/sitemap.xml"
       then FetchResponse true (Ok sitemapText)
       else FetchResponse false (Ok "Not Found");
     parseXML := fun text =>
       if String.eqb text sitemapText then urlset locs else None;
     parseHTML := fun html =>
       htmlPage [Dom.Element "p" [] [Dom.TextNode html]];
     sendMessage := replies;
     settleOrder := fun requests => rev requests;
     matchAll := fun _ _ => [];
     crawlTime := fun _ => "2024-01-01T00:00:00.000Z";
     reportTime := "2024-01-01T00:00:10.000Z" |}.

(** Modelled from the spec: [generateCommonSupportUrls] is not in the
    source; section 4.2 has it produce the origin followed by each entry
    of the fixed pattern list, without checking that the page exists. *)
Definition generated (baseUrl : string) : list Link.t :=
  List.map
    (fun np : nat * string =>
       let url := baseUrl ++ snd np in
       Link.mk (mkObjId Generated (fst np)) url None (Some "generated")
               (categorizeLink constructor url "") None)
    (combine (seq 0 (length (supportPatterns constructor)))
             (supportPatterns constructor)).

(** Stand-ins for the methods the source does not define: every one
    returns. *)
Definition methods : Methods :=
  {| analyzeCurrentPage := Ok "{}";
     checkRobotsTxt := fun _ => Ok [];
     generateCommonSupportUrls := fun baseUrl => Ok (generated baseUrl);
     getLinkLocation := fun _ => Ok "body";
     extractTables := fun _ => Ok "[]";
     extractForms := fun _ => Ok "[]";
     extractMetadata := fun _ => Ok "{}";
     identifyContentSections := fun _ => Ok "[]";
     extractPolicies := fun _ => Ok "[]";
     extractProcedures := fun _ => Ok "[]";
     extractActionableFromPage := fun _ actionable => Ok actionable |}.


Definition allSucceed : nat -> string -> Reply :=
  fun _ url => ReplySuccess ("This is the support page at " ++ url).

(** A page that links to its FAQ, with a sitemap that lists the FAQ
    again and a refund policy. *)
Definition shop : Browser :=
  browser (htmlPage [Dom.Element "nav" [] [anchor "/faq" "FAQ"];
                     anchor "about.html" "About us"])
          ["https://example.com/faq"; "https://example.com/refund-policy"]
          allSucceed.

(** The same page with one more anchor, whose [href] has a scheme and
    no host. *)
Definition shopWithBadLink : Browser :=
  browser (htmlPage [anchor "HTTP://" "Help";
                     Dom.Element "nav" [] [anchor "/faq" "FAQ"]])
          [] allSucceed.

(** A site whose pages mark their body as a sidebar. *)
Definition sidebarSite : Browser :=
  {| location_origin := location_origin shop;
     location_href := location_href shop;
     document := document shop;
     newURL := newURL shop;
     fetch := fetch shop;
     parseXML := parseXML shop;
     parseHTML := fun html =>
       Some (Dom.Element "html" []
               [Dom.Element "head" [] [];
                Dom.Element "body" [("class", "page sidebar")]
                  [Dom.Element "p" [] [Dom.TextNode html]]]);
     sendMessage := sendMessage shop;
     settleOrder := settleOrder shop;
     matchAll := matchAll shop;
     crawlTime := crawlTime shop;
     reportTime := reportTime shop |}.

(** A document with two paragraphs, a short one and a long one. *)
Definition article : Dom.Document :=
  htmlPage [Dom.Element "p" [] [Dom.TextNode "  Contact us  "];
            Dom.Element "div" []
              [Dom.Element "p" []
                 [Dom.TextNode " Refunds are issued within ";
                  Dom.Element "b" [] [Dom.TextNode "30 days"];
                  Dom.TextNode " of purchase. "]]].


Definition link (n : nat) (url : string) : Link.t :=
  Link.mk (mkObjId Navigation n) url (Some "help") None Contact (Some "body").



(** Two links with one address, in one batch. *)
Definition twins : list Link.t :=
  [link 0 "https://example.com/a-help"; link 1 "https://example.com/a-help"].

Definition fiveLinks : list Link.t :=
  [link 0 "https://example.com/a-help"; link 1 "https://example.com/b-help";
   link 2 "https://example.com/c-help"; link 3 "https://example.com/d-help";
   link 4 "https://example.com/e-help"].

End Example.


(** ** Reading a trace *)

Definition isIssue (e : Event) : bool :=
  match e with FetchIssued _ _ => true | _ => false end.

Definition isSettle (e : Event) : bool :=
  match e with FetchSettled _ _ _ => true | _ => false end.

(** The fetches in flight after the events of [t]: those issued and not
    yet settled. *)
Definition inFlight (t : list Event) : Z :=
  Z.of_nat (length (List.filter isIssue t)) - Z.of_nat (length (List.filter isSettle t)).

(** [this.crawledUrls] after the events of [t], when it was [seen] before
    them. *)
Definition addUrl (seen : gset string) (e : Event) : gset string :=
  match e with
  | FetchSettled _ url true => {[url]} ∪ seen
  | _ => seen
  end.

Definition crawledUrlsAfter (seen : gset string) (t : list Event) : gset string :=
  fold_left addUrl t seen.

(** A trace that keeps the two rules of the coordinator, started with [n]
    fetches in flight and [seen] as the visited set: at most three fetches
    are in flight, and a fetch is issued only for a URL not yet in the
    set. *)
Fixpoint disciplined (n : nat) (seen : gset string) (t : list Event) : Prop :=
  (n <= 3)%nat /\
  (match t with
   | [] => True
   | FetchIssued _ url :: t' => (url ∉ seen) /\ disciplined (S n) seen t'
   | FetchSettled k url added :: t' =>
       (0 < n)%nat /\ disciplined (n - 1) (addUrl seen (FetchSettled k url added)) t'
   | _ :: t' => disciplined n seen t'
   end).

(** The batches and pauses of a trace, in order. *)
Definition isPacing (e : Event) : bool :=
  match e with BatchTaken _ | Delay _ => true | _ => false end.

Definition pacing (t : list Event) : list Event := List.filter isPacing t.

(** The batches in the words of the specification: consecutive runs of
    three links, the last one possibly shorter. *)
Fixpoint chunksFrom {A} (fuel : nat) (l : list A) : list (list A) :=
  match fuel, l with
  | S fuel', _ :: _ => firstn 3 l :: chunksFrom fuel' (skipn 3 l)
  | _, _ => []
  end.


(** The pacing in the words of the specification: a pause of one second
    after every batch but the last. *)
Fixpoint paced (batches : list (list Link.t)) : list Event :=
  match batches with
  | [] => []
  | [batch] => [BatchTaken batch]
  | batch :: rest => BatchTaken batch :: Delay 1000 :: paced rest
  end.

(** Every request that is sent together with others is answered once. *)
Definition answersEach (B : Browser) : Prop :=
  forall requests : list (nat * string), Permutation (settleOrder B requests) requests.

(** Every page promise settles: the background page replies and the
    extraction in the reply callback returns. *)
Definition everyCrawlSettles (B : Browser) (M : Methods) : Prop :=
  forall (k : nat) (url : string), isPending (crawlSinglePage B M k url) = false.



(** The run of an analyzer that differs from [this] in [maxDepth] only. *)
Definition atDepth (d : Z) (run : AnalysisRun) : AnalysisRun :=
  mkAnalysisRun (answer run) (withMaxDepth (after run) d) (crawlTrace run).


(** ** More notions for the statements *)



Definition withSendMessage (B : Browser) (reply : nat -> string -> Reply) : Browser :=
  {| location_origin := location_origin B;
     location_href := location_href B;
     document := document B;
     newURL := newURL B;
     fetch := fetch B;
     parseXML := parseXML B;
     parseHTML := parseHTML B;
     sendMessage := reply;
     settleOrder := settleOrder B;
     matchAll := matchAll B;
     crawlTime := crawlTime B;
     reportTime := reportTime B |}.

(** The six heading selectors and the two list selectors. *)
Definition headingSelectors : list Dom.selector :=
  List.map (fun t => Dom.Simple (Dom.Tag t)) ["h1"; "h2"; "h3"; "h4"; "h5"; "h6"].

Definition listSelectors : list Dom.selector :=
  [Dom.Simple (Dom.Tag "ul"); Dom.Simple (Dom.Tag "ol")].





(** The numbers of the links for which a trace has a request, in order. *)
Definition issuedNumbers (t : list Event) : list nat :=
  List.flat_map (fun e => match e with FetchIssued k _ => [k] | _ => [] end) t.

(** The methods, with another [checkRobotsTxt]. *)
Definition withCheckRobotsTxt (M : Methods)
    (f : string -> result (list Link.t)) : Methods :=
  {| analyzeCurrentPage := analyzeCurrentPage M;
     checkRobotsTxt := f;
     generateCommonSupportUrls := generateCommonSupportUrls M;
     getLinkLocation := getLinkLocation M;
     extractTables := extractTables M;
     extractForms := extractForms M;
     extractMetadata := extractMetadata M;
     identifyContentSections := identifyContentSections M;
     extractPolicies := extractPolicies M;
     extractProcedures := extractProcedures M;
     extractActionableFromPage := extractActionableFromPage M |}.

(** Structured data as [processAndStructureContent] builds it: every
    category once, every group with at least one page, every page in the
    group of its own category. *)
Definition grouped (structured : Structured) : Prop :=
  List.NoDup (List.map fst structured)
  /\ Forall (fun group : Category * list Processed.t =>
               snd group <> []
               /\ Forall (fun page => Processed.type page = fst group) (snd group))
       structured.

(** All pages of the structured data, category by category. *)
Definition pagesOf (structured : Structured) : list Processed.t :=
  List.concat (List.map snd structured).

(** An event that is not a fetch settled with [crawledUrls.add]. *)
Definition nothingAdded (e : Event) : Prop :=
  match e with
  | FetchSettled _ _ added => added = false
  | _ => True
  end.

(** ** The message listener of the content script *)

Inductive MessageData : Type :=
| DeepData (result : AnalysisResult)
| PageData (data : JsValue).

(** What [sendResponse] is called with. *)
Inductive ListenerReply : Type :=
| Success (data : MessageData)    (* [{success: true, data}] *)
| Failure (error : string).       (* [{success: false, error}] *)

Section Listener.

Context (B : Browser) (M : Methods).

(** [chrome.runtime.onMessage.addListener((request, sender, sendResponse) => ...)]
    for the analyzer [enhancedAnalyzer]: the reply, if one is sent, and the
    analyzer afterwards.  [None] for the run as in [performDeepAnalysis]. *)
Definition onMessage (enhancedAnalyzer : Analyzer) (action : string)
  : option (option ListenerReply * Analyzer) :=
  if String.eqb action "performDeepAnalysis"
  then
    match performDeepAnalysis B M enhancedAnalyzer with
    | None => None
    | Some run =>
        Some (match answer run with
              | Fulfilled data => Some (Success (DeepData data))
              | Rejected error => Some (Failure (message error))
              | Pending => None
              end, after run)
    end
  else if String.eqb action "analyzeWebsite"
  then
    Some (match analyzeCurrentPage M with
          | Ok data => Some (Success (PageData data))
          | Throw error => Some (Failure (message error))
          end, enhancedAnalyzer)
  else Some (None, enhancedAnalyzer).

End Listener.

(** ** The background service *)

Module Background.

Inductive Value : Type :=
| Str (s : string)
| Num (n : Z)
| Other (json : string).

(** An object that is stored or sent: its properties in order. *)
Definition Object : Type := JsObject.t Value.

(** [chrome.storage.local], which keeps what it is given. *)
Abbreviation Storage := (gmap string Object).

Fixpoint get (k : string) (o : Object) : option Value :=
  match o with
  | [] => None
  | (k', v) :: o' => if String.eqb k' k then Some v else get k o'
  end.

(** A property written by an object literal: replaced where it stands, or
    added at the end (for a key that is no array index). *)
Definition define (k : string) (v : Value) (o : Object) : Object :=
  if JsObject.has k o then JsObject.replace k v o else (o ++ [(k, v)])%list.

Record Request := mkRequest {
  action : string;
  data : option Object;     (* [request.data] *)
  domain : option string;   (* [request.domain] *)
  url : option string       (* [request.url] *)
}.

Inductive Response : Type :=
| TabInfo (tab : Value)           (* [{success: true, tab}] *)
| Stored                          (* [{success: true}] *)
| Found (data : Object)           (* [{success: true, data}] *)
| NotFound                        (* [{success: false, message: 'No knowledge base found'}] *)
| Failed (error : string)         (* [{success: false, error}] *)
| UnknownAction.                  (* [{error: 'Unknown action'}] *)

(** What the service asks of the browser: the host name of a value given
    to the URL constructor ([None] is undefined), the clock, and the
    active tab. *)
Record Chrome := {
  hostnameOf : option Value -> result string;   (* new URL(v).hostname *)
  now : Z;                                       (* Date.now() *)
  activeTab : result Value                       (* chrome.tabs.query(...)[0] *)
}.

(** The requests the service knows. *)
Definition storeRequest (d : Object) : Request :=
  mkRequest "storeKnowledgeBase" (Some d) None None.

Definition getRequest (domain : option string) : Request :=
  mkRequest "getKnowledgeBase" None domain None.

Definition tabInfoRequest : Request :=
  mkRequest "getTabInfo" None None None.

(** A template literal with a value that may be undefined. *)
Definition interpolate (s : option string) : string :=
  match s with
  | Some x => x
  | None => "undefined"
  end.

Section Service.

Context (C : Chrome).

Definition getTabInfo (st : Storage) : Response * Storage :=
  match activeTab C with
  | Ok tab => (TabInfo tab, st)
  | Throw error => (Failed (message error), st)
  end.

Definition storeKnowledgeBase (data : option Object) (st : Storage)
  : Response * Storage :=
  match data with
  | None => (Failed "Cannot read properties of undefined (reading 'url')", st)
  | Some d =>
      match hostnameOf C (get "url" d) with
      | Throw error => (Failed (message error), st)
      | Ok domain =>
          let key := "knowledge_" ++ domain in
          let stored := define "version" (Str "1.0") (define "timestamp" (Num (now C)) d) in
          (Stored, <[key := stored]> st)
      end
  end.

Definition getKnowledgeBase (domain : option string) (st : Storage)
  : Response * Storage :=
  let key := "knowledge_" ++ interpolate domain in
  match st !! key with
  | Some data => (Found data, st)
  | None => (NotFound, st)
  end.

(** [handleMessage]: the reply given to [sendResponse] and the storage
    afterwards. *)
Definition handleMessage (request : Request) (st : Storage) : Response * Storage :=
  if String.eqb (action request) "getTabInfo" then getTabInfo st
  else if String.eqb (action request) "storeKnowledgeBase"
       then storeKnowledgeBase (data request) st
  else if String.eqb (action request) "getKnowledgeBase"
       then getKnowledgeBase (domain request) st
  else (UnknownAction, st).

(** The [chrome.tabs.onUpdated] listener with [handleTabUpdate]: a tab
    that has finished loading and has a URL is recorded. *)
Definition onTabUpdated (status : option string) (tabUrl : option string)
    (title : option string) (st : Storage) : Storage :=
  match status, tabUrl with
  | Some s, Some (String c u) =>
      if String.eqb s "complete"
      then <["currentTab" :=
               ([("url", Str (String c u))]
                ++ match title with Some t => [("title", Str t)] | None => [] end
                ++ [("timestamp", Num (now C))])%list]> st
      else st
  | _, _ => st
  end.

(** The request [crawlSinglePage] sends, and what its callback makes of
    the reply of the service: [response.success] decides, [response.html]
    and [response.error] are read. *)
Definition fetchPageContent (pageUrl : string) : Request :=
  mkRequest "fetchPageContent" None None (Some pageUrl).

Definition asReply (r : Response) : Reply :=
  match r with
  | TabInfo _ | Stored | Found _ => ReplySuccess "undefined"
  | NotFound => ReplyFailure None
  | Failed error => ReplyFailure (Some error)
  | UnknownAction => ReplyFailure (Some "Unknown action")
  end.

Definition replies (st : Storage) : nat -> string -> Reply :=
  fun _ pageUrl => asReply (fst (handleMessage (fetchPageContent pageUrl) st)).

End Service.

End Background.

(** ** The popup *)

Module Popup.

(** The [keywords] table of [processQuestion]. *)
Definition keywords : list (string * list string) :=
  [("cancel", ["cancel"; "cancellation"; "unsubscribe"; "stop"]);
   ("refund", ["refund"; "money back"; "return"; "reimburse"]);
   ("contact", ["contact"; "support"; "help"; "phone"; "email"]);
   ("billing", ["billing"; "payment"; "charge"; "invoice"; "cost"])].

(** The loop of [processQuestion]: [category] starts as 'general'; the
    first entry with a word in the question sets it and breaks. *)
Fixpoint firstMatch (questionLower : string) (entries : list (string * list string))
  : string :=
  match entries with
  | [] => "general"
  | (cat, words) :: rest =>
      if existsb (fun word => includes questionLower word) words
      then cat
      else firstMatch questionLower rest
  end.

Definition questionCategory (question : string) : string :=
  firstMatch (toLowerCase question) keywords.

(** The five answers of [generateResponse], as the texts they are for the
    current domain.  The texts of the source have characters outside the
    range of [string] and are taken as given. *)
Record Responses := {
  cancel : string; refund : string; contact : string;
  billing : string; general : string
}.

(** [responses[category] || responses.general] for a category of
    [processQuestion]. *)
Definition generateResponse (R : Responses) (category : string) : string :=
  let found :=
    if String.eqb category "cancel" then Some (cancel R)
    else if String.eqb category "refund" then Some (refund R)
    else if String.eqb category "contact" then Some (contact R)
    else if String.eqb category "billing" then Some (billing R)
    else if String.eqb category "general" then Some (general R)
    else None in
  orElse found (general R).

Definition processQuestion (R : Responses) (question : string) : string :=
  generateResponse R (questionCategory question).

(** [message.replace(/\n/g, '<br>')] *)
Fixpoint replaceNewlines (message : string) : string :=
  match message with
  | EmptyString => EmptyString
  | String c rest =>
      if Ascii.eqb c (ascii_of_nat 10)
      then "<br>" ++ replaceNewlines rest
      else String c (replaceNewlines rest)
  end.

(** The part of the popup page the functions touch: the input field, the
    chat container with the class and the markup of each message, and the
    [display] of the loading mark. *)
Record Page := mkPage {
  userInput : string;
  chatContainer : list (string * string);
  loading : string
}.

Definition addMessage (message type : string) (page : Page) : Page :=
  mkPage (userInput page)
    (chatContainer page ++ [(("message " ++ type ++ "-message")%string, replaceNewlines message)])%list
    (loading page).

Definition handleUserInput (R : Responses) (page : Page) : Page :=
  let question := trim (userInput page) in
  match question with
  | EmptyString => page
  | _ =>
      let page := mkPage "" (chatContainer page) (loading page) in
      let page := addMessage question "user" page in
      let page := mkPage (userInput page) (chatContainer page) "block" in
      let answer := processQuestion R question in
      let page := addMessage answer "bot" page in
      mkPage (userInput page) (chatContainer page) "none"
  end.

Definition askQuestion (R : Responses) (question : string) (page : Page) : Page :=
  handleUserInput R (mkPage question (chatContainer page) (loading page)).

Definition handleKeyPress (R : Responses) (key : string) (page : Page) : Page :=
  if String.eqb key "Enter" then handleUserInput R page else page.

End Popup.

(** A background service and texts for the examples. *)
Module MoreExamples.

Definition chrome : Background.Chrome :=
  {| Background.hostnameOf := fun v =>
       match v with
       | Some (Background.Str "https://example.com/help") => Ok "example.com"
       | _ => Throw Example.invalidUrl
       end;
     Background.now := 1700000000000;
     Background.activeTab := Ok (Background.Other "{}") |}.

Definition knowledge : Background.Object :=
  [("url", Background.Str "https://example.com/help");
   ("timestamp", Background.Num 1);
   ("sections", Background.Other "[]")].

Definition faqPage : Page.t :=
  Page.mk "https://example.com/faq" Faq
    (Content.mk "FAQ" [] [] [] "[]" "[]" (Content.mkContactInfo [] [] []) "{}")
    (Page.mkMetadata "2024-01-01T00:00:00.000Z" (Some "FAQ") "navigation").

Definition refundPage : Page.t :=
  Page.mk "https://example.com/refund" Refund
    (Content.mk "Refunds" [] [] [] "[]" "[]" (Content.mkContactInfo [] [] []) "{}")
    (Page.mkMetadata "2024-01-01T00:00:01.000Z" None "sitemap").

Definition crawled : JsObject.t Page.t :=
  [("https://example.com/faq", faqPage);
   ("https://example.com/refund", refundPage);
   ("https://example.com/faq?lang=en", faqPage)].

Definition texts : Popup.Responses :=
  {| Popup.cancel := "cancellation steps";
     Popup.refund := "refund policies";
     Popup.contact := "ways to contact support";
     Popup.billing := "billing steps";
     Popup.general := "what I can help with" |}.

End MoreExamples.

(** The line feed, and the strings without one. *)
Definition lineFeed : ascii := ascii_of_nat 10.

Definition singleLine (s : string) : Prop := ~ In lineFeed (list_ascii_of_string s).

(** * Properties *)

(** ** Strings *)

Lemma prefix_app (p rest : string) : String.prefix p (p ++ rest) = true.
Proof.
  induction p as [|c p IH]; simpl.
  - now destruct rest.
  - destruct (ascii_dec c c) as [_|n]; [exact IH | now destruct n].
Qed.

Lemma startsWith_app (p rest : string) : startsWith (p ++ rest) p = true.
Proof. apply prefix_app. Qed.

Lemma includes_here (s k : string) : String.prefix k s = true -> includes s k = true.
Proof. intros H. destruct s; simpl in *; rewrite H; reflexivity. Qed.

Lemma includes_later (c : ascii) (s k : string) :
  includes s k = true -> includes (String c s) k = true.
Proof. intros H. cbn [includes]. rewrite H. apply orb_true_r. Qed.

Lemma includes_app_l (pre s k : string) :
  includes s k = true -> includes (pre ++ s) k = true.
Proof.
  intros H. induction pre as [|c pre IH]; simpl append.
  - exact H.
  - now apply includes_later.
Qed.

Lemma includes_app_here (pre k rest : string) : includes (pre ++ k ++ rest) k = true.
Proof. apply includes_app_l, includes_here, prefix_app. Qed.

Lemma toLowerCase_app (a b : string) :
  toLowerCase (a ++ b) = toLowerCase a ++ toLowerCase b.
Proof. induction a as [|c a IH]; simpl; [reflexivity | now rewrite IH]. Qed.

(** ** URL resolution *)

Lemma resolveUrl_absolute (B : Browser) (rest : string) :
  resolveUrl B ("http" ++ rest) = Ok ("http" ++ rest).
Proof. unfold resolveUrl. now rewrite startsWith_app. Qed.

Lemma resolveUrl_root_relative (B : Browser) (rest : string) :
  resolveUrl B ("/" ++ rest) = Ok (location_origin B ++ "/" ++ rest).
Proof.
  unfold resolveUrl.
  replace (startsWith ("/" ++ rest) "http") with false by reflexivity.
  now rewrite startsWith_app.
Qed.

Lemma resolveUrl_relative (B : Browser) (url : string) :
  startsWith url "http" = false -> startsWith url "/" = false ->
  resolveUrl B url = newURL B url (location_href B).
Proof. intros H1 H2. unfold resolveUrl. now rewrite H1, H2. Qed.

(** C10. Every href that starts with the four characters "http" is
    returned as it is, whatever the URL constructor of the browser would
    make of it: the constructor is not asked.  So "httpfoo/bar", which is
    no URL, comes back unchanged, neither resolved against the current
    page (as the constructor of the example browser would) nor rejected. *)
Theorem resolveUrl_http_unvalidated (B : Browser) :
  (forall rest : string, resolveUrl B ("http" ++ rest) = Ok ("http" ++ rest))
  /\ resolveUrl B "httpfoo/bar" = Ok "httpfoo/bar"
  /\ newURL Example.shop "httpfoo/bar" (location_href Example.shop)
     = Ok "https://example.com/shop/httpfoo/bar".
Proof.
  split; [apply resolveUrl_absolute|].
  split; [apply (resolveUrl_absolute B "foo/bar") | reflexivity].
Qed.

(** ** The navigation scan *)

Section NavigationScan.

Context (B : Browser) (M : Methods) (this : Analyzer).

Lemma scanAnchors_app (before rest : list Dom.located) (k : nat) (links : list Link.t) :
  scanAnchors B M this k (before ++ rest) links
  = bind (scanAnchors B M this k before links)
         (fun links' => scanAnchors B M this (k + length before) rest links').
Proof.
  revert k links. induction before as [|link before IH]; intros k links; simpl.
  - now rewrite Nat.add_0_r.
  - destruct (resolveUrl B _) as [url|e]; simpl; [|reflexivity].
    destruct (isSupportRelated url _).
    + destruct (getLinkLocation M link) as [loc|e]; simpl; [|reflexivity].
      rewrite IH. now rewrite Nat.add_succ_comm.
    + rewrite IH. now rewrite Nat.add_succ_comm.
Qed.

Lemma scanAnchors_throws (link : Dom.located) (rest : list Dom.located)
    (k : nat) (links : list Link.t) (e : Error) :
  resolveUrl B (hrefOf link) = Throw e ->
  scanAnchors B M this k (link :: rest) links = Throw e.
Proof. intros H. simpl. now rewrite H. Qed.

Lemma findNavigationLinks_throws (before rest : list Dom.located)
    (link : Dom.located) (links : list Link.t) (e : Error) :
  Dom.querySelectorAll anchorsWithHref (document B)
    = (before ++ link :: rest)%list ->
  scanAnchors B M this 0 before [] = Ok links ->
  resolveUrl B (hrefOf link) = Throw e ->
  findNavigationLinks B M this = Throw e.
Proof.
  intros Hall Hbefore Hbad. unfold findNavigationLinks.
  rewrite Hall, scanAnchors_app, Hbefore. simpl bind.
  now apply scanAnchors_throws.
Qed.

End NavigationScan.

(** C6, as the code has it.  An href that starts with "http" is returned
    unchanged, one that starts with "/" is returned behind the origin, and
    any other is handed to the URL constructor with the address of the
    current page as its base.  When the constructor throws, so does
    [resolveUrl], and [findNavigationLinks] has no handler: the scan stops
    at that anchor and throws the same error, whatever anchors follow. *)
Theorem resolveUrl_rules_and_uncaught_failure (B : Browser) (M : Methods) (this : Analyzer) :
  (forall rest : string, resolveUrl B ("http" ++ rest) = Ok ("http" ++ rest))
  /\ (forall rest : string,
        resolveUrl B ("/" ++ rest) = Ok (location_origin B ++ "/" ++ rest))
  /\ (forall url : string,
        startsWith url "http" = false -> startsWith url "/" = false ->
        resolveUrl B url = newURL B url (location_href B))
  /\ (forall (before rest : list Dom.located) (link : Dom.located)
             (links : list Link.t) (e : Error),
        Dom.querySelectorAll anchorsWithHref (document B)
          = (before ++ link :: rest)%list ->
        scanAnchors B M this 0 before [] = Ok links ->
        resolveUrl B (hrefOf link) = Throw e ->
        findNavigationLinks B M this = Throw e).
Proof.
  split; [apply resolveUrl_absolute|].
  split; [apply resolveUrl_root_relative|].
  split; [apply resolveUrl_relative|].
  intros before rest link links e. apply findNavigationLinks_throws.
Qed.

Lemma resolveUrl_rules_and_uncaught_failure_witness :
  findNavigationLinks Example.shopWithBadLink Example.methods constructor
  = Throw Example.invalidUrl.
Proof.
  apply (proj2 (proj2 (proj2
           (resolveUrl_rules_and_uncaught_failure
              Example.shopWithBadLink Example.methods constructor)))
           []
           [([Dom.Element "nav" [] [Example.anchor "/faq" "FAQ"];
              Dom.Element "body" []
                [Example.anchor "HTTP://" "Help";
                 Dom.Element "nav" [] [Example.anchor "/faq" "FAQ"]];
              Dom.Element "html" []
                [Dom.Element "head" [] [Dom.Element "title" [] [Dom.TextNode "Example"]];
                 Dom.Element "body" []
                   [Example.anchor "HTTP://" "Help";
                    Dom.Element "nav" [] [Example.anchor "/faq" "FAQ"]]]],
             Example.anchor "/faq" "FAQ")]
           ([Dom.Element "body" []
                [Example.anchor "HTTP://" "Help";
                 Dom.Element "nav" [] [Example.anchor "/faq" "FAQ"]];
              Dom.Element "html" []
                [Dom.Element "head" [] [Dom.Element "title" [] [Dom.TextNode "Example"]];
                 Dom.Element "body" []
                   [Example.anchor "HTTP://" "Help";
                    Dom.Element "nav" [] [Example.anchor "/faq" "FAQ"]]]],
            Example.anchor "HTTP://" "Help")
           [] Example.invalidUrl); reflexivity.
Defined.

(** C6, as the specification has it, fails on the page of the example with
    the anchor [<a href="HTTP://">Help</a>] before its FAQ link: resolving
    that href throws, and the scan does not skip it and go on to the FAQ
    link, it throws. *)
Lemma malformed_href_is_not_skipped :
  resolveUrl Example.shopWithBadLink "HTTP://" = Throw Example.invalidUrl
  /\ findNavigationLinks Example.shopWithBadLink Example.methods constructor
     = Throw Example.invalidUrl
  /\ (forall links : list Link.t,
        findNavigationLinks Example.shopWithBadLink Example.methods constructor
        <> Ok links).
Proof.
  split; [reflexivity|]. split; [reflexivity|].
  intros links H. vm_compute in H. discriminate H.
Qed.

(** ** Classification *)

Lemma firstCategory_faq (combined : string) :
  includes combined "faq" = true ->
  firstCategory combined (contentTypes constructor) = Faq.
Proof. intros H. simpl. now rewrite H. Qed.

Lemma faq_link_is_faq (this : Analyzer) (origin : string) :
  contentTypes this = contentTypes constructor ->
  isSupportRelated (origin ++ "/faq") "faq" = true
  /\ categorizeLink this (origin ++ "/faq") "faq" = Faq.
Proof.
  intros Hct.
  assert (H : includes (toLowerCase ((origin ++ "/faq") ++ " " ++ "faq")) "faq" = true).
  { rewrite toLowerCase_app. apply includes_app_l. reflexivity. }
  split.
  - unfold isSupportRelated. cbn [supportKeywords existsb]. rewrite H.
    now rewrite !orb_true_r.
  - unfold categorizeLink. rewrite Hct. now apply firstCategory_faq.
Qed.

(** ** Sets of link objects *)

Lemma Producer_eqb_eq (a b : Producer) : Producer_eqb a b = true <-> a = b.
Proof. destruct a, b; simpl; split; congruence. Qed.

Lemma ObjId_eqb_eq (a b : ObjId) : ObjId_eqb a b = true <-> a = b.
Proof.
  destruct a as [p n], b as [q m]. unfold ObjId_eqb. simpl.
  rewrite andb_true_iff, Producer_eqb_eq, Nat.eqb_eq.
  split; [intros [-> ->]; reflexivity | intros H; injection H; auto].
Qed.

Lemma setAdd_cases (links : list Link.t) (x : Link.t) :
  setAdd links x = links \/ setAdd links x = (links ++ [x])%list.
Proof. unfold setAdd. destruct (existsb _ links); auto. Qed.

Lemma setAdd_fresh (links : list Link.t) (x : Link.t) :
  (forall l, In l links -> Link.oid l <> Link.oid x) ->
  setAdd links x = (links ++ [x])%list.
Proof.
  intros Hfresh. unfold setAdd.
  destruct (existsb _ links) eqn:E; [|reflexivity].
  apply existsb_exists in E as (l & Hin & Heq).
  apply ObjId_eqb_eq in Heq. now destruct (Hfresh l Hin).
Qed.

Lemma addAll_keeps (found links : list Link.t) :
  exists extra, addAll links found = (links ++ extra)%list /\ incl extra found.
Proof.
  revert links. induction found as [|x found IH]; intros links.
  - exists []. split; [now rewrite app_nil_r | easy].
  - unfold addAll in *. simpl.
    destruct (setAdd_cases links x) as [-> | ->].
    + destruct (IH links) as (extra & -> & Hincl).
      exists extra. split; [reflexivity | now apply incl_tl].
    + destruct (IH (links ++ [x])%list) as (extra & -> & Hincl).
      exists (x :: extra). split; [now rewrite <- app_assoc|].
      apply incl_cons; [now left | now apply incl_tl].
Qed.

Lemma addAll_old (found links : list Link.t) (l : Link.t) :
  In l links -> In l (addAll links found).
Proof.
  intros H. destruct (addAll_keeps found links) as (extra & -> & _).
  apply in_or_app. now left.
Qed.

Lemma addAll_from (found links : list Link.t) (l : Link.t) :
  In l (addAll links found) -> In l links \/ In l found.
Proof.
  destruct (addAll_keeps found links) as (extra & -> & Hincl).
  intros H. apply in_app_or in H as [H|H]; auto.
Qed.

Lemma addAll_fresh (found links : list Link.t) :
  List.NoDup (List.map Link.oid found) ->
  (forall x l, In x found -> In l links -> Link.oid l <> Link.oid x) ->
  addAll links found = (links ++ found)%list.
Proof.
  revert links. induction found as [|x found IH]; intros links Hnd Hfresh.
  - now rewrite app_nil_r.
  - unfold addAll in *. simpl. inversion Hnd as [|? ? Hx Hnd']; subst.
    rewrite setAdd_fresh by (intros l Hl; apply (Hfresh x l); [now left | exact Hl]).
    rewrite IH; [now rewrite <- app_assoc | exact Hnd' |].
    intros y l Hy Hl. apply in_app_or in Hl as [Hl | [<- | []]].
    + apply Hfresh; [now right | exact Hl].
    + intros Heq. apply Hx. rewrite Heq. now apply in_map.
Qed.

(** ** What the scans produce *)

Section ScanFacts.

Context (B : Browser) (M : Methods) (this : Analyzer).

Lemma scanAnchors_makers (allLinks : list Dom.located) (k : nat)
    (links found : list Link.t) :
  Forall (fun l => maker (Link.oid l) = Navigation) links ->
  scanAnchors B M this k allLinks links = Ok found ->
  Forall (fun l => maker (Link.oid l) = Navigation) found.
Proof.
  revert k links. induction allLinks as [|link rest IH]; intros k links Hall; simpl.
  - intros H. now inversion H; subst.
  - destruct (resolveUrl B _) as [url|e]; simpl; [|discriminate].
    destruct (isSupportRelated url _).
    + destruct (getLinkLocation M link) as [loc|e]; simpl; [|discriminate].
      apply IH. apply Forall_app. split; [exact Hall|]. now constructor.
    + now apply IH.
Qed.

Lemma scanAnchors_old (allLinks : list Dom.located) (k : nat)
    (links found : list Link.t) (l : Link.t) :
  scanAnchors B M this k allLinks links = Ok found -> In l links -> In l found.
Proof.
  revert k links. induction allLinks as [|link rest IH]; intros k links; simpl.
  - intros H. now inversion H; subst.
  - destruct (resolveUrl B _) as [url|e]; simpl; [|discriminate].
    destruct (isSupportRelated url _).
    + destruct (getLinkLocation M link) as [loc|e]; simpl; [|discriminate].
      intros H Hin. apply (IH _ _ H). apply in_or_app. now left.
    + apply IH.
Qed.

(** A support-related anchor of a scan that returns has its link in the
    result, with the URL, text and category the scan computed. *)
Lemma scanAnchors_pushes (allLinks : list Dom.located) (k : nat)
    (links found : list Link.t) (link : Dom.located) (url : string) :
  In link allLinks ->
  resolveUrl B (hrefOf link) = Ok url ->
  isSupportRelated url (trim (toLowerCase (Dom.textContent (snd link)))) = true ->
  scanAnchors B M this k allLinks links = Ok found ->
  exists l, In l found
    /\ Link.url l = url
    /\ Link.text l = Some (trim (toLowerCase (Dom.textContent (snd link))))
    /\ Link.type l
       = categorizeLink this url (trim (toLowerCase (Dom.textContent (snd link)))).
Proof.
  revert k links. induction allLinks as [|a rest IH]; intros k links Hin Hurl Hrel;
    [destruct Hin|].
  destruct Hin as [-> | Hin].
  - simpl. rewrite Hurl. simpl. rewrite Hrel.
    destruct (getLinkLocation M link) as [loc|e]; simpl; [|discriminate].
    intros H. eexists. split.
    + apply (scanAnchors_old _ _ _ _ _ H). apply in_or_app. right. now left.
    + simpl. auto.
  - simpl. destruct (resolveUrl B (hrefOf a)) as [u|e]; simpl; [|discriminate].
    destruct (isSupportRelated u _).
    + destruct (getLinkLocation M a) as [loc|e]; simpl; [|discriminate].
      now apply IH.
    + now apply IH.
Qed.

Lemma pushSitemapUrl_numbered (links : list Link.t) (e : Dom.located) :
  numbered links -> numbered (pushSitemapUrl this links e).
Proof.
  unfold numbered, pushSitemapUrl. intros H.
  destruct (isSupportRelated _ _); [|exact H].
  rewrite List.map_app, length_app, Nat.add_comm. simpl length.
  rewrite seq_S, List.map_app, H. reflexivity.
Qed.

Lemma fold_numbered {A} (f : list Link.t -> A -> list Link.t) (l : list A)
    (links : list Link.t) :
  (forall ls a, numbered ls -> numbered (f ls a)) ->
  numbered links -> numbered (fold_left f l links).
Proof.
  intros Hf. revert links. induction l as [|a l IH]; intros links H; simpl; auto.
Qed.

Lemma readSitemap_numbered (links : list Link.t) (sitemapUrl : string) :
  numbered links -> numbered (readSitemap B this links sitemapUrl).
Proof.
  intros H. unfold readSitemap.
  destruct (fetch B sitemapUrl) as [e|[|] [text|e]]; try exact H.
  apply fold_numbered; [apply pushSitemapUrl_numbered | exact H].
Qed.

Lemma numbered_NoDup (links : list Link.t) :
  numbered links -> List.NoDup (List.map Link.oid links).
Proof.
  unfold numbered. intros ->. apply Stdlib.Lists.Finite.Injective_map_NoDup.
  - intros a b H. now injection H.
  - apply seq_NoDup.
Qed.

Lemma numbered_maker (links : list Link.t) (l : Link.t) :
  numbered links -> In l links -> maker (Link.oid l) = Sitemap.
Proof.
  unfold numbered. intros H Hin.
  apply (in_map Link.oid) in Hin. rewrite H in Hin.
  apply in_map_iff in Hin as (n & <- & _). reflexivity.
Qed.

Lemma pushSitemapUrl_old (links : list Link.t) (e : Dom.located) (l : Link.t) :
  In l links -> In l (pushSitemapUrl this links e).
Proof.
  unfold pushSitemapUrl. intros H. destruct (isSupportRelated _ _); [|exact H].
  apply in_or_app. now left.
Qed.

Lemma fold_pushSitemapUrl_old (urls : list Dom.located) (links : list Link.t)
    (l : Link.t) :
  In l links -> In l (fold_left (pushSitemapUrl this) urls links).
Proof.
  revert links. induction urls as [|e urls IH]; intros links H; simpl; [exact H|].
  apply IH. now apply pushSitemapUrl_old.
Qed.

Lemma readSitemap_old (links : list Link.t) (sitemapUrl : string) (l : Link.t) :
  In l links -> In l (readSitemap B this links sitemapUrl).
Proof.
  intros H. unfold readSitemap.
  destruct (fetch B sitemapUrl) as [e|[|] [text|e]]; try exact H.
  now apply fold_pushSitemapUrl_old.
Qed.

Lemma fold_pushSitemapUrl_pushes (urls : list Dom.located) (links : list Link.t)
    (e : Dom.located) :
  In e urls ->
  isSupportRelated (Dom.textContent (snd e)) "" = true ->
  exists l, In l (fold_left (pushSitemapUrl this) urls links)
    /\ Link.url l = Dom.textContent (snd e)
    /\ Link.source l = Some "sitemap"
    /\ Link.type l = categorizeLink this (Dom.textContent (snd e)) "".
Proof.
  revert links. induction urls as [|a urls IH]; intros links Hin Hrel; [destruct Hin|].
  destruct Hin as [-> | Hin]; [|now apply IH].
  simpl. eexists. split.
  - apply fold_pushSitemapUrl_old. unfold pushSitemapUrl. rewrite Hrel.
    apply in_or_app. right. now left.
  - simpl. auto.
Qed.

End ScanFacts.

(** ** Discovery *)

Section DiscoveryFacts.

Context (B : Browser) (M : Methods) (this : Analyzer).

Lemma sitemapLinksOf_numbered : numbered (sitemapLinksOf B this).
Proof.
  unfold sitemapLinksOf. apply fold_numbered.
  - intros ls a. apply readSitemap_numbered.
  - reflexivity.
Qed.

(** When the navigation scan and the generated source return, discovery
    returns: the navigation links first, then every sitemap link, each as
    an object of its own, then what the last two sources add. *)
Lemma discoverSupportLinks_returns (nav gen : list Link.t) :
  findNavigationLinks B M this = Ok nav ->
  generateCommonSupportUrls M (location_origin B) = Ok gen ->
  exists extra,
    discoverSupportLinks B M this
    = Fulfilled (addAll [] nav ++ sitemapLinksOf B this ++ extra)%list.
Proof.
  intros Hnav Hgen. unfold discoverSupportLinks.
  rewrite Hnav, Hgen. cbn [settle await tryAwait checkSitemap].
  fold (sitemapLinksOf B this).
  assert (Hsm : addAll (addAll [] nav) (sitemapLinksOf B this)
                = (addAll [] nav ++ sitemapLinksOf B this)%list).
  { apply addAll_fresh.
    - apply numbered_NoDup, sitemapLinksOf_numbered.
    - intros x l Hx Hl Heq.
      apply (numbered_maker _ _ sitemapLinksOf_numbered) in Hx.
      apply addAll_from in Hl as [[] | Hl].
      assert (Hn : Forall (fun l => maker (Link.oid l) = Navigation) nav).
      { unfold findNavigationLinks in Hnav.
        eapply scanAnchors_makers; [|exact Hnav]. constructor. }
      rewrite Forall_forall in Hn. apply list_elem_of_In in Hl.
      specialize (Hn l Hl). simpl in Hn. congruence. }
  rewrite Hsm.
  destruct (checkRobotsTxt M (location_origin B)) as [robots|e]; cbn [settle tryAwait await].
  - destruct (addAll_keeps (List.map (Link.madeBy Robots) robots)
                (addAll [] nav ++ sitemapLinksOf B this)%list) as (e1 & -> & _).
    destruct (addAll_keeps (List.map (Link.madeBy Generated) gen)
                ((addAll [] nav ++ sitemapLinksOf B this) ++ e1)%list) as (e2 & -> & _).
    exists (e1 ++ e2)%list. now rewrite <- !app_assoc.
  - destruct (addAll_keeps (List.map (Link.madeBy Generated) gen)
                (addAll [] nav ++ sitemapLinksOf B this)%list) as (e2 & -> & _).
    exists e2. now rewrite <- !app_assoc.
Qed.

End DiscoveryFacts.

(** C3, as the code has it.  An anchor with href "/faq" and text "FAQ" gets
    a link of category faq.  An entry
    [<loc>https://example.com/refund-policy</loc>] of a sitemap that was
    fetched gets, when the navigation scan and the generated source
    return, a link in the discovered sequence whose source is sitemap and
    whose category is policy: the keywords of policy are tried before
    those of refund, and "policy" occurs in the URL. *)
Theorem faq_anchor_and_sitemap_entry (B : Browser) (M : Methods) (this : Analyzer) :
  contentTypes this = contentTypes constructor ->
  (forall (anchor : Dom.located) (nav : list Link.t),
     In anchor (Dom.querySelectorAll anchorsWithHref (document B)) ->
     hrefOf anchor = "/faq" ->
     Dom.textContent (snd anchor) = "FAQ" ->
     findNavigationLinks B M this = Ok nav ->
     exists faq, In faq nav
       /\ Link.url faq = location_origin B ++ "/faq"
       /\ Link.type faq = Faq)
  /\ (forall (text : string) (loc : Dom.located) (nav gen : list Link.t),
        fetch B (location_origin B ++ "/sitemap.xml") = FetchResponse true (Ok text) ->
        In loc (Dom.querySelectorAll sitemapLocs (parseXML B text)) ->
        Dom.textContent (snd loc) = "https://example.com/refund-policy" ->
        findNavigationLinks B M this = Ok nav ->
        generateCommonSupportUrls M (location_origin B) = Ok gen ->
        exists links entry,
          discoverSupportLinks B M this = Fulfilled links
          /\ In entry links
          /\ Link.url entry = "https://example.com/refund-policy"
          /\ Link.source entry = Some "sitemap"
          /\ Link.type entry = Policy).
Proof.
  intros Hct. split.
  - intros anchor nav Hin Hhref Htext Hnav.
    destruct (faq_link_is_faq this (location_origin B) Hct) as [Hrel Hcat].
    destruct (scanAnchors_pushes B M this
                (Dom.querySelectorAll anchorsWithHref (document B)) 0 [] nav anchor
                (location_origin B ++ "/faq"))
      as (l & Hl & Hurl & _ & Htype).
    + exact Hin.
    + rewrite Hhref. apply (resolveUrl_root_relative B "faq").
    + rewrite Htext. exact Hrel.
    + exact Hnav.
    + exists l. rewrite Htext in Htype. split; [exact Hl|]. split; [exact Hurl|].
      rewrite Htype. exact Hcat.
  - intros text loc nav gen Hfetch Hloc Htext Hnav Hgen.
    destruct (discoverSupportLinks_returns B M this nav gen Hnav Hgen) as (extra & ->).
    destruct (fold_pushSitemapUrl_pushes this
                (Dom.querySelectorAll sitemapLocs (parseXML B text)) [] loc Hloc)
      as (l & Hl & Hurl & Hsrc & Htype).
    { rewrite Htext. reflexivity. }
    exists (addAll [] nav ++ sitemapLinksOf B this ++ extra)%list, l.
    split; [reflexivity|]. split.
    + apply in_or_app. right. apply in_or_app. left.
      unfold sitemapLinksOf. cbn [fold_left]. apply readSitemap_old.
      unfold readSitemap at 1. rewrite Hfetch. exact Hl.
    + rewrite Hurl, Htype, Htext. split; [reflexivity|]. split; [exact Hsrc|].
      unfold categorizeLink. rewrite Hct. reflexivity.
Qed.

Lemma faq_anchor_and_sitemap_entry_witness :
  (exists faq, In faq [Link.mk (mkObjId Navigation 0) "https://example.com/faq"
                         (Some "faq") None Faq (Some "body")]
     /\ Link.url faq = "https://example.com/faq" /\ Link.type faq = Faq)
  /\ (exists links entry,
        discoverSupportLinks Example.shop Example.methods constructor = Fulfilled links
        /\ In entry links
        /\ Link.url entry = "https://example.com/refund-policy"
        /\ Link.source entry = Some "sitemap"
        /\ Link.type entry = Policy).
Proof.
  destruct (faq_anchor_and_sitemap_entry Example.shop Example.methods constructor eq_refl)
    as [Hfaq Hentry].
  split.
  - apply (Hfaq (List.hd ([], Dom.TextNode "")
                   (Dom.querySelectorAll anchorsWithHref (document Example.shop))));
      try reflexivity.
    vm_compute. left. reflexivity.
  - apply (Hentry Example.sitemapText
             (List.nth 1 (Dom.querySelectorAll sitemapLocs
                            (parseXML Example.shop Example.sitemapText))
                ([], Dom.TextNode ""))
             [Link.mk (mkObjId Navigation 0) "https://example.com/faq"
                (Some "faq") None Faq (Some "body")]
             (Example.generated "https://example.com"));
      try reflexivity.
    vm_compute. right. left. reflexivity.
Defined.

(** C3, as the specification has it, fails on the example site, whose
    sitemap lists https://example.com/refund-policy: the only discovered
    link for that URL has category policy, not refund. *)
Lemma refund_policy_entry_is_policy :
  categorizeLink constructor "https://example.com/refund-policy" "" = Policy
  /\ exists links,
       discoverSupportLinks Example.shop Example.methods constructor = Fulfilled links
       /\ List.filter
            (fun l => String.eqb (Link.url l) "https://example.com/refund-policy") links
          = [Link.mk (mkObjId Sitemap 1) "https://example.com/refund-policy" None
               (Some "sitemap") Policy None].
Proof.
  split; [reflexivity|]. eexists. split; reflexivity.
Qed.

(** C1 on the example site, whose page links to /faq and whose sitemap
    lists the same address: the discovered sequence has three links for
    https://example.com/faq, one from each of the navigation scan, the
    sitemap and the generated candidates.  The [Set] holds objects, and
    two objects with the same [url] are two members. *)
Theorem discovery_keeps_one_link_per_source :
  exists links,
    discoverSupportLinks Example.shop Example.methods constructor = Fulfilled links
    /\ List.map Link.oid
         (List.filter (fun l => String.eqb (Link.url l) "https://example.com/faq") links)
       = [mkObjId Navigation 0; mkObjId Sitemap 0; mkObjId Generated 2].
Proof. eexists. split; reflexivity. Qed.

(** ** Paragraph extraction *)





(** ** Traces *)

Lemma disciplined_le (n : nat) (seen : gset string) (t : list Event) :
  disciplined n seen t -> (n <= 3)%nat.
Proof. destruct t; simpl; tauto. Qed.

Lemma inFlight_cons (e : Event) (t : list Event) :
  inFlight (e :: t)
  = (inFlight t + (if isIssue e then 1 else 0) - (if isSettle e then 1 else 0))%Z.
Proof.
  unfold inFlight. simpl. destruct (isIssue e), (isSettle e); simpl length; lia.
Qed.

(** What [disciplined] says of every instant of the trace. *)
Lemma disciplined_prefix (pre post : list Event) (n : nat) (seen : gset string) :
  disciplined n seen (pre ++ post) ->
  (0 <= Z.of_nat n + inFlight pre <= 3)%Z
  /\ (forall k url rest, post = FetchIssued k url :: rest ->
        url ∉ crawledUrlsAfter seen pre).
Proof.
  revert n seen. induction pre as [|e pre IH]; intros n seen H.
  - split.
    + apply disciplined_le in H. unfold inFlight. simpl. lia.
    + intros k url rest ->. simpl in H. cbn. tauto.
  - rewrite inFlight_cons. simpl app in H.
    destruct e as [batch|k url|k url added| |ms]; simpl in H;
      destruct H as [Hn H]; cbn [isIssue isSettle crawledUrlsAfter fold_left].
    + destruct (IH _ _ H) as [H1 H2]. split; [lia | exact H2].
    + destruct H as [_ H]. destruct (IH _ _ H) as [H1 H2]. split; [lia | exact H2].
    + destruct H as [Hpos H]. destruct (IH _ _ H) as [H1 H2]. split; [lia | exact H2].
    + destruct (IH _ _ H) as [H1 H2]. split; [lia | exact H2].
    + destruct (IH _ _ H) as [H1 H2]. split; [lia | exact H2].
Qed.

Lemma disciplined_issue (requests : list (nat * string)) (t : list Event)
    (n : nat) (seen : gset string) (B : Browser) (M : Methods) :
  (forall r, In r requests -> snd r ∉ seen) ->
  disciplined (n + length requests) seen t ->
  disciplined n seen (List.map issueEvent requests ++ t).
Proof.
  revert n. induction requests as [|r requests IH]; intros n Hnew Ht; simpl.
  - now rewrite Nat.add_0_r in Ht.
  - simpl length in Ht. rewrite Nat.add_succ_r in Ht.
    assert (Hrest : disciplined (S n) seen (List.map issueEvent requests ++ t)).
    { apply IH; [|exact Ht]. intros r' Hr'. apply Hnew. now right. }
    clear Ht.
    split; [apply disciplined_le in Hrest; lia|].
    split; [apply Hnew; now left | exact Hrest].
Qed.

Lemma disciplined_settle (B : Browser) (M : Methods) (answered : list (nat * string))
    (t : list Event) (n : nat) (seen : gset string) :
  (length answered <= n <= 3)%nat ->
  disciplined (n - length answered) (fold_left (settleRequest B M) answered seen) t ->
  disciplined n seen (List.map (settleEvent B M) answered ++ t).
Proof.
  revert n seen. induction answered as [|r answered IH]; intros n seen Hn Ht; simpl.
  - now rewrite Nat.sub_0_r in Ht.
  - simpl in Hn, Ht. split; [lia|]. split; [lia|].
    apply IH; [lia|].
    replace (n - 1 - length answered)%nat with (n - S (length answered))%nat by lia.
    exact Ht.
Qed.

Lemma crawledUrlsAfter_app (t1 t2 : list Event) (seen : gset string) :
  crawledUrlsAfter seen (t1 ++ t2) = crawledUrlsAfter (crawledUrlsAfter seen t1) t2.
Proof. apply fold_left_app. Qed.

Lemma crawledUrlsAfter_issue (requests : list (nat * string)) (seen : gset string) :
  crawledUrlsAfter seen (List.map issueEvent requests) = seen.
Proof. induction requests as [|r requests IH]; simpl; auto. Qed.

Lemma crawledUrlsAfter_settle (B : Browser) (M : Methods)
    (answered : list (nat * string)) (seen : gset string) :
  crawledUrlsAfter seen (List.map (settleEvent B M) answered)
  = fold_left (settleRequest B M) answered seen.
Proof.
  revert seen. induction answered as [|r answered IH]; intros seen; simpl; [reflexivity|].
  unfold crawledUrlsAfter in IH. rewrite <- IH. reflexivity.
Qed.

(** ** A batch *)

Section BatchFacts.

Context (B : Browser) (M : Methods).

Lemma jobsOf_length (i : nat) (batch : list Link.t) :
  length (jobsOf i batch) = length batch.
Proof. unfold jobsOf. rewrite length_combine, length_seq. lia. Qed.

Lemma requestsOf_length (seen : gset string) (jobs : list Job) :
  (length (requestsOf seen jobs) <= length jobs)%nat.
Proof. unfold requestsOf. rewrite length_map. apply List.filter_length_le. Qed.

Lemma requestsOf_in (seen : gset string) (jobs : list Job) (r : nat * string) :
  In r (requestsOf seen jobs) <->
  exists job, In job jobs /\ r = (fst job, Link.url (snd job)) /\ snd r ∉ seen.
Proof.
  unfold requestsOf. rewrite in_map_iff. split.
  - intros (job & <- & Hin). apply List.filter_In in Hin as [Hin Hnew].
    exists job. repeat split; [exact Hin|]. simpl.
    apply negb_true_iff, bool_decide_eq_false in Hnew. exact Hnew.
  - intros (job & Hin & -> & Hnew). exists job. split; [reflexivity|].
    apply List.filter_In. split; [exact Hin|].
    apply negb_true_iff, bool_decide_eq_false. exact Hnew.
Qed.

Lemma promiseAll_fulfilled {A} (ps : list (completion A)) (l : list A) :
  promiseAll ps = Fulfilled l -> ps = List.map Fulfilled l.
Proof.
  revert l. induction ps as [|p ps IH]; intros l; simpl.
  - intros H. now inversion H.
  - destruct p as [a|e|]; [|discriminate|destruct (promiseAll ps); discriminate].
    destruct (promiseAll ps) as [l'|e|]; try discriminate.
    intros H. inversion H; subst. simpl. now rewrite (IH l').
Qed.

Lemma promiseAll_settled {A} (ps : list (completion A)) :
  Forall (fun p => isFulfilled p = true) ps ->
  exists l, promiseAll ps = Fulfilled l.
Proof.
  induction 1 as [|p ps Hp _ (l & IH)]; simpl; [now exists []|].
  destruct p as [a|e|]; try discriminate. rewrite IH. now exists (a :: l).
Qed.

Lemma crawlJob_fulfilled (seen : gset string) (job : Job) :
  isFulfilled (crawlJob B M seen job)
  = bool_decide (Link.url (snd job) ∈ seen)
    || negb (isPending (crawlSinglePage B M (fst job) (Link.url (snd job)))).
Proof.
  destruct job as [k linkInfo]. unfold crawlJob. simpl fst. simpl snd.
  destruct (bool_decide _); [reflexivity|].
  now destruct (crawlSinglePage B M k (Link.url linkInfo)).
Qed.

(** When [Promise.all] resolves, every request of the batch was answered. *)
Lemma awaited_all_answered (seen : gset string) (jobs : list Job)
    (results : list (option Page.t)) :
  promiseAll (List.map (crawlJob B M seen) jobs) = Fulfilled results ->
  List.filter (fun r => negb (isPending (outcomeOf B M r))) (requestsOf seen jobs)
  = requestsOf seen jobs.
Proof.
  intros Hall. apply promiseAll_fulfilled in Hall.
  apply forallb_filter_id, forallb_forall. intros r Hr.
  apply requestsOf_in in Hr as (job & Hjob & -> & Hnew). simpl in Hnew.
  assert (Hf : isFulfilled (crawlJob B M seen job) = true).
  { apply (in_map (crawlJob B M seen)) in Hjob. rewrite Hall in Hjob.
    apply in_map_iff in Hjob as (x & <- & _). reflexivity. }
  rewrite crawlJob_fulfilled in Hf.
  rewrite (bool_decide_eq_false_2 _ Hnew) in Hf. exact Hf.
Qed.

Lemma runBatch_answered_length (i : nat) (batch : list Link.t) (seen : gset string) :
  answersEach B ->
  (length (settleOrder B
             (List.filter (fun r => negb (isPending (outcomeOf B M r)))
                (requestsOf seen (jobsOf i batch))))
   <= length (requestsOf seen (jobsOf i batch)) <= length batch)%nat.
Proof.
  intros Hperm. rewrite (Permutation_length (Hperm _)). split.
  - apply List.filter_length_le.
  - rewrite <- (jobsOf_length i batch). apply requestsOf_length.
Qed.

Lemma runBatch_seen (i : nat) (batch : list Link.t) (seen : gset string) :
  batchSeen (runBatch B M i batch seen)
  = crawledUrlsAfter seen (batchEvents (runBatch B M i batch seen)).
Proof.
  unfold runBatch. cbn [batchSeen batchEvents].
  rewrite !crawledUrlsAfter_app, crawledUrlsAfter_issue, crawledUrlsAfter_settle.
  now destruct (isFulfilled _).
Qed.

(** The events of a batch of at most three links keep the rules; after a
    batch that is awaited no fetch is in flight. *)
Lemma runBatch_disciplined (i : nat) (batch : list Link.t) (seen : gset string)
    (t : list Event) :
  answersEach B ->
  (length batch <= 3)%nat ->
  (match batchResults (runBatch B M i batch seen) with
   | Fulfilled _ => disciplined 0 (batchSeen (runBatch B M i batch seen)) t
   | _ => t = []
   end) ->
  disciplined 0 seen (batchEvents (runBatch B M i batch seen) ++ t).
Proof.
  intros Hperm Hlen Ht.
  pose proof (runBatch_answered_length i batch seen Hperm) as Hans.
  revert Ht. unfold runBatch. cbn [batchResults batchSeen batchEvents].
  set (jobs := jobsOf i batch) in *.
  set (requests := requestsOf seen jobs) in *.
  set (pending := List.filter _ requests) in *.
  set (answered := settleOrder B pending) in *.
  intros Ht. rewrite <- !app_assoc.
  apply (disciplined_issue requests _ 0 seen B M).
  { intros r Hr. apply requestsOf_in in Hr as (_ & _ & _ & Hnew). exact Hnew. }
  apply disciplined_settle; [simpl; lia|].
  destruct (promiseAll (List.map (crawlJob B M seen) jobs)) as [results|e|] eqn:Hall;
    cbn [isFulfilled app].
  - assert (Hsame : length answered = length requests).
    { unfold answered. rewrite (Permutation_length (Hperm _)).
      unfold pending, requests.
      now rewrite (awaited_all_answered seen jobs results Hall). }
    simpl. rewrite Hsame, Nat.sub_diag. split; [lia | exact Ht].
  - subst t. simpl. lia.
  - subst t. simpl. lia.
Qed.

End BatchFacts.

(** ** The crawl loop *)

Section LoopFacts.

Context (B : Browser) (M : Methods) (supportLinks : list Link.t).

Lemma slice_is_chunk {A} (l : list A) (i : nat) :
  slice l i (i + maxConcurrent) = firstn 3 (skipn i l).
Proof. unfold slice, maxConcurrent. now replace (i + 3 - i)%nat with 3%nat by lia. Qed.

Lemma slice_length {A} (l : list A) (i : nat) :
  (length (slice l i (i + maxConcurrent)) <= 3)%nat.
Proof. rewrite slice_is_chunk, length_firstn. apply Nat.le_min_l. Qed.

(** The loop ends by its own test when it is given enough turns. *)
Lemma crawlFrom_returns (fuel i : nat) (crawledContent : JsObject.t Page.t)
    (seen : gset string) :
  (length supportLinks - i < fuel)%nat ->
  exists run, crawlFrom B M fuel supportLinks i crawledContent seen = Some run.
Proof.
  revert i crawledContent seen.
  induction fuel as [|fuel IH]; intros i crawledContent seen Hfuel; [lia|].
  cbn [crawlFrom]. destruct (i <? length supportLinks)%nat eqn:Hi; [|eauto].
  apply Nat.ltb_lt in Hi.
  destruct (batchResults _) as [results|e|]; eauto.
  edestruct (IH (i + maxConcurrent)%nat) as (run & ->); [unfold maxConcurrent; lia|].
  eauto.
Qed.

Lemma crawlFrom_disciplined (fuel i : nat) (crawledContent : JsObject.t Page.t)
    (seen : gset string) (run : CrawlRun) :
  answersEach B ->
  crawlFrom B M fuel supportLinks i crawledContent seen = Some run ->
  disciplined 0 seen (trace run)
  /\ visited run = crawledUrlsAfter seen (trace run).
Proof.
  intros Hperm. revert i crawledContent seen run.
  induction fuel as [|fuel IH]; intros i crawledContent seen run; [discriminate|].
  cbn [crawlFrom]. destruct (i <? length supportLinks)%nat.
  2:{ intros H. inversion H; subst. simpl. split; [lia | reflexivity]. }
  set (batch := slice supportLinks i (i + maxConcurrent)).
  pose proof (runBatch_disciplined B M i batch seen) as Hbatch.
  pose proof (runBatch_seen B M i batch seen) as Hseen.
  assert (Hlen : (length batch <= 3)%nat) by apply slice_length.
  destruct (batchResults (runBatch B M i batch seen)) as [results|e|] eqn:Hres.
  - destruct (crawlFrom B M fuel supportLinks (i + maxConcurrent) _ _) as [rest|] eqn:Hrest;
      [|discriminate].
    intros H. inversion H; subst. clear H. cbn [trace visited].
    destruct (IH _ _ _ _ Hrest) as [Hd Hv].
    set (pause := if (i + maxConcurrent <? length supportLinks)%nat
                  then [Delay 1000] else []) in *.
    assert (Hpause : disciplined 0 (batchSeen (runBatch B M i batch seen))
                       (pause ++ trace rest)
                     /\ crawledUrlsAfter (batchSeen (runBatch B M i batch seen))
                          (pause ++ trace rest)
                        = crawledUrlsAfter (batchSeen (runBatch B M i batch seen))
                            (trace rest)).
    { unfold pause. destruct (_ <? _)%nat; simpl; [|tauto].
      split; [split; [lia | exact Hd] | reflexivity]. }
    destruct Hpause as [Hd' Hv']. split.
    + split; [lia|]. now apply Hbatch.
    + change (visited rest
              = crawledUrlsAfter seen
                  (batchEvents (runBatch B M i batch seen) ++ pause ++ trace rest)).
      now rewrite crawledUrlsAfter_app, <- Hseen, Hv', Hv.
  - intros H. inversion H; subst. clear H. cbn [trace visited]. split.
    + split; [lia|]. pose proof (Hbatch [] Hperm Hlen eq_refl) as Hb.
      rewrite app_nil_r in Hb. exact Hb.
    + exact Hseen.
  - intros H. inversion H; subst. clear H. cbn [trace visited]. split.
    + split; [lia|]. pose proof (Hbatch [] Hperm Hlen eq_refl) as Hb.
      rewrite app_nil_r in Hb. exact Hb.
    + exact Hseen.
Qed.

End LoopFacts.

(** C4. In every run of [crawlSupportPages], at every instant (after any
    prefix of the events of the run) at most three fetches are in flight,
    and a fetch is issued only for a URL that is not in [this.crawledUrls]
    at that instant, whatever links the sequence repeats.  The set at an
    instant is the one the run has built: at the end it is the set the
    analyzer holds. *)
Theorem crawl_keeps_fetch_discipline (B : Browser) (M : Methods) (this : Analyzer)
    (supportLinks : list Link.t) :
  answersEach B ->
  exists run,
    crawlSupportPages B M this supportLinks = Some run
    /\ visited run = crawledUrlsAfter (crawledUrls this) (trace run)
    /\ forall pre post : list Event,
         trace run = (pre ++ post)%list ->
         (0 <= inFlight pre <= 3)%Z
         /\ forall k url rest,
              post = FetchIssued k url :: rest ->
              url ∉ crawledUrlsAfter (crawledUrls this) pre.
Proof.
  intros Hperm. unfold crawlSupportPages.
  destruct (crawlFrom_returns B M supportLinks (S (length supportLinks)) 0 []
              (crawledUrls this)) as (run & Hrun); [lia|].
  exists run. split; [exact Hrun|].
  destruct (crawlFrom_disciplined B M supportLinks _ _ _ _ run Hperm Hrun) as [Hd Hv].
  split; [exact Hv|].
  intros pre post Hsplit. rewrite Hsplit in Hd.
  destruct (disciplined_prefix pre post 0 (crawledUrls this) Hd) as [H1 H2].
  split; [lia | exact H2].
Qed.

Lemma example_answersEach (doc : Dom.Document) (locs : list string)
    (replies : nat -> string -> Reply) :
  answersEach (Example.browser doc locs replies).
Proof. intros requests. apply Permutation_sym, Permutation_rev. Qed.

Lemma crawl_keeps_fetch_discipline_witness :
  exists run,
    crawlSupportPages Example.shop Example.methods constructor Example.fiveLinks
    = Some run
    /\ visited run = crawledUrlsAfter (crawledUrls constructor) (trace run)
    /\ forall pre post : list Event,
         trace run = (pre ++ post)%list ->
         (0 <= inFlight pre <= 3)%Z
         /\ forall k url rest,
              post = FetchIssued k url :: rest ->
              url ∉ crawledUrlsAfter (crawledUrls constructor) pre.
Proof.
  apply (crawl_keeps_fetch_discipline Example.shop Example.methods constructor
           Example.fiveLinks).
  apply example_answersEach.
Defined.

(** Two links of one batch with the same address are both fetched: when
    the second request is sent, the first has not yet put the address into
    the set. *)
Example twins_are_both_fetched :
  option_map (fun run => List.filter isIssue (trace run))
    (crawlSupportPages Example.shop Example.methods constructor Example.twins)
  = Some [FetchIssued 0 "https://example.com/a-help";
          FetchIssued 1 "https://example.com/a-help"].
Proof. reflexivity. Qed.

(** When the removal of the unwanted elements takes the body away, the
    extraction throws inside the reply callback and the page promise stays
    pending; the run stops at its first [Promise.all]. *)
Example removed_body_leaves_promise_pending :
  extractContentFromHtml Example.sidebarSite Example.methods "Our refund policy"
  = Throw (mkError "Cannot read properties of null (reading 'textContent')")
  /\ crawlSinglePage Example.sidebarSite Example.methods 0 "https://example.com/a-help"
     = Pending
  /\ option_map returned
       (crawlSupportPages Example.sidebarSite Example.methods constructor
          Example.fiveLinks)
     = Some Pending.
Proof. repeat split; reflexivity. Qed.

(** ** Failed fetches *)

Section FailureFacts.

Context (B : Browser) (M : Methods).


Lemma fold_settleRequest_old (answered : list (nat * string)) (seen : gset string)
    (url : string) :
  url ∈ seen -> url ∈ fold_left (settleRequest B M) answered seen.
Proof.
  revert seen. induction answered as [|r answered IH]; intros seen H; simpl; [exact H|].
  apply IH. unfold settleRequest. destruct (isFulfilled _); set_solver.
Qed.


Lemma jobsOf_in (i k : nat) (batch : list Link.t) (linkInfo : Link.t) :
  In (k, linkInfo) (jobsOf i batch) ->
  (i <= k)%nat /\ nth_error batch (k - i) = Some linkInfo.
Proof.
  unfold jobsOf. revert i. induction batch as [|l batch IH]; intros i; simpl; [tauto|].
  intros [H | H].
  - inversion H; subst. rewrite Nat.sub_diag. auto.
  - apply IH in H as [Hle Hnth]. split; [lia|].
    replace (k - i)%nat with (S (k - S i))%nat by lia. exact Hnth.
Qed.

Lemma slice_nth {A} (l : list A) (i j : nat) (a : A) :
  nth_error (slice l i (i + maxConcurrent)) j = Some a -> nth_error l (i + j) = Some a.
Proof.
  rewrite slice_is_chunk. intros H.
  destruct (Nat.lt_ge_cases j 3) as [Hj | Hj].
  - rewrite nth_error_firstn in H.
    destruct (j <? 3)%nat eqn:E; [|apply Nat.ltb_ge in E; lia].
    now rewrite nth_error_skipn in H.
  - assert (Hnone : nth_error (firstn 3 (skipn i l)) j = None).
    { apply nth_error_None. rewrite length_firstn. lia. }
    congruence.
Qed.

Lemma batch_job_is_link (supportLinks : list Link.t) (i k : nat) (linkInfo : Link.t) :
  In (k, linkInfo) (jobsOf i (slice supportLinks i (i + maxConcurrent))) ->
  nth_error supportLinks k = Some linkInfo.
Proof.
  intros H. apply jobsOf_in in H as [Hle Hnth]. apply slice_nth in Hnth.
  now replace (i + (k - i))%nat with k in Hnth by lia.
Qed.

End FailureFacts.

(** ** The aggregated content *)

Lemma replace_keys {V} (k : string) (v : V) (o : JsObject.t V) :
  JsObject.keys (JsObject.replace k v o) = JsObject.keys o.
Proof.
  induction o as [|[k' v'] o IH]; simpl; [reflexivity|].
  destruct (String.eqb k' k); simpl; [reflexivity | now f_equal].
Qed.

Lemma insertIndex_keys {V} (n : N) (k : string) (v : V) (o : JsObject.t V) (u : string) :
  In u (JsObject.keys (JsObject.insertIndex n k v o)) -> u = k \/ In u (JsObject.keys o).
Proof.
  induction o as [|[k' v'] o IH]; simpl.
  - intros [H | []]. now left.
  - destruct (JsObject.arrayIndex k') as [m|].
    + destruct (m <? n)%N; simpl.
      * intros [H | H]; [now right; left|]. apply IH in H as [H|H]; auto.
      * intros [H | H]; [now left | now right].
    + simpl. intros [H | H]; [now left | now right].
Qed.

Lemma assign_keys {V} (k : string) (v : V) (o : JsObject.t V) (u : string) :
  In u (JsObject.keys (JsObject.assign k v o)) -> u = k \/ In u (JsObject.keys o).
Proof.
  unfold JsObject.assign. destruct (String.eqb k "__proto__"); [now right|].
  destruct (JsObject.has k o).
  - rewrite replace_keys. now right.
  - destruct (JsObject.arrayIndex k) as [n|].
    + apply insertIndex_keys.
    + unfold JsObject.keys. rewrite List.map_app. intros H.
      apply in_app_or in H as [H | [H | []]]; [now right | now left].
Qed.

Section ContentFacts.

Context (B : Browser) (M : Methods).

Lemma storeResults_keys (batchResults : list (option Page.t))
    (crawledContent : JsObject.t Page.t) (u : string) :
  In u (JsObject.keys (storeResults batchResults crawledContent)) ->
  In u (JsObject.keys crawledContent)
  \/ exists page, In (Some page) batchResults /\ Page.url page = u.
Proof.
  revert crawledContent.
  induction batchResults as [|result rest IH]; intros crawledContent H; [now left|].
  simpl in H. apply IH in H as [H | (page & Hin & Hu)].
  - destruct result as [page|]; [|now left].
    apply assign_keys in H as [H | H]; [|now left].
    right. exists page. split; [now left | now symmetry].
  - right. exists page. split; [now right | exact Hu].
Qed.

Lemma crawlJob_page (seen : gset string) (job : Job) (page : Page.t) :
  crawlJob B M seen job = Fulfilled (Some page) ->
  Page.url page = Link.url (snd job)
  /\ isFulfilled (crawlSinglePage B M (fst job) (Link.url (snd job))) = true.
Proof.
  destruct job as [k linkInfo]. unfold crawlJob. simpl.
  destruct (bool_decide _); [discriminate|].
  destruct (crawlSinglePage B M k (Link.url linkInfo)); simpl; try discriminate.
  intros H. inversion H; subst. auto.
Qed.


End ContentFacts.




(** ** Batches and pauses *)

Lemma skipn_nil_iff {A} (l : list A) (j : nat) :
  skipn j l = [] <-> (length l <= j)%nat.
Proof.
  split.
  - intros H. pose proof (length_skipn j l) as Hlen. rewrite H in Hlen. simpl in Hlen. lia.
  - apply skipn_all2.
Qed.

Lemma chunksFrom_nil_iff {A} (fuel : nat) (l : list A) :
  (length l <= fuel)%nat -> chunksFrom fuel l = [] <-> l = [].
Proof.
  intros Hfuel. destruct fuel as [|fuel], l as [|a l]; simpl in *; try tauto; try lia.
  split; discriminate.
Qed.



Lemma chunksFrom_enough {A} (fuel fuel' : nat) (l : list A) :
  (length l <= fuel)%nat -> (length l <= fuel')%nat ->
  chunksFrom fuel l = chunksFrom fuel' l.
Proof.
  revert fuel' l. induction fuel as [|fuel IH]; intros fuel' l H H'.
  - destruct l; [now destruct fuel' | simpl in H; lia].
  - destruct l as [|a l]; [now destruct fuel'|].
    destruct fuel' as [|fuel']; [simpl in H'; lia|].
    change (firstn 3 (a :: l) :: chunksFrom fuel (skipn 3 (a :: l))
            = firstn 3 (a :: l) :: chunksFrom fuel' (skipn 3 (a :: l))).
    f_equal. apply IH; rewrite length_skipn; simpl in *; lia.
Qed.

Lemma pacing_app (t1 t2 : list Event) : pacing (t1 ++ t2) = (pacing t1 ++ pacing t2)%list.
Proof. apply List.filter_app. Qed.

Section PacingFacts.

Context (B : Browser) (M : Methods).

Lemma pacing_batchEvents (i : nat) (batch : list Link.t) (seen : gset string) :
  pacing (batchEvents (runBatch B M i batch seen)) = [].
Proof.
  unfold runBatch. cbn [batchEvents]. rewrite !pacing_app.
  assert (H1 : forall l, pacing (List.map issueEvent l) = []).
  { induction l; simpl; auto. }
  assert (H2 : forall l, pacing (List.map (settleEvent B M) l) = []).
  { induction l; simpl; auto. }
  rewrite H1, H2. now destruct (isFulfilled _).
Qed.

Lemma runBatch_awaited (i : nat) (batch : list Link.t) (seen : gset string) :
  everyCrawlSettles B M ->
  exists results, batchResults (runBatch B M i batch seen) = Fulfilled results.
Proof.
  intros Hsettle. unfold runBatch. cbn [batchResults].
  apply promiseAll_settled, Forall_forall. intros p Hp.
  apply list_elem_of_In, in_map_iff in Hp as (job & <- & _).
  rewrite crawlJob_fulfilled, Hsettle. apply orb_true_r.
Qed.

Lemma crawlFrom_pacing (supportLinks : list Link.t) (fuel fuel' i : nat)
    (crawledContent : JsObject.t Page.t) (seen : gset string) :
  everyCrawlSettles B M ->
  (length supportLinks - i < fuel)%nat ->
  (length supportLinks - i <= fuel')%nat ->
  exists run content,
    crawlFrom B M fuel supportLinks i crawledContent seen = Some run
    /\ returned run = Fulfilled content
    /\ pacing (trace run) = paced (chunksFrom fuel' (skipn i supportLinks)).
Proof.
  intros Hsettle. revert fuel' i crawledContent seen.
  induction fuel as [|fuel IH]; intros fuel' i crawledContent seen Hfuel Hfuel'; [lia|].
  cbn [crawlFrom]. destruct (i <? length supportLinks)%nat eqn:Hi.
  - apply Nat.ltb_lt in Hi.
    destruct (runBatch_awaited i (slice supportLinks i (i + maxConcurrent)) seen Hsettle)
      as (results & ->).
    destruct fuel' as [|fuel']; [lia|].
    destruct (IH fuel' (i + maxConcurrent)%nat (storeResults results crawledContent)
                (batchSeen (runBatch B M i (slice supportLinks i (i + maxConcurrent)) seen)))
      as (rest & content & -> & Hret & Hpace); [unfold maxConcurrent; lia ..|].
    eexists. exists content. split; [reflexivity|]. split; [exact Hret|].
    cbn [trace]. change (BatchTaken ?b :: ?t) with ([BatchTaken b] ++ t)%list.
    rewrite !pacing_app, pacing_batchEvents, Hpace. cbn [app].
    replace (skipn (i + maxConcurrent) supportLinks)
      with (skipn 3 (skipn i supportLinks))
      by (rewrite skipn_skipn; f_equal; unfold maxConcurrent; lia).
    rewrite slice_is_chunk.
    destruct (skipn i supportLinks) as [|a l] eqn:Hskip.
    { apply skipn_nil_iff in Hskip. lia. }
    change (chunksFrom (S fuel') (a :: l))
      with (firstn 3 (a :: l) :: chunksFrom fuel' (skipn 3 (a :: l))).
    assert (Hlen : length (a :: l) = (length supportLinks - i)%nat).
    { rewrite <- Hskip. apply length_skipn. }
    destruct (i + maxConcurrent <? length supportLinks)%nat eqn:Hmore.
    + apply Nat.ltb_lt in Hmore. unfold maxConcurrent in Hmore.
      destruct (chunksFrom fuel' (skipn 3 (a :: l))) as [|b bs] eqn:Hch; [|reflexivity].
      apply chunksFrom_nil_iff in Hch; [|rewrite length_skipn; lia].
      apply skipn_nil_iff in Hch. lia.
    + apply Nat.ltb_ge in Hmore. unfold maxConcurrent in Hmore.
      assert (Hnil : skipn 3 (a :: l) = []) by (apply skipn_nil_iff; lia).
      rewrite Hnil. now destruct fuel'.
  - apply Nat.ltb_ge in Hi. eexists. exists crawledContent.
    split; [reflexivity|]. split; [reflexivity|].
    assert (Hnil : skipn i supportLinks = []) by (now apply skipn_nil_iff).
    rewrite Hnil. now destruct fuel'.
Qed.


End PacingFacts.


Lemma example_everyCrawlSettles (doc : Dom.Document) (locs : list string)
    (replies : nat -> string -> Reply) :
  everyCrawlSettles (Example.browser doc locs replies) Example.methods.
Proof.
  intros k url. unfold crawlSinglePage. cbn [sendMessage Example.browser].
  destruct (replies k url); reflexivity.
Qed.


Section Containment.

Context (B : Browser) (M : Methods).






End Containment.





(** ** The depth limit *)

Section DepthLimit.

Context (B : Browser) (M : Methods).

Lemma scanAnchors_maxDepth (this : Analyzer) (d : Z) (allLinks : list Dom.located)
    (k : nat) (links : list Link.t) :
  scanAnchors B M (withMaxDepth this d) k allLinks links
  = scanAnchors B M this k allLinks links.
Proof.
  revert k links. induction allLinks as [|link rest IH]; intros k links; simpl;
    [reflexivity|].
  destruct (resolveUrl B (hrefOf link)) as [url|e]; simpl; [|reflexivity].
  destruct (isSupportRelated url _); [|apply IH].
  destruct (getLinkLocation M link) as [location|e]; simpl; [apply IH | reflexivity].
Qed.

Lemma discoverSupportLinks_maxDepth (this : Analyzer) (d : Z) :
  discoverSupportLinks B M (withMaxDepth this d) = discoverSupportLinks B M this.
Proof.
  unfold discoverSupportLinks, findNavigationLinks.
  rewrite scanAnchors_maxDepth. reflexivity.
Qed.

Lemma crawlSupportPages_maxDepth (this : Analyzer) (d : Z) (supportLinks : list Link.t) :
  crawlSupportPages B M (withMaxDepth this d) supportLinks
  = crawlSupportPages B M this supportLinks.
Proof. reflexivity. Qed.

Lemma performDeepAnalysis_maxDepth (this : Analyzer) (d : Z) :
  performDeepAnalysis B M (withMaxDepth this d)
  = option_map (atDepth d) (performDeepAnalysis B M this).
Proof.
  unfold performDeepAnalysis.
  destruct (analyzeCurrentPage M) as [currentPageData|e]; [|reflexivity].
  rewrite discoverSupportLinks_maxDepth.
  destruct (discoverSupportLinks B M this) as [supportLinks|e|]; try reflexivity.
  rewrite crawlSupportPages_maxDepth.
  destruct (crawlSupportPages B M this supportLinks) as [run|]; [|reflexivity].
  destruct (returned run) as [crawledContent|e|]; try reflexivity.
  destruct (processAndStructureContent M crawledContent) as [structuredData|e];
    [|reflexivity].
  destruct (extractActionableInformation M structuredData) as [actionableData|e];
    reflexivity.
Qed.

Lemma performDeepAnalysis_returns (this : Analyzer) :
  exists run, performDeepAnalysis B M this = Some run.
Proof.
  unfold performDeepAnalysis.
  destruct (analyzeCurrentPage M) as [currentPageData|e]; [|eauto].
  destruct (discoverSupportLinks B M this) as [supportLinks|e|]; eauto.
  unfold crawlSupportPages.
  destruct (crawlFrom_returns B M supportLinks (S (length supportLinks)) 0 []
              (crawledUrls this)) as (run & ->); [lia|].
  destruct (returned run) as [crawledContent|e|]; eauto.
  destruct (processAndStructureContent M crawledContent) as [structuredData|e]; eauto.
  destruct (extractActionableInformation M structuredData) as [actionableData|e]; eauto.
Qed.

End DepthLimit.

(** C9. [maxDepth] has no influence: two analyzers that differ only in
    [maxDepth] run the analysis to the same answer, through the same
    events, and end in states that again differ only in [maxDepth], which
    the run leaves as it was. *)
Theorem maxDepth_has_no_influence (B : Browser) (M : Methods) (this : Analyzer)
    (d1 d2 : Z) :
  exists run1 run2,
    performDeepAnalysis B M (withMaxDepth this d1) = Some run1
    /\ performDeepAnalysis B M (withMaxDepth this d2) = Some run2
    /\ answer run1 = answer run2
    /\ crawlTrace run1 = crawlTrace run2
    /\ after run2 = withMaxDepth (after run1) d2
    /\ maxDepth (after run1) = d1
    /\ maxDepth (after run2) = d2.
Proof.
  destruct (performDeepAnalysis_returns B M this) as (run & Hrun).
  exists (atDepth d1 run), (atDepth d2 run).
  rewrite !performDeepAnalysis_maxDepth, Hrun. simpl.
  repeat split; reflexivity.
Qed.

(** * Further properties of the analyzer *)

(** ** What discovery emits *)

Section Relevance.

Context (B : Browser) (M : Methods) (this : Analyzer).




End Relevance.



(** ** Letter case *)

Lemma lowerChar_idempotent (c : ascii) : lowerChar (lowerChar c) = lowerChar c.
Proof. destruct c as [[] [] [] [] [] [] [] []]; reflexivity. Qed.

Lemma toLowerCase_idempotent (s : string) : toLowerCase (toLowerCase s) = toLowerCase s.
Proof.
  induction s as [|c s IH]; simpl; [reflexivity|]. now rewrite lowerChar_idempotent, IH.
Qed.

(** X2. Classification ignores letter case: two URL and text pairs that
    agree after lower-casing are support related alike and get the same
    category; in particular a pair is classified like its lower-case
    form. *)
Theorem classification_ignores_case (this : Analyzer) (url1 url2 text1 text2 : string) :
  toLowerCase url1 = toLowerCase url2 ->
  toLowerCase text1 = toLowerCase text2 ->
  isSupportRelated url1 text1 = isSupportRelated url2 text2
  /\ categorizeLink this url1 text1 = categorizeLink this url2 text2
  /\ isSupportRelated (toLowerCase url1) (toLowerCase text1) = isSupportRelated url1 text1
  /\ categorizeLink this (toLowerCase url1) (toLowerCase text1)
     = categorizeLink this url1 text1.
Proof.
  intros Hu Ht. unfold isSupportRelated, categorizeLink.
  rewrite !toLowerCase_app, !toLowerCase_idempotent, Hu, Ht. auto.
Qed.

Lemma classification_ignores_case_witness :
  isSupportRelated "/Refund-POLICY" "Our Policy" = isSupportRelated "/refund-policy" "our policy"
  /\ categorizeLink constructor "/Refund-POLICY" "Our Policy"
     = categorizeLink constructor "/refund-policy" "our policy".
Proof.
  destruct (classification_ignores_case constructor
              "/Refund-POLICY" "/refund-policy" "Our Policy" "our policy"
              eq_refl eq_refl) as (H1 & H2 & _).
  split; [exact H1 | exact H2].
Defined.

(** ** The document tree *)



Lemma prune_element (p : Dom.node -> bool) (t : string)
    (a : list (string * string)) (cs : list Dom.node) :
  Dom.prune p (Dom.Element t a cs)
  = Dom.Element t a (List.map (Dom.prune p) (List.filter (fun c => negb (p c)) cs)).
Proof.
  simpl. f_equal. induction cs as [|c cs IH]; simpl; [reflexivity|].
  destruct (p c); simpl; [exact IH | now rewrite IH].
Qed.


Lemma matchesSimple_prune (s : Dom.simple) (p : Dom.node -> bool) (n : Dom.node) :
  Dom.matchesSimple s (Dom.prune p n) = Dom.matchesSimple s n.
Proof. destruct n as [d|t a cs]; [reflexivity|]. rewrite prune_element. reflexivity. Qed.







Section CleanedPage.

Context (B : Browser) (M : Methods).


End CleanedPage.


(** ** Headings, lists and contact details *)

Lemma fold_push_map {A B} (f : A -> B) (l : list A) (acc : list B) :
  fold_left (fun acc x => (acc ++ [f x])%list) l acc = (acc ++ List.map f l)%list.
Proof.
  revert acc. induction l as [|x l IH]; intros acc; simpl.
  - now rewrite app_nil_r.
  - now rewrite IH, <- app_assoc.
Qed.

Lemma selected_by_tag (tags : list string) (d : Dom.Document) (e : Dom.located) :
  In e (Dom.querySelectorAll (List.map (fun t => Dom.Simple (Dom.Tag t)) tags) d) ->
  In (Dom.tagName (snd e)) tags.
Proof.
  unfold Dom.querySelectorAll. intros H. apply List.filter_In in H as [_ H].
  apply existsb_exists in H as (sel & Hsel & Hm).
  apply in_map_iff in Hsel as (t & <- & Ht). simpl in Hm.
  destruct (snd e) as [x|t' a cs]; [discriminate|]. simpl in *.
  apply String.eqb_eq in Hm. now subst.
Qed.

(** X4. [extractHeadings] returns one heading for each h1 to h6 element,
    in document order, with the trimmed text of the element; its level is
    the digit of the tag, between 1 and 6, and its id is never the empty
    string. *)
Theorem extractHeadings_levels (doc : Dom.Document) :
  List.map Content.text (extractHeadings doc)
  = List.map (fun h => trim (Dom.textContent (snd h)))
      (Dom.querySelectorAll headingSelectors doc)
  /\ List.map Content.level (extractHeadings doc)
     = List.map (fun h => headingLevel (Dom.tagName (snd h)))
         (Dom.querySelectorAll headingSelectors doc)
  /\ Forall (fun h => (1 <= Content.level h <= 6)%nat /\ Content.id h <> Some "")
       (extractHeadings doc).
Proof.
  unfold extractHeadings. fold headingSelectors.
  rewrite (fold_push_map
             (fun heading : Dom.located =>
                Content.mkHeading (headingLevel (Dom.tagName (snd heading)))
                  (trim (Dom.textContent (snd heading)))
                  (match Dom.getAttribute (snd heading) "id" with
                   | Some (String c r) => Some (String c r)
                   | _ => None
                   end))).
  cbn [app]. rewrite !List.map_map. cbn [Content.text Content.level].
  split; [reflexivity|]. split; [reflexivity|].
  apply List.Forall_forall. intros h Hh.
  apply in_map_iff in Hh as (e & <- & He). cbn [Content.level Content.id]. split.
  - apply selected_by_tag in He. simpl in He.
    destruct He as [<- | [<- | [<- | [<- | [<- | [<- | []]]]]]]; simpl; lia.
  - destruct (Dom.getAttribute (snd e) "id") as [[|c r]|]; discriminate.
Qed.

(** X5. [extractLists] drops the lists without items: every list it
    returns is a "ul" or an "ol" with at least one item, and it returns
    at most one entry for each list element. *)
Theorem extractLists_nonempty (doc : Dom.Document) :
  Forall (fun l => Content.items l <> []
                   /\ (Content.type l = "ul" \/ Content.type l = "ol"))
    (extractLists doc)
  /\ (length (extractLists doc) <= length (Dom.querySelectorAll listSelectors doc))%nat.
Proof.
  unfold extractLists. fold listSelectors.
  assert (Hsel : forall e, In e (Dom.querySelectorAll listSelectors doc) ->
                   Dom.tagName (snd e) = "ul" \/ Dom.tagName (snd e) = "ol").
  { intros e He. apply (selected_by_tag ["ul"; "ol"]) in He.
    destruct He as [<- | [<- | []]]; auto. }
  revert Hsel. generalize (Dom.querySelectorAll listSelectors doc). intros listElements Hsel.
  assert (Hgen : forall lists,
            Forall (fun l => Content.items l <> []
                             /\ (Content.type l = "ul" \/ Content.type l = "ol")) lists ->
            let result :=
              fold_left
                (fun lists list =>
                   let items :=
                     List.map (fun li => trim (Dom.textContent (snd li)))
                       (Dom.querySelectorAllIn [Dom.Simple (Dom.Tag "li")] list) in
                   if (0 <? length items)%nat
                   then (lists ++ [Content.mkListing
                                     (toLowerCase (Dom.tagName (snd list))) items])%list
                   else lists)
                listElements lists in
            Forall (fun l => Content.items l <> []
                             /\ (Content.type l = "ul" \/ Content.type l = "ol")) result
            /\ (length result <= length lists + length listElements)%nat).
  { induction listElements as [|e rest IH]; intros lists Hall; cbv zeta in *; simpl.
    - split; [exact Hall | lia].
    - destruct (0 <? length _)%nat eqn:Hlen.
      + destruct (IH (fun x Hx => Hsel x (or_intror Hx))
                    (lists ++ [Content.mkListing (toLowerCase (Dom.tagName (snd e)))
                                 (List.map (fun li => trim (Dom.textContent (snd li)))
                                    (Dom.querySelectorAllIn [Dom.Simple (Dom.Tag "li")] e))])%list)
          as [H1 H2].
        * apply Forall_app. split; [exact Hall|]. constructor; [|constructor]. simpl. split.
          -- apply Nat.ltb_lt in Hlen. intros Hnil. rewrite Hnil in Hlen. simpl in Hlen. lia.
          -- destruct (Hsel e (or_introl eq_refl)) as [-> | ->]; auto.
        * split; [exact H1|]. rewrite length_app in H2. simpl in H2. simpl. lia.
      + destruct (IH (fun x Hx => Hsel x (or_intror Hx)) lists Hall) as [H1 H2].
        split; [exact H1 | simpl; lia]. }
  destruct (Hgen [] (List.Forall_nil _)) as [H1 H2]. split; [exact H1 | exact H2].
Qed.

Lemma unique_spec (found seen : list string) :
  List.NoDup (unique seen found)
  /\ (forall x, In x (unique seen found) <-> In x found /\ ~ In x seen).
Proof.
  revert seen. induction found as [|y found IH]; intros seen; simpl.
  - split; [constructor | tauto].
  - destruct (existsb (String.eqb y) seen) eqn:Hseen.
    + apply existsb_exists in Hseen as (z & Hz & Heq). apply String.eqb_eq in Heq. subst z.
      destruct (IH seen) as [Hnd Hin]. split; [exact Hnd|].
      intros x. rewrite Hin. split; [tauto|]. intros [[-> | H] Hn]; [contradiction | tauto].
    + assert (Hy : ~ In y seen).
      { intros Hy. apply not_true_iff_false in Hseen. apply Hseen.
        apply existsb_exists. exists y. split; [exact Hy | apply String.eqb_refl]. }
      destruct (IH (y :: seen)) as [Hnd Hin]. split.
      * constructor; [|exact Hnd]. rewrite Hin. simpl. tauto.
      * intros x. simpl. rewrite Hin. simpl. split.
        -- intros [<- | [H1 H2]]; [tauto|]. split; [tauto|]. tauto.
        -- intros [[<- | H1] H2]; [now left|].
           destruct (string_dec y x) as [-> | Hne]; [now left|]. right. tauto.
Qed.

(** X6. [extractContactInfo] throws when the document has no body, even
    if its text holds addresses.  Otherwise it returns: the e-mail
    addresses and the phone numbers the patterns find in the text of the
    body, each once, and the trimmed texts of the address and location
    elements that are longer than 10. *)
Theorem extractContactInfo_deduplicates (B : Browser) (doc : Dom.Document) :
  (Dom.body doc = None -> exists e, extractContactInfo B doc = Throw e)
  /\ (forall b,
        Dom.body doc = Some b ->
        exists info,
          extractContactInfo B doc = Ok info
          /\ List.NoDup (Content.emails info)
          /\ List.NoDup (Content.phones info)
          /\ (forall x, In x (Content.emails info)
                        <-> In x (matchAll B emailRegex (Dom.textContent b)))
          /\ (forall x, In x (Content.phones info)
                        <-> In x (matchAll B phoneRegex (Dom.textContent b)))
          /\ Forall (fun a => (10 < String.length a)%nat) (Content.addresses info)).
Proof.
  unfold extractContactInfo. split.
  - intros ->. eauto.
  - intros b ->. eexists. split; [reflexivity|]. cbn [Content.emails Content.phones Content.addresses].
    split; [apply unique_spec|]. split; [apply unique_spec|].
    split; [intros x; rewrite (proj2 (unique_spec _ [])); simpl; tauto|].
    split; [intros x; rewrite (proj2 (unique_spec _ [])); simpl; tauto|].
    apply List.Forall_forall. intros a Ha. apply List.filter_In in Ha as [_ Ha].
    now apply Nat.ltb_lt.
Qed.

Lemma extractContactInfo_deduplicates_witness :
  (exists e, extractContactInfo Example.shop None = Throw e)
  /\ exists info,
       extractContactInfo Example.shop Example.article = Ok info
       /\ List.NoDup (Content.emails info)
       /\ List.NoDup (Content.phones info).
Proof.
  split.
  - apply (proj1 (extractContactInfo_deduplicates Example.shop None)). reflexivity.
  - destruct (proj2 (extractContactInfo_deduplicates Example.shop Example.article)
                _ eq_refl) as (info & Hinfo & Hemails & Hphones & _).
    exists info. split; [exact Hinfo|]. split; [exact Hemails | exact Hphones].
Defined.

(** ** The content and the visited set *)

Lemma has_false_not_key {V} (k : string) (o : JsObject.t V) :
  JsObject.has k o = false -> ~ In k (JsObject.keys o).
Proof.
  unfold JsObject.has, JsObject.keys. intros H Hin.
  apply in_map_iff in Hin as ([k' v] & Hk & Hin). simpl in Hk. subst k'.
  apply not_true_iff_false in H. apply H. apply existsb_exists.
  exists (k, v). split; [exact Hin | apply String.eqb_refl].
Qed.

Lemma insertIndex_keys_NoDup {V} (n : N) (k : string) (v : V) (o : JsObject.t V) :
  ~ In k (JsObject.keys o) -> List.NoDup (JsObject.keys o) ->
  List.NoDup (JsObject.keys (JsObject.insertIndex n k v o)).
Proof.
  induction o as [|[k' v'] o IH]; simpl; intros Hk Hnd.
  - constructor; [tauto | constructor].
  - assert (Hcons : List.NoDup (k :: k' :: JsObject.keys o)) by (constructor; simpl; tauto).
    destruct (JsObject.arrayIndex k') as [m|]; [|exact Hcons].
    destruct (m <? n)%N; [|exact Hcons].
    simpl. inversion Hnd as [|? ? Hk' Hnd']; subst. constructor.
    + intros Hin. apply insertIndex_keys in Hin as [-> | Hin]; tauto.
    + apply IH; tauto.
Qed.

Lemma assign_keys_NoDup {V} (k : string) (v : V) (o : JsObject.t V) :
  List.NoDup (JsObject.keys o) -> List.NoDup (JsObject.keys (JsObject.assign k v o)).
Proof.
  intros Hnd. unfold JsObject.assign. destruct (String.eqb k "__proto__"); [exact Hnd|].
  destruct (JsObject.has k o) eqn:Hhas; [now rewrite replace_keys|].
  apply has_false_not_key in Hhas.
  destruct (JsObject.arrayIndex k) as [n|].
  - now apply insertIndex_keys_NoDup.
  - unfold JsObject.keys in *. rewrite List.map_app. simpl.
    apply List.NoDup_app; [exact Hnd | constructor; [tauto | constructor] |].
    intros x Hx [<- | []]. contradiction.
Qed.

Lemma storeResults_keys_NoDup (batchResults : list (option Page.t))
    (crawledContent : JsObject.t Page.t) :
  List.NoDup (JsObject.keys crawledContent) ->
  List.NoDup (JsObject.keys (storeResults batchResults crawledContent)).
Proof.
  revert crawledContent. induction batchResults as [|r rest IH]; intros c Hnd; simpl;
    [exact Hnd|].
  apply IH. destruct r as [page|]; [now apply assign_keys_NoDup | exact Hnd].
Qed.

Lemma NoDup_within_set (l : list string) (X : gset string) :
  List.NoDup l -> (forall x, In x l -> x ∈ X) -> (length l <= size X)%nat.
Proof.
  intros Hnd Hin.
  assert (Hnd' : base.NoDup l) by (now apply NoDup_ListNoDup).
  rewrite <- (size_list_to_set (C := gset string) l Hnd').
  apply subseteq_size. intros x Hx. apply elem_of_list_to_set in Hx.
  apply Hin. now apply list_elem_of_In.
Qed.

Section ContentInvariant.

Context (B : Browser) (M : Methods).

(** A job whose promise is fulfilled with a page has its URL added to the
    set when the batch settles. *)
Lemma fulfilled_job_is_marked (i : nat) (batch : list Link.t) (seen : gset string)
    (job : Job) (page : Page.t) :
  answersEach B ->
  In job (jobsOf i batch) ->
  crawlJob B M seen job = Fulfilled (Some page) ->
  Page.url page ∈ batchSeen (runBatch B M i batch seen)
  /\ Page.url page ∉ seen.
Proof.
  intros Hperm Hjob Hpage. destruct job as [k linkInfo].
  pose proof (crawlJob_page B M seen (k, linkInfo) page Hpage) as [Hurl Hf].
  simpl in Hurl, Hf. unfold crawlJob in Hpage.
  destruct (bool_decide (Link.url linkInfo ∈ seen)) eqn:Hseen; [discriminate|].
  apply bool_decide_eq_false in Hseen. rewrite Hurl. split; [|exact Hseen].
  unfold runBatch. cbn [batchSeen].
  assert (Hr : In (k, Link.url linkInfo)
                 (settleOrder B
                    (List.filter (fun r => negb (isPending (outcomeOf B M r)))
                       (requestsOf seen (jobsOf i batch))))).
  { apply (Permutation_in _ (Permutation_sym (Hperm _))). apply List.filter_In. split.
    - apply requestsOf_in. exists (k, linkInfo). auto.
    - unfold outcomeOf. simpl.
      destruct (crawlSinglePage B M k (Link.url linkInfo)); [reflexivity | discriminate..]. }
  revert Hr. generalize (settleOrder B
                    (List.filter (fun r => negb (isPending (outcomeOf B M r)))
                       (requestsOf seen (jobsOf i batch)))).
  intros answered. clear Hseen. revert seen. clear Hpage Hjob.
  induction answered as [|r answered IH]; intros seen Hin; [destruct Hin|].
  destruct Hin as [-> | Hin]; simpl.
  - apply fold_settleRequest_old. unfold settleRequest, outcomeOf. simpl.
    rewrite Hf. set_solver.
  - destruct (decide (Link.url linkInfo ∈ settleRequest B M seen r)) as [Hyes | Hno].
    + now apply fold_settleRequest_old.
    + now apply IH.
Qed.

Lemma crawlFrom_content_invariant (supportLinks : list Link.t) (fuel i : nat)
    (crawledContent : JsObject.t Page.t) (seen : gset string) (run : CrawlRun)
    (content : JsObject.t Page.t) :
  answersEach B ->
  crawlFrom B M fuel supportLinks i crawledContent seen = Some run ->
  returned run = Fulfilled content ->
  List.NoDup (JsObject.keys crawledContent) ->
  (forall u, In u (JsObject.keys crawledContent) -> u ∈ seen) ->
  List.NoDup (JsObject.keys content)
  /\ (forall u, In u (JsObject.keys content) -> u ∈ visited run).
Proof.
  intros Hperm. revert i crawledContent seen run.
  induction fuel as [|fuel IH]; intros i crawledContent seen run; [discriminate|].
  cbn [crawlFrom]. destruct (i <? length supportLinks)%nat.
  2:{ intros H Hret. inversion H; subst. simpl in Hret. inversion Hret; subst. auto. }
  set (batch := slice supportLinks i (i + maxConcurrent)).
  destruct (batchResults (runBatch B M i batch seen)) as [results|e|] eqn:Hres.
  - destruct (crawlFrom B M fuel supportLinks (i + maxConcurrent) _ _) as [rest|] eqn:Hrest;
      [|discriminate].
    intros H Hret Hnd Hsub. inversion H; subst run. clear H. cbn [returned visited] in *.
    apply (IH _ _ _ _ Hrest Hret).
    + now apply storeResults_keys_NoDup.
    + intros u Hu. apply storeResults_keys in Hu as [Hu | (page & Hpage & <-)].
      * apply fold_settleRequest_old. now apply Hsub.
      * unfold runBatch in Hres. cbn [batchResults] in Hres.
        apply promiseAll_fulfilled in Hres.
        apply (in_map Fulfilled) in Hpage. rewrite <- Hres in Hpage.
        apply in_map_iff in Hpage as (job & Hjob & Hin).
        exact (proj1 (fulfilled_job_is_marked i batch seen job page Hperm Hin Hjob)).
  - intros H Hret. inversion H; subst. discriminate.
  - intros H Hret. inversion H; subst. discriminate.
Qed.

End ContentInvariant.



(** ** Pages that were crawled before *)

Lemma crawledUrlsAfter_grows (t : list Event) (seen : gset string) (u : string) :
  u ∈ seen -> u ∈ crawledUrlsAfter seen t.
Proof.
  revert seen. induction t as [|e t IH]; intros seen H; [exact H|].
  apply IH. destruct e as [b|k url|k url [|]| |ms]; simpl; set_solver.
Qed.

Section Skipping.

Context (B : Browser) (M : Methods).

Lemma crawlJob_page_new (seen : gset string) (job : Job) (page : Page.t) :
  crawlJob B M seen job = Fulfilled (Some page) -> Page.url page ∉ seen.
Proof.
  destruct job as [k linkInfo]. unfold crawlJob.
  destruct (bool_decide (Link.url linkInfo ∈ seen)) eqn:Hseen; [discriminate|].
  apply bool_decide_eq_false in Hseen.
  destruct (crawlSinglePage B M k (Link.url linkInfo)); simpl; try discriminate.
  intros H. inversion H; subst. exact Hseen.
Qed.

Lemma crawlFrom_skips_seen (supportLinks : list Link.t) (fuel i : nat)
    (crawledContent : JsObject.t Page.t) (seen : gset string) (run : CrawlRun)
    (content : JsObject.t Page.t) (u : string) :
  crawlFrom B M fuel supportLinks i crawledContent seen = Some run ->
  returned run = Fulfilled content ->
  u ∈ seen -> ~ In u (JsObject.keys crawledContent) ->
  ~ In u (JsObject.keys content).
Proof.
  revert i crawledContent seen run.
  induction fuel as [|fuel IH]; intros i crawledContent seen run; [discriminate|].
  cbn [crawlFrom]. destruct (i <? length supportLinks)%nat.
  2:{ intros H Hret. inversion H; subst. simpl in Hret. inversion Hret; subst. auto. }
  set (batch := slice supportLinks i (i + maxConcurrent)).
  destruct (batchResults (runBatch B M i batch seen)) as [results|e|] eqn:Hres.
  - destruct (crawlFrom B M fuel supportLinks (i + maxConcurrent) _ _) as [rest|] eqn:Hrest;
      [|discriminate].
    intros H Hret Hu Hnot. inversion H; subst run. clear H. cbn [returned] in Hret.
    apply (IH _ _ _ _ Hrest Hret).
    + now apply fold_settleRequest_old.
    + intros Hin. apply storeResults_keys in Hin as [Hin | (page & Hpage & Heq)];
        [contradiction|].
      unfold runBatch in Hres. cbn [batchResults] in Hres.
      apply promiseAll_fulfilled in Hres.
      apply (in_map Fulfilled) in Hpage. rewrite <- Hres in Hpage.
      apply in_map_iff in Hpage as (job & Hjob & _).
      apply crawlJob_page_new in Hjob. rewrite Heq in Hjob. contradiction.
  - intros H Hret. inversion H; subst. discriminate.
  - intros H Hret. inversion H; subst. discriminate.
Qed.

End Skipping.

(** X8. A URL that is in [this.crawledUrls] when the crawl starts is left
    alone: no fetch is issued for it, wherever it stands in the link
    sequence, it stays in the set, and the returned content has no page for
    it.  A second analysis by the same analyzer therefore does not report
    the pages of the first again. *)
Theorem crawled_urls_are_skipped (B : Browser) (M : Methods) (this : Analyzer)
    (supportLinks : list Link.t) (url : string) :
  answersEach B ->
  url ∈ crawledUrls this ->
  exists run,
    crawlSupportPages B M this supportLinks = Some run
    /\ url ∈ visited run
    /\ (forall k, ~ In (FetchIssued k url) (trace run))
    /\ (forall crawledContent,
          returned run = Fulfilled crawledContent ->
          ~ In url (JsObject.keys crawledContent)).
Proof.
  intros Hperm Hin. unfold crawlSupportPages.
  destruct (crawlFrom_returns B M supportLinks (S (length supportLinks)) 0 []
              (crawledUrls this)) as (run & Hrun); [lia|].
  exists run. split; [exact Hrun|].
  destruct (crawlFrom_disciplined B M supportLinks _ _ _ _ run Hperm Hrun) as [Hd Hv].
  split; [rewrite Hv; now apply crawledUrlsAfter_grows|]. split.
  - intros k Hk. apply in_split in Hk as (pre & post & Hsplit). rewrite Hsplit in Hd.
    destruct (disciplined_prefix pre (FetchIssued k url :: post) 0 (crawledUrls this) Hd)
      as [_ Hnew].
    apply (Hnew k url post eq_refl). now apply crawledUrlsAfter_grows.
  - intros content Hret.
    apply (crawlFrom_skips_seen B M supportLinks _ _ _ _ run content url Hrun Hret Hin).
    intros [].
Qed.

Lemma crawled_urls_are_skipped_witness :
  exists run,
    crawlSupportPages Example.shop Example.methods
      (withCrawledUrls constructor {["https://example.com/b-help"]}) Example.fiveLinks
    = Some run
    /\ "https://example.com/b-help" ∈ visited run
    /\ (forall k, ~ In (FetchIssued k "https://example.com/b-help") (trace run))
    /\ (forall crawledContent,
          returned run = Fulfilled crawledContent ->
          ~ In "https://example.com/b-help" (JsObject.keys crawledContent)).
Proof.
  apply (crawled_urls_are_skipped Example.shop Example.methods
           (withCrawledUrls constructor {["https://example.com/b-help"]})
           Example.fiveLinks "https://example.com/b-help").
  - apply example_answersEach.
  - simpl. set_solver.
Defined.

(** ** The order of the replies *)

Section ReplyOrder.

Context (B : Browser) (M : Methods).




End ReplyOrder.



(** ** How many fetches *)

Lemma inFlight_app (t1 t2 : list Event) : inFlight (t1 ++ t2) = (inFlight t1 + inFlight t2)%Z.
Proof.
  unfold inFlight. rewrite !List.filter_app, !length_app. lia.
Qed.

Lemma issuedNumbers_app (t1 t2 : list Event) :
  issuedNumbers (t1 ++ t2) = (issuedNumbers t1 ++ issuedNumbers t2)%list.
Proof. apply flat_map_app. Qed.

Section FetchCount.

Context (B : Browser) (M : Methods).

Lemma issuedNumbers_batch (i : nat) (batch : list Link.t) (seen : gset string) :
  issuedNumbers (batchEvents (runBatch B M i batch seen))
  = List.map fst (requestsOf seen (jobsOf i batch)).
Proof.
  unfold runBatch. cbn [batchEvents]. rewrite !issuedNumbers_app.
  assert (H1 : forall l, issuedNumbers (List.map issueEvent l) = List.map fst l).
  { induction l as [|r l IH]; simpl; [reflexivity | now rewrite IH]. }
  assert (H2 : forall l, issuedNumbers (List.map (settleEvent B M) l) = []).
  { induction l as [|r l IH]; simpl; auto. }
  rewrite H1, H2. destruct (isFulfilled _); simpl; now rewrite app_nil_r.
Qed.

Lemma requests_numbers (i : nat) (batch : list Link.t) (seen : gset string) :
  List.NoDup (List.map fst (requestsOf seen (jobsOf i batch)))
  /\ (forall k, In k (List.map fst (requestsOf seen (jobsOf i batch))) ->
        (i <= k < i + length batch)%nat).
Proof.
  unfold requestsOf. rewrite List.map_map. cbn [fst].
  assert (Hjobs : List.map fst (jobsOf i batch) = seq i (length batch)).
  { unfold jobsOf. revert i. induction batch as [|l batch IH]; intros i; simpl;
      [reflexivity | now rewrite IH]. }
  assert (Hsub : forall (f : Job -> bool) (l : list Job),
            List.NoDup (List.map fst l) ->
            List.NoDup (List.map fst (List.filter f l))
            /\ incl (List.map fst (List.filter f l)) (List.map fst l)).
  { intros f l. induction l as [|x l IH]; simpl; intros Hnd; [split; [exact Hnd | easy]|].
    inversion Hnd as [|? ? Hx Hnd']; subst. destruct (IH Hnd') as [H1 H2].
    destruct (f x); simpl.
    - split.
      + constructor; [|exact H1]. intros Hin. apply Hx. now apply H2.
      + apply incl_cons; [now left | now apply incl_tl].
    - split; [exact H1 | now apply incl_tl]. }
  destruct (Hsub (fun job : Job => negb (bool_decide (Link.url (snd job) ∈ seen)))
              (jobsOf i batch)) as [Hnd Hincl].
  { rewrite Hjobs. apply seq_NoDup. }
  split; [exact Hnd|]. intros k Hk. apply Hincl in Hk. rewrite Hjobs in Hk.
  apply in_seq in Hk. lia.
Qed.

Lemma inFlight_batch (i : nat) (batch : list Link.t) (seen : gset string)
    (results : list (option Page.t)) :
  answersEach B ->
  batchResults (runBatch B M i batch seen) = Fulfilled results ->
  inFlight (batchEvents (runBatch B M i batch seen)) = 0%Z.
Proof.
  intros Hperm. unfold runBatch. cbn [batchResults batchEvents]. intros Hall.
  rewrite Hall. cbn [isFulfilled]. rewrite (awaited_all_answered B M seen _ results Hall).
  rewrite !inFlight_app.
  assert (H1 : forall l, inFlight (List.map issueEvent l) = Z.of_nat (length l)).
  { induction l as [|r l IH]; [reflexivity|]. simpl List.map. rewrite inFlight_cons, IH.
    simpl. lia. }
  assert (H2 : forall l, inFlight (List.map (settleEvent B M) l) = (- Z.of_nat (length l))%Z).
  { induction l as [|r l IH]; [reflexivity|]. simpl List.map. rewrite inFlight_cons, IH.
    simpl. lia. }
  rewrite H1, H2, (Permutation_length (Hperm _)). unfold inFlight. simpl. lia.
Qed.

Lemma crawlFrom_fetches (supportLinks : list Link.t) (fuel i : nat)
    (crawledContent : JsObject.t Page.t) (seen : gset string) (run : CrawlRun) :
  crawlFrom B M fuel supportLinks i crawledContent seen = Some run ->
  List.NoDup (issuedNumbers (trace run))
  /\ (forall k, In k (issuedNumbers (trace run)) -> (i <= k < length supportLinks)%nat)
  /\ (answersEach B -> forall content,
        returned run = Fulfilled content -> inFlight (trace run) = 0%Z).
Proof.
  revert i crawledContent seen run.
  induction fuel as [|fuel IH]; intros i crawledContent seen run; [discriminate|].
  cbn [crawlFrom]. destruct (i <? length supportLinks)%nat eqn:Hi.
  2:{ intros H. inversion H; subst. simpl. split; [constructor|]. split; [intros k []|].
      reflexivity. }
  apply Nat.ltb_lt in Hi.
  set (batch := slice supportLinks i (i + maxConcurrent)).
  assert (Hlen : (i + length batch <= length supportLinks)%nat
                 /\ (length batch <= maxConcurrent)%nat).
  { unfold batch. rewrite slice_is_chunk, length_firstn, length_skipn.
    unfold maxConcurrent. lia. }
  destruct (requests_numbers i batch seen) as [Hnd Hrange].
  pose proof (issuedNumbers_batch i batch seen) as Hbatch.
  pose proof (inFlight_batch i batch seen) as Hsettled.
  remember (runBatch B M i batch seen) as b eqn:Hb.
  destruct (batchResults b) as [results|e|] eqn:Hres.
  - destruct (crawlFrom B M fuel supportLinks (i + maxConcurrent) _ _) as [rest|] eqn:Hrest;
      [|discriminate].
    intros [= <-]. cbn [trace returned].
    destruct (IH _ _ _ _ Hrest) as (Hnd' & Hrange' & Hflight).
    change (BatchTaken batch :: ?x) with ([BatchTaken batch] ++ x)%list.
    assert (Hpause : forall p : list Event,
              (p = [Delay 1000] \/ p = []) ->
              issuedNumbers p = [] /\ inFlight p = 0%Z).
    { intros p [-> | ->]; split; reflexivity. }
    destruct (Hpause (if (i + maxConcurrent <? length supportLinks)%nat
                      then [Delay 1000] else []))
      as [Hp1 Hp2]; [destruct (_ <? _)%nat; auto|].
    rewrite !issuedNumbers_app, Hp1, Hbatch. cbn [issuedNumbers flat_map app].
    split; [|split].
    + apply List.NoDup_app; [exact Hnd | exact Hnd' |].
      intros k Hk Hk'. apply Hrange in Hk. apply Hrange' in Hk'. lia.
    + intros k Hk. apply in_app_or in Hk as [Hk | Hk].
      * apply Hrange in Hk. lia.
      * apply Hrange' in Hk. unfold maxConcurrent in Hk. lia.
    + intros Hperm content Hret. rewrite inFlight_cons, !inFlight_app, Hp2.
      rewrite (Hsettled results Hperm eq_refl).
      rewrite (Hflight Hperm content Hret). reflexivity.
  - intros [= <-]. cbn [trace returned].
    change (BatchTaken batch :: ?x) with ([BatchTaken batch] ++ x)%list.
    rewrite issuedNumbers_app, Hbatch. cbn [issuedNumbers flat_map app].
    split; [exact Hnd|]. split; [intros k Hk; apply Hrange in Hk; lia | discriminate].
  - intros [= <-]. cbn [trace returned].
    change (BatchTaken batch :: ?x) with ([BatchTaken batch] ++ x)%list.
    rewrite issuedNumbers_app, Hbatch. cbn [issuedNumbers flat_map app].
    split; [exact Hnd|]. split; [intros k Hk; apply Hrange in Hk; lia | discriminate].
Qed.

End FetchCount.

(** X10. The crawl issues at most one fetch for each link of the sequence,
    so never more fetches than there are links, and none for a position
    outside it; when it returns, every fetch it issued has settled. *)
Theorem at_most_one_fetch_per_link (B : Browser) (M : Methods) (this : Analyzer)
    (supportLinks : list Link.t) :
  exists run,
    crawlSupportPages B M this supportLinks = Some run
    /\ List.NoDup (issuedNumbers (trace run))
    /\ (forall k, In k (issuedNumbers (trace run)) -> (k < length supportLinks)%nat)
    /\ (length (issuedNumbers (trace run)) <= length supportLinks)%nat
    /\ (answersEach B -> forall crawledContent,
          returned run = Fulfilled crawledContent -> inFlight (trace run) = 0%Z).
Proof.
  unfold crawlSupportPages.
  destruct (crawlFrom_returns B M supportLinks (S (length supportLinks)) 0 []
              (crawledUrls this)) as (run & Hrun); [lia|].
  exists run. split; [exact Hrun|].
  destruct (crawlFrom_fetches B M supportLinks _ _ _ _ run Hrun) as (Hnd & Hrange & Hflight).
  split; [exact Hnd|]. split; [intros k Hk; apply Hrange in Hk; lia|].
  split; [|exact Hflight].
  assert (Hincl : incl (issuedNumbers (trace run)) (seq 0 (length supportLinks))).
  { intros k Hk. apply in_seq. apply Hrange in Hk. lia. }
  pose proof (List.NoDup_incl_length Hnd Hincl) as Hle.
  rewrite List.length_seq in Hle. exact Hle.
Qed.

Lemma at_most_one_fetch_per_link_witness :
  exists run,
    crawlSupportPages Example.shop Example.methods constructor Example.fiveLinks
    = Some run
    /\ inFlight (trace run) = 0%Z.
Proof.
  destruct (at_most_one_fetch_per_link Example.shop Example.methods constructor
              Example.fiveLinks) as (run & Hrun & _ & _ & _ & Hflight).
  exists run. split; [exact Hrun|].
  destruct (crawlFrom_pacing Example.shop Example.methods Example.fiveLinks 6 5 0 []
              (crawledUrls constructor) (example_everyCrawlSettles _ _ _))
    as (run' & content & Hrun' & Hret & _); [simpl; lia | simpl; lia |].
  assert (run' = run) by (unfold crawlSupportPages in Hrun; simpl length in Hrun; congruence).
  subst run'.
  apply (Hflight (example_answersEach _ _ _) content Hret).
Defined.

(** ** Structuring the crawled content *)

Lemma Category_eqb_eq (a b : Category) : Category_eqb a b = true <-> a = b.
Proof.
  unfold Category_eqb. rewrite String.eqb_eq. split; [|intros ->; reflexivity].
  destruct a, b; simpl; intros H; try reflexivity; discriminate H.
Qed.

Lemma pushStructured_keys (type : Category) (processed : Processed.t)
    (structured : Structured) :
  (In type (List.map fst structured)
   /\ List.map fst (pushStructured type processed structured) = List.map fst structured)
  \/ (~ In type (List.map fst structured)
      /\ List.map fst (pushStructured type processed structured)
         = (List.map fst structured ++ [type])%list).
Proof.
  induction structured as [|[c pages] rest IH]; simpl.
  - right. split; [tauto | reflexivity].
  - destruct (Category_eqb c type) eqn:Hc.
    + apply Category_eqb_eq in Hc. left. simpl. split; [left; exact Hc | reflexivity].
    + assert (c <> type) as Hne.
      { intros Heq. apply Category_eqb_eq in Heq. congruence. }
      simpl. destruct IH as [(Hin & ->) | (Hnin & ->)].
      * left. split; [right; exact Hin | reflexivity].
      * right. split; [intros [H | H]; [exact (Hne H) | exact (Hnin H)] | reflexivity].
Qed.

Lemma pushStructured_groups (type : Category) (processed : Processed.t)
    (structured : Structured) (Q : Category * list Processed.t -> Prop) :
  (forall c pages, Q (c, pages) -> c = type -> Q (c, (pages ++ [processed])%list)) ->
  Q (type, [processed]) ->
  Forall Q structured -> Forall Q (pushStructured type processed structured).
Proof.
  intros Hadd Hnew. induction structured as [|[c pages] rest IH]; intros Hall; simpl.
  - constructor; [exact Hnew | constructor].
  - inversion Hall as [|? ? Hhead Hrest]; subst.
    destruct (Category_eqb c type) eqn:Hc.
    + apply Category_eqb_eq in Hc. constructor; [apply Hadd; assumption | exact Hrest].
    + constructor; [exact Hhead | apply IH; exact Hrest].
Qed.

Lemma pushStructured_grouped (type : Category) (processed : Processed.t)
    (structured : Structured) :
  Processed.type processed = type ->
  grouped structured -> grouped (pushStructured type processed structured).
Proof.
  intros Htype [Hnd Hall]. split.
  - destruct (pushStructured_keys type processed structured) as [(_ & ->) | (Hnin & ->)];
      [exact Hnd|].
    apply List.NoDup_app; [exact Hnd | repeat constructor; simpl; tauto |].
    intros c Hc [<- | []]. exact (Hnin Hc).
  - apply pushStructured_groups; [| |exact Hall].
    + intros c pages [Hne Hpages] ->. simpl in *. split.
      * destruct pages; discriminate.
      * apply List.Forall_app. split; [exact Hpages|]. repeat constructor. exact Htype.
    + simpl. split; [discriminate|]. repeat constructor. exact Htype.
Qed.

Lemma pushStructured_pages (type : Category) (processed : Processed.t)
    (structured : Structured) :
  Permutation (pagesOf (pushStructured type processed structured))
    (pagesOf structured ++ [processed]).
Proof.
  unfold pagesOf. induction structured as [|[c pages] rest IH]; simpl.
  - apply Permutation_refl.
  - destruct (Category_eqb c type); simpl.
    + rewrite <- !List.app_assoc. apply Permutation_app_head. apply Permutation_app_comm.
    + rewrite <- List.app_assoc. apply Permutation_app_head. exact IH.
Qed.

(** What [processAndStructureContent] stores for one crawled page. *)
Lemma processEntry_spec (M : Methods) (structured structured' : Structured)
    (url : string) (pageData : Page.t) :
  processEntry M structured (url, pageData) = Ok structured' ->
  exists processed,
    structured' = pushStructured (Page.type pageData) processed structured
    /\ Processed.url processed = url
    /\ Processed.type processed = Page.type pageData
    /\ Processed.title processed = Content.title (Page.content pageData)
    /\ Processed.contactInfo processed = Content.contact (Page.content pageData).
Proof.
  unfold processEntry.
  destruct (identifyContentSections M _) as [sections|]; [|discriminate].
  destruct (extractPolicies M _) as [policies|]; [|discriminate].
  destruct (extractProcedures M _) as [procedures|]; [|discriminate].
  simpl. intros [= <-]. eexists. split; [reflexivity|]. simpl. auto.
Qed.

Lemma foldM_processEntry (M : Methods) (crawledContent : JsObject.t Page.t)
    (acc structured : Structured) :
  foldM (processEntry M) crawledContent acc = Ok structured ->
  grouped acc ->
  grouped structured
  /\ Permutation (List.map Processed.url (pagesOf structured))
       (List.map Processed.url (pagesOf acc) ++ List.map fst crawledContent)
  /\ forall page, In page (pagesOf structured) ->
       In page (pagesOf acc)
       \/ exists pageData,
            In (Processed.url page, pageData) crawledContent
            /\ Processed.type page = Page.type pageData
            /\ Processed.title page = Content.title (Page.content pageData)
            /\ Processed.contactInfo page = Content.contact (Page.content pageData).
Proof.
  revert acc. induction crawledContent as [|[url pageData] rest IH]; intros acc;
    cbn [foldM].
  - intros [= <-] Hacc. split; [exact Hacc|]. split.
    + rewrite List.app_nil_r. apply Permutation_refl.
    + intros page Hin. left. exact Hin.
  - destruct (processEntry M acc (url, pageData)) as [acc'|] eqn:Hentry;
      [|simpl; discriminate].
    cbn [bind]. intros Hfold Hacc.
    apply processEntry_spec in Hentry as (processed & -> & Hurl & Htype & Htitle & Hcontact).
    destruct (IH _ Hfold (pushStructured_grouped _ _ _ Htype Hacc))
      as (Hgrouped & Hperm & Hfrom).
    split; [exact Hgrouped|]. split.
    + eapply Permutation_trans; [exact Hperm|].
      change (List.map fst ((url, pageData) :: rest)) with (url :: List.map fst rest).
      change (url :: List.map fst rest) with ([url] ++ List.map fst rest)%list.
      rewrite List.app_assoc. apply Permutation_app_tail.
      rewrite <- Hurl.
      change [Processed.url processed] with (List.map Processed.url [processed]).
      rewrite <- List.map_app. apply Permutation_map. apply pushStructured_pages.
    + intros page Hin. destruct (Hfrom page Hin) as [Hold | (pd & Hin' & Hrest)].
      * apply (Permutation_in _ (pushStructured_pages _ _ _)) in Hold.
        apply List.in_app_or in Hold as [Hold | [<- | []]]; [left; exact Hold|].
        right. exists pageData. rewrite Hurl. split; [left; reflexivity | auto].
      * right. exists pd. split; [right; exact Hin' | exact Hrest].
Qed.

(** X11.  When [processAndStructureContent] returns, its result has every
    category once, no empty group, and every page in the group of its own
    type; the pages are those of the crawled content, each stored entry
    once, with the type, title and contact data of its entry. *)
Theorem structured_pages_are_grouped (M : Methods)
    (crawledContent : JsObject.t Page.t) (structured : Structured) :
  processAndStructureContent M crawledContent = Ok structured ->
  grouped structured
  /\ Permutation (List.map Processed.url (pagesOf structured))
       (JsObject.keys crawledContent)
  /\ forall group page,
       In group structured -> In page (snd group) ->
       exists pageData,
         In (Processed.url page, pageData) crawledContent
         /\ Page.type pageData = fst group
         /\ Processed.title page = Content.title (Page.content pageData)
         /\ Processed.contactInfo page = Content.contact (Page.content pageData).
Proof.
  intros Hfold.
  assert (grouped []) as Hnil by (split; constructor).
  destruct (foldM_processEntry M crawledContent [] structured Hfold Hnil)
    as (Hgrouped & Hperm & Hfrom).
  split; [exact Hgrouped|]. split; [exact Hperm|].
  intros group page Hgroup Hpage.
  assert (In page (pagesOf structured)) as Hin.
  { unfold pagesOf. apply List.in_concat. exists (snd group).
    split; [apply List.in_map; exact Hgroup | exact Hpage]. }
  destruct (Hfrom page Hin) as [[] | (pd & Hin' & Htype & Hrest)].
  exists pd. split; [exact Hin'|]. split; [|exact Hrest].
  destruct Hgrouped as [_ Hall]. rewrite List.Forall_forall in Hall.
  destruct (Hall group Hgroup) as [_ Hpages]. rewrite List.Forall_forall in Hpages.
  rewrite <- Htype. apply Hpages. exact Hpage.
Qed.

Lemma structured_pages_are_grouped_witness :
  exists structured,
    processAndStructureContent Example.methods MoreExamples.crawled = Ok structured
    /\ grouped structured.
Proof.
  eexists. split; [reflexivity|].
  apply (structured_pages_are_grouped Example.methods MoreExamples.crawled).
  reflexivity.
Defined.

(** ** The actionable information *)

Lemma foldM_app {A S} (f : S -> A -> result S) (l1 l2 : list A) (acc : S) :
  foldM f (l1 ++ l2) acc = let* acc' := foldM f l1 acc in foldM f l2 acc'.
Proof.
  revert acc. induction l1 as [|a l1 IH]; intros acc; cbn [foldM app bind]; [reflexivity|].
  destruct (f acc a) as [acc'|e]; cbn [bind]; [apply IH | reflexivity].
Qed.

Lemma foldM_throws {A S} (f : S -> A -> result S) (l : list A) (acc : S) (e : Error) :
  foldM f l acc = Throw e -> exists a acc', In a l /\ f acc' a = Throw e.
Proof.
  revert acc. induction l as [|a l IH]; intros acc; cbn [foldM]; [discriminate|].
  destruct (f acc a) as [acc'|e'] eqn:Hf; cbn [bind].
  - intros H. destruct (IH _ H) as (a' & acc'' & Hin & Hthrow).
    exists a', acc''. split; [right; exact Hin | exact Hthrow].
  - intros [= <-]. exists a, acc. split; [left; reflexivity | exact Hf].
Qed.

Lemma extractActionableInformation_from (M : Methods) (structuredData : Structured)
    (actionable : Actionable.t) :
  foldM
    (fun actionable (entry : Category * list Processed.t) =>
       foldM (fun actionable page => extractActionableFromPage M page actionable)
         (snd entry) actionable)
    structuredData actionable
  = foldM (fun actionable page => extractActionableFromPage M page actionable)
      (pagesOf structuredData) actionable.
Proof.
  unfold pagesOf. revert actionable.
  induction structuredData as [|[c pages] rest IH]; intros actionable;
    cbn [foldM List.map List.concat snd]; [reflexivity|].
  rewrite foldM_app.
  destruct (foldM _ pages actionable) as [acc'|e]; cbn [bind]; [apply IH | reflexivity].
Qed.

(** X12.  [extractActionableInformation] hands every page of the
    structured data to [extractActionableFromPage] once, category by
    category and in the order of each group, threading one accumulator
    that starts empty.  When it throws, the error is one that
    [extractActionableFromPage] threw for a page of the data. *)
Theorem actionable_visits_every_page_in_order (M : Methods) (structuredData : Structured) :
  extractActionableInformation M structuredData
  = foldM (fun actionable page => extractActionableFromPage M page actionable)
      (pagesOf structuredData) Actionable.empty
  /\ forall error,
       extractActionableInformation M structuredData = Throw error ->
       exists group page actionable,
         In group structuredData /\ In page (snd group)
         /\ extractActionableFromPage M page actionable = Throw error.
Proof.
  assert (Heq := extractActionableInformation_from M structuredData Actionable.empty).
  split; [exact Heq|].
  intros error Hthrow. unfold extractActionableInformation in Hthrow.
  rewrite Heq in Hthrow.
  apply foldM_throws in Hthrow as (page & actionable & Hin & Hthrow).
  unfold pagesOf in Hin. apply List.in_concat in Hin as (pages & Hpages & Hpage).
  apply List.in_map_iff in Hpages as (group & <- & Hgroup).
  exists group, page, actionable. auto.
Qed.

(** ** The analyzer after a run *)

Lemma categoryName_injective (a b : Category) : categoryName a = categoryName b -> a = b.
Proof. intros H. apply Category_eqb_eq. unfold Category_eqb. now apply String.eqb_eq. Qed.

Lemma withCrawledUrls_same (this : Analyzer) : withCrawledUrls this (crawledUrls this) = this.
Proof. destruct this; reflexivity. Qed.

(** X13.  A run of [performDeepAnalysis] changes nothing of the analyzer
    but [crawledUrls], which only grows, by the URLs whose fetch was
    settled as fulfilled.  In a full result, [pagesAnalyzed] is the size of
    that set, URLs from before the run included, so it is never less than
    the number of pages in [supportSections]; [contentTypes] names each
    category of [supportSections] once, in order. *)
Theorem analysis_changes_only_crawledUrls (B : Browser) (M : Methods) (this : Analyzer)
    (run : AnalysisRun) :
  answersEach B ->
  performDeepAnalysis B M this = Some run ->
  after run = withCrawledUrls this (crawledUrlsAfter (crawledUrls this) (crawlTrace run))
  /\ crawledUrls this ⊆ crawledUrls (after run)
  /\ forall currentPage sections actionable pagesAnalyzed types timestamp,
       answer run
       = Fulfilled (Analysis currentPage sections actionable pagesAnalyzed types timestamp) ->
       pagesAnalyzed = size (crawledUrls (after run))
       /\ (size (crawledUrls this) <= pagesAnalyzed)%nat
       /\ (length (pagesOf sections) <= pagesAnalyzed)%nat
       /\ types = List.map categoryName (List.map fst sections)
       /\ List.NoDup types.
Proof.
  intros Hperm. unfold performDeepAnalysis.
  assert (Hstay : forall answer,
            after (mkAnalysisRun answer this [])
            = withCrawledUrls this
                (crawledUrlsAfter (crawledUrls this) (crawlTrace (mkAnalysisRun answer this [])))
            /\ crawledUrls this ⊆ crawledUrls (after (mkAnalysisRun answer this []))).
  { intros a. cbn. rewrite withCrawledUrls_same. split; [reflexivity | set_solver]. }
  destruct (analyzeCurrentPage M) as [currentPageData|e].
  2:{ intros [= <-]. destruct (Hstay (Fulfilled (AnalysisError (message e)))) as [H1 H2].
      split; [exact H1|]. split; [exact H2|]. unfold caught. cbn. discriminate. }
  destruct (discoverSupportLinks B M this) as [supportLinks|e|].
  2:{ intros [= <-]. destruct (Hstay (Fulfilled (AnalysisError (message e)))) as [H1 H2].
      split; [exact H1|]. split; [exact H2|]. unfold caught. cbn. discriminate. }
  2:{ intros [= <-]. destruct (Hstay Pending) as [H1 H2].
      split; [exact H1|]. split; [exact H2|]. cbn. discriminate. }
  destruct (crawlSupportPages B M this supportLinks) as [crawl|] eqn:Hcrawl; [|discriminate].
  unfold crawlSupportPages in Hcrawl.
  destruct (crawlFrom_disciplined B M supportLinks _ _ _ _ crawl Hperm Hcrawl) as [_ Hv].
  assert (Hgrow : crawledUrls this ⊆ visited crawl).
  { intros u Hu. rewrite Hv. now apply crawledUrlsAfter_grows. }
  assert (Hafter : forall answer,
            after (mkAnalysisRun answer (withCrawledUrls this (visited crawl)) (trace crawl))
            = withCrawledUrls this
                (crawledUrlsAfter (crawledUrls this)
                   (crawlTrace (mkAnalysisRun answer (withCrawledUrls this (visited crawl))
                                  (trace crawl))))
            /\ crawledUrls this
               ⊆ crawledUrls (after (mkAnalysisRun answer
                                       (withCrawledUrls this (visited crawl)) (trace crawl)))).
  { intros a. cbn. rewrite Hv. split; [reflexivity|].
    intros u Hu. now apply crawledUrlsAfter_grows. }
  destruct (returned crawl) as [crawledContent|e|] eqn:Hret.
  2:{ intros [= <-]. destruct (Hafter (Fulfilled (AnalysisError (message e)))) as [H1 H2].
      split; [exact H1|]. split; [exact H2|]. unfold caught. cbn. discriminate. }
  2:{ intros [= <-]. destruct (Hafter Pending) as [H1 H2].
      split; [exact H1|]. split; [exact H2|]. cbn. discriminate. }
  destruct (processAndStructureContent M crawledContent) as [structuredData|e] eqn:Hstruct.
  2:{ intros [= <-]. destruct (Hafter (Fulfilled (AnalysisError (message e)))) as [H1 H2].
      split; [exact H1|]. split; [exact H2|]. unfold caught. cbn. discriminate. }
  destruct (extractActionableInformation M structuredData) as [actionableData|e].
  2:{ intros [= <-]. destruct (Hafter (Fulfilled (AnalysisError (message e)))) as [H1 H2].
      split; [exact H1|]. split; [exact H2|]. unfold caught. cbn. discriminate. }
  intros [= <-].
  match goal with
  | |- context [mkAnalysisRun ?a _ _] => destruct (Hafter a) as [H1 H2]
  end.
  split; [exact H1|]. split; [exact H2|].
  cbn [answer after crawledUrls withCrawledUrls].
  intros currentPage sections actionable pagesAnalyzed types timestamp
    [= _ <- _ <- <- _].
  assert (grouped []) as Hnil by (split; constructor).
  destruct (foldM_processEntry M crawledContent [] structuredData Hstruct Hnil)
    as ([Hkeys _] & Hpages & _).
  destruct (crawlFrom_content_invariant B M supportLinks _ _ _ _ crawl crawledContent
              Hperm Hcrawl Hret) as [Hnd Hsub]; [constructor | intros u [] |].
  split; [reflexivity|]. split; [apply subseteq_size; exact Hgrow|]. split.
  - rewrite <- (List.length_map Processed.url), (Permutation_length Hpages).
    cbn [pagesOf List.map List.concat app]. now apply NoDup_within_set.
  - split.
    + now rewrite List.map_map.
    + rewrite <- List.map_map.
      apply Stdlib.Lists.Finite.Injective_map_NoDup; [|exact Hkeys].
      intros a b. apply categoryName_injective.
Qed.

Lemma analysis_changes_only_crawledUrls_witness :
  exists run,
    performDeepAnalysis Example.shop Example.methods constructor = Some run
    /\ crawledUrls constructor ⊆ crawledUrls (after run).
Proof.
  destruct (performDeepAnalysis_returns Example.shop Example.methods constructor)
    as (run & Hrun).
  exists run. split; [exact Hrun|].
  apply (analysis_changes_only_crawledUrls Example.shop Example.methods constructor run
           (example_answersEach _ _ _) Hrun).
Defined.

(** ** The message listener *)

Lemma performDeepAnalysis_answer (B : Browser) (M : Methods) (this : Analyzer)
    (run : AnalysisRun) (error : Error) :
  performDeepAnalysis B M this = Some run -> answer run <> Rejected error.
Proof.
  unfold performDeepAnalysis, caught.
  destruct (analyzeCurrentPage M); [|intros [= <-]; discriminate].
  destruct (discoverSupportLinks B M this); try (intros [= <-]; discriminate).
  destruct (crawlSupportPages B M this _) as [crawl|]; [|discriminate].
  destruct (returned crawl); try (intros [= <-]; discriminate).
  destruct (processAndStructureContent M _); [|intros [= <-]; discriminate].
  destruct (extractActionableInformation M _); intros [= <-]; discriminate.
Qed.

(** X14.  The listener of the content script never answers a
    'performDeepAnalysis' request with [success: false]: an error of the
    analysis arrives as [{success: true, data: {error}}], so the [catch]
    of the listener is never entered; if the first phase throws, this is
    the reply and the analyzer is as before.  A request with any action
    other than the two the listener knows gets no reply and changes
    nothing. *)
Theorem deep_analysis_never_replies_failure (B : Browser) (M : Methods)
    (enhancedAnalyzer : Analyzer) :
  (forall reply analyzer,
     onMessage B M enhancedAnalyzer "performDeepAnalysis" = Some (reply, analyzer) ->
     (forall error, reply <> Some (Failure error))
     /\ (forall data, reply <> Some (Success (PageData data)))
     /\ (forall error, analyzeCurrentPage M = Throw error ->
           reply = Some (Success (DeepData (AnalysisError (message error))))
           /\ analyzer = enhancedAnalyzer))
  /\ (forall action,
        action <> "performDeepAnalysis" -> action <> "analyzeWebsite" ->
        onMessage B M enhancedAnalyzer action = Some (None, enhancedAnalyzer)).
Proof.
  split.
  - intros reply analyzer. unfold onMessage. cbn [String.eqb Ascii.eqb Bool.eqb andb].
    change (String.eqb "performDeepAnalysis" "performDeepAnalysis") with true.
    cbv iota.
    destruct (performDeepAnalysis B M enhancedAnalyzer) as [run|] eqn:Hrun; [|discriminate].
    intros [= <- <-].
    pose proof (fun e => performDeepAnalysis_answer B M enhancedAnalyzer run e Hrun) as Hno.
    split; [|split].
    + intros error. destruct (answer run) as [data|e|]; try discriminate.
      exfalso. exact (Hno e eq_refl).
    + intros data. destruct (answer run) as [d|e|]; discriminate.
    + intros error Hthrow. unfold performDeepAnalysis in Hrun. rewrite Hthrow in Hrun.
      injection Hrun as <-. split; reflexivity.
  - intros action Hdeep Hpage. unfold onMessage.
    apply String.eqb_neq in Hdeep, Hpage. rewrite Hdeep, Hpage. reflexivity.
Qed.

(** ** Failures of the link sources *)

Lemma discoverSupportLinks_robots (B : Browser) (M : Methods) (this : Analyzer)
    (f g : string -> result (list Link.t)) :
  (forall links,
     tryAwait (settle (f (location_origin B)))
       (fun robotsLinks => addAll links (List.map (Link.madeBy Robots) robotsLinks))
       (fun _ => links)
     = tryAwait (settle (g (location_origin B)))
         (fun robotsLinks => addAll links (List.map (Link.madeBy Robots) robotsLinks))
         (fun _ => links)) ->
  discoverSupportLinks B (withCheckRobotsTxt M f) this
  = discoverSupportLinks B (withCheckRobotsTxt M g) this.
Proof.
  intros Hsame. unfold discoverSupportLinks.
  change (findNavigationLinks B (withCheckRobotsTxt M f) this)
    with (findNavigationLinks B (withCheckRobotsTxt M g) this).
  destruct (findNavigationLinks B (withCheckRobotsTxt M g) this) as [nav|e];
    cbn [settle await]; [|reflexivity].
  cbn [checkSitemap tryAwait await withCheckRobotsTxt checkRobotsTxt
       generateCommonSupportUrls].
  rewrite Hsame. reflexivity.
Qed.

Lemma withCheckRobotsTxt_same (M : Methods) : withCheckRobotsTxt M (checkRobotsTxt M) = M.
Proof. destruct M; reflexivity. Qed.

(** X15.  How the four link sources fail.  The promise of
    [discoverSupportLinks] always settles.  It is rejected exactly when
    the navigation scan throws, or when that scan returns and
    [generateCommonSupportUrls] throws, and then with that error.  A
    failure of [checkRobotsTxt] is swallowed: the result is the one of a
    robots source that finds no link. *)
Theorem discovery_fails_with_first_or_last_source (B : Browser) (M : Methods)
    (this : Analyzer) :
  discoverSupportLinks B M this <> Pending
  /\ (forall error,
        discoverSupportLinks B M this = Rejected error
        <-> findNavigationLinks B M this = Throw error
            \/ ((exists navLinks, findNavigationLinks B M this = Ok navLinks)
                /\ generateCommonSupportUrls M (location_origin B) = Throw error))
  /\ (forall error,
        checkRobotsTxt M (location_origin B) = Throw error ->
        discoverSupportLinks B M this
        = discoverSupportLinks B (withCheckRobotsTxt M (fun _ => Ok [])) this).
Proof.
  split; [|split].
  - unfold discoverSupportLinks.
    destruct (findNavigationLinks B M this) as [nav|e]; cbn [settle await]; [|discriminate].
    cbn [checkSitemap tryAwait await].
    destruct (checkRobotsTxt M (location_origin B)); cbn [settle tryAwait await];
      destruct (generateCommonSupportUrls M (location_origin B)); discriminate.
  - intros error. unfold discoverSupportLinks.
    destruct (findNavigationLinks B M this) as [nav|e]; cbn [settle await].
    + cbn [checkSitemap tryAwait await].
      destruct (checkRobotsTxt M (location_origin B)); cbn [settle tryAwait await];
        destruct (generateCommonSupportUrls M (location_origin B)) as [gen|e'];
        cbn [settle await]; split;
        try discriminate;
        try (intros [H | [_ H]]; discriminate H);
        try (intros [= <-]; right; split; [eexists|]; reflexivity);
        try (intros [H | [_ H]]; [discriminate H | injection H as <-; reflexivity]).
    + split.
      * intros [= <-]. left. reflexivity.
      * intros [[= <-] | [[nav' H] _]]; [reflexivity | discriminate H].
  - intros error Hthrow.
    rewrite <- (withCheckRobotsTxt_same M) at 1.
    apply discoverSupportLinks_robots. intros links.
    rewrite Hthrow. reflexivity.
Qed.

(** ** The background service *)

Module BackgroundFacts.

Import Background.

Lemma get_replace_same (k : string) (v : Value) (o : Object) :
  JsObject.has k o = true -> get k (JsObject.replace k v o) = Some v.
Proof.
  unfold JsObject.has. induction o as [|[k' v'] o IH]; cbn [existsb JsObject.replace fst];
    [discriminate|].
  destruct (String.eqb k' k) eqn:Hk; cbn [get orb].
  - rewrite Hk. reflexivity.
  - rewrite Hk. exact IH.
Qed.

Lemma get_replace_other (k k' : string) (v : Value) (o : Object) :
  k' <> k -> get k' (JsObject.replace k v o) = get k' o.
Proof.
  intros Hne. induction o as [|[k0 v0] o IH]; cbn [JsObject.replace get]; [reflexivity|].
  destruct (String.eqb k0 k) eqn:Hk; cbn [get].
  - apply String.eqb_eq in Hk as ->.
    apply not_eq_sym, String.eqb_neq in Hne. rewrite Hne. reflexivity.
  - rewrite IH. reflexivity.
Qed.

Lemma get_app_new (k k' : string) (v : Value) (o : Object) :
  get k' (o ++ [(k, v)])%list
  = match get k' o with
    | Some v' => Some v'
    | None => if String.eqb k k' then Some v else None
    end.
Proof.
  induction o as [|[k0 v0] o IH]; cbn [app get]; [reflexivity|].
  destruct (String.eqb k0 k'); [reflexivity | exact IH].
Qed.

Lemma has_false_get (k : string) (o : Object) : JsObject.has k o = false -> get k o = None.
Proof.
  unfold JsObject.has. induction o as [|[k0 v0] o IH]; cbn [existsb get fst]; [reflexivity|].
  destruct (String.eqb k0 k); cbn [orb]; [discriminate | exact IH].
Qed.

Lemma get_define_same (k : string) (v : Value) (o : Object) :
  get k (define k v o) = Some v.
Proof.
  unfold define. destruct (JsObject.has k o) eqn:Hhas.
  - now apply get_replace_same.
  - rewrite get_app_new, (has_false_get _ _ Hhas), String.eqb_refl. reflexivity.
Qed.

Lemma get_define_other (k k' : string) (v : Value) (o : Object) :
  k' <> k -> get k' (define k v o) = get k' o.
Proof.
  intros Hne. unfold define. destruct (JsObject.has k o).
  - now apply get_replace_other.
  - rewrite get_app_new. apply not_eq_sym, String.eqb_neq in Hne. rewrite Hne.
    now destruct (get k' o).
Qed.

Lemma replace_keys_same (k : string) (v : Value) (o : Object) :
  JsObject.keys (JsObject.replace k v o) = JsObject.keys o.
Proof.
  unfold JsObject.keys. induction o as [|[k0 v0] o IH]; cbn [JsObject.replace List.map];
    [reflexivity|].
  destruct (String.eqb k0 k); cbn [List.map fst]; [reflexivity | now rewrite IH].
Qed.

Lemma knowledge_key_injective (a b : string) :
  ("knowledge_" ++ a)%string = ("knowledge_" ++ b)%string -> a = b.
Proof. cbn. intros [= H]. exact H. Qed.

End BackgroundFacts.

(** X16.  What [storeKnowledgeBase] stores, [getKnowledgeBase] finds
    again.  When the [url] of the data has a host name, the data is stored
    under 'knowledge_' followed by that name, with [timestamp] set to the
    time of the call and [version] to '1.0', whatever the data had for
    them, and all other properties kept; a request for that host name
    then gets the stored object, and requests for other names are
    answered as before. *)
Theorem stored_knowledge_is_found_again (C : Background.Chrome) (d : Background.Object)
    (domain : string) (st : Background.Storage) :
  Background.hostnameOf C (Background.get "url" d) = Ok domain ->
  exists stored st',
    Background.handleMessage C (Background.storeRequest d) st = (Background.Stored, st')
    /\ Background.handleMessage C (Background.getRequest (Some domain)) st'
       = (Background.Found stored, st')
    /\ Background.get "timestamp" stored = Some (Background.Num (Background.now C))
    /\ Background.get "version" stored = Some (Background.Str "1.0")
    /\ (forall k, k <> "timestamp" -> k <> "version" ->
          Background.get k stored = Background.get k d)
    /\ (forall other, Background.interpolate other <> domain ->
          fst (Background.handleMessage C (Background.getRequest other) st')
          = fst (Background.handleMessage C (Background.getRequest other) st)).
Proof.
  intros Hhost.
  exists (Background.define "version" (Background.Str "1.0")
            (Background.define "timestamp" (Background.Num (Background.now C)) d)).
  eexists. split.
  { unfold Background.handleMessage, Background.storeRequest.
    cbn [Background.action Background.data].
    change (String.eqb "storeKnowledgeBase" "getTabInfo") with false.
    change (String.eqb "storeKnowledgeBase" "storeKnowledgeBase") with true.
    cbv iota. unfold Background.storeKnowledgeBase. rewrite Hhost. reflexivity. }
  split.
  { unfold Background.handleMessage, Background.getRequest.
    cbn [Background.action Background.domain].
    change (String.eqb "getKnowledgeBase" "getTabInfo") with false.
    change (String.eqb "getKnowledgeBase" "storeKnowledgeBase") with false.
    change (String.eqb "getKnowledgeBase" "getKnowledgeBase") with true.
    cbv iota. unfold Background.getKnowledgeBase. cbn [Background.interpolate].
    cbv zeta. rewrite lookup_insert_eq. reflexivity. }
  split.
  { rewrite BackgroundFacts.get_define_other by discriminate.
    apply BackgroundFacts.get_define_same. }
  split; [apply BackgroundFacts.get_define_same|]. split.
  { intros k Ht Hv. now rewrite !BackgroundFacts.get_define_other. }
  intros other Hother.
  unfold Background.handleMessage, Background.getRequest.
  cbn [Background.action Background.domain].
  change (String.eqb "getKnowledgeBase" "getTabInfo") with false.
  change (String.eqb "getKnowledgeBase" "storeKnowledgeBase") with false.
  change (String.eqb "getKnowledgeBase" "getKnowledgeBase") with true.
  cbv iota. unfold Background.getKnowledgeBase. cbv zeta.
  rewrite lookup_insert_ne.
  - now destruct (st !! _).
  - intros Heq. apply BackgroundFacts.knowledge_key_injective in Heq. congruence.
Qed.

Lemma stored_knowledge_is_found_again_witness :
  exists stored st',
    Background.handleMessage MoreExamples.chrome
      (Background.storeRequest MoreExamples.knowledge) ∅
    = (Background.Stored, st')
    /\ Background.handleMessage MoreExamples.chrome
         (Background.getRequest (Some "example.com")) st'
       = (Background.Found stored, st')
    /\ Background.get "timestamp" stored = Some (Background.Num 1700000000000).
Proof.
  destruct (stored_knowledge_is_found_again MoreExamples.chrome MoreExamples.knowledge
              "example.com" ∅ eq_refl)
    as (stored & st' & Hstore & Hget & Htime & _).
  exists stored, st'. split; [exact Hstore|]. split; [exact Hget | exact Htime].
Defined.

Lemma handleMessage_storage (C : Background.Chrome) (request : Background.Request)
    (st : Background.Storage) :
  snd (Background.handleMessage C request st) = st
  \/ exists d domain,
       Background.data request = Some d
       /\ Background.hostnameOf C (Background.get "url" d) = Ok domain
       /\ fst (Background.handleMessage C request st) = Background.Stored
       /\ exists stored,
            snd (Background.handleMessage C request st)
            = <[("knowledge_" ++ domain)%string := stored]> st.
Proof.
  unfold Background.handleMessage.
  destruct (String.eqb (Background.action request) "getTabInfo").
  { left. unfold Background.getTabInfo. now destruct (Background.activeTab C). }
  destruct (String.eqb (Background.action request) "storeKnowledgeBase").
  { unfold Background.storeKnowledgeBase.
    destruct (Background.data request) as [d|]; [|left; reflexivity].
    destruct (Background.hostnameOf C (Background.get "url" d)) as [domain|e] eqn:Hhost;
      [|left; reflexivity].
    right. exists d, domain. split; [reflexivity|]. split; [exact Hhost|].
    split; [reflexivity|]. eexists. reflexivity. }
  destruct (String.eqb (Background.action request) "getKnowledgeBase"); [|left; reflexivity].
  left. unfold Background.getKnowledgeBase. cbv zeta. now destruct (st !! _).
Qed.

(** X17.  The storage changes only by a store that succeeds.  A request
    that is not answered [{success: true}] without data leaves the storage
    as it was: a store whose data is missing or whose [url] has no host
    name, a lookup, a tab query, an unknown action.  Every request leaves
    alone the keys that do not start with 'knowledge_', 'currentTab' among
    them, and a tab update leaves alone every key of a knowledge base. *)
Theorem storage_changes_only_by_a_store (C : Background.Chrome)
    (request : Background.Request) (st : Background.Storage) :
  (fst (Background.handleMessage C request st) <> Background.Stored ->
   snd (Background.handleMessage C request st) = st)
  /\ (forall key, String.prefix "knowledge_" key = false ->
        snd (Background.handleMessage C request st) !! key = st !! key)
  /\ (forall status tabUrl title domain,
        Background.onTabUpdated C status tabUrl title st
          !! ("knowledge_" ++ Background.interpolate domain)%string
        = st !! ("knowledge_" ++ Background.interpolate domain)%string)
  /\ (forall error,
        Background.hostnameOf C None = Throw error ->
        Background.handleMessage C (Background.storeRequest []) st
        = (Background.Failed (message error), st)).
Proof.
  split; [|split; [|split]].
  - intros Hnot.
    destruct (handleMessage_storage C request st) as [Hsame | (d & domain & _ & _ & Hs & _)];
      [exact Hsame | contradiction].
  - intros key Hkey.
    destruct (handleMessage_storage C request st)
      as [-> | (d & domain & _ & _ & _ & stored & ->)]; [reflexivity|].
    apply lookup_insert_ne. intros <-.
    rewrite (prefix_app "knowledge_" domain) in Hkey. discriminate Hkey.
  - intros status tabUrl title domain. unfold Background.onTabUpdated.
    destruct status as [s|]; [|reflexivity].
    destruct tabUrl as [[|c u]|]; try reflexivity.
    destruct (String.eqb s "complete"); [|reflexivity].
    apply lookup_insert_ne. cbn. discriminate.
  - intros error Hthrow. cbn. rewrite Hthrow. reflexivity.
Qed.

(** ** Page fetches that nobody answers with a page *)

Section NoPage.

Context (B : Browser) (M : Methods).

Hypothesis allRejected :
  forall k pageUrl, exists error, crawlSinglePage B M k pageUrl = Rejected error.

Lemma rejected_not_fulfilled (r : nat * string) : isFulfilled (outcomeOf B M r) = false.
Proof. unfold outcomeOf. destruct (allRejected (fst r) (snd r)) as (e & ->). reflexivity. Qed.

Lemma rejected_jobs (seen : gset string) (jobs : list Job) :
  promiseAll (List.map (crawlJob B M seen) jobs)
  = Fulfilled (List.map (fun _ => None) jobs).
Proof.
  induction jobs as [|[k linkInfo] jobs IH]; [reflexivity|].
  cbn [List.map]. 
  assert (crawlJob B M seen (k, linkInfo) = Fulfilled None) as ->.
  { unfold crawlJob. destruct (bool_decide _); [reflexivity|].
    destruct (allRejected k (Link.url linkInfo)) as (e & ->). reflexivity. }
  cbn [promiseAll]. rewrite IH. reflexivity.
Qed.

Lemma rejected_settle (answered : list (nat * string)) (seen : gset string) :
  fold_left (settleRequest B M) answered seen = seen.
Proof.
  induction answered as [|r answered IH]; [reflexivity|].
  cbn [fold_left]. unfold settleRequest at 2. rewrite rejected_not_fulfilled. exact IH.
Qed.

Lemma store_nothing {A} (jobs : list A) (crawledContent : JsObject.t Page.t) :
  storeResults (List.map (fun _ => None) jobs) crawledContent = crawledContent.
Proof. unfold storeResults. induction jobs as [|j jobs IH]; [reflexivity | exact IH]. Qed.

Lemma rejected_batch (i : nat) (batch : list Link.t) (seen : gset string) :
  batchResults (runBatch B M i batch seen)
  = Fulfilled (List.map (fun _ => None) (jobsOf i batch))
  /\ batchSeen (runBatch B M i batch seen) = seen
  /\ Forall nothingAdded (batchEvents (runBatch B M i batch seen)).
Proof.
  unfold runBatch. cbn [batchResults batchSeen batchEvents].
  rewrite rejected_jobs, rejected_settle. split; [reflexivity|]. split; [reflexivity|].
  apply List.Forall_app. split.
  - apply List.Forall_forall. intros e He.
    apply List.in_map_iff in He as (r & <- & _). exact I.
  - apply List.Forall_app. split.
    + apply List.Forall_forall. intros e He.
      apply List.in_map_iff in He as (r & <- & _). apply rejected_not_fulfilled.
    + cbn [isFulfilled]. repeat constructor.
Qed.

Lemma crawlFrom_nothing (supportLinks : list Link.t) (fuel i : nat)
    (crawledContent : JsObject.t Page.t) (seen : gset string) (run : CrawlRun) :
  crawlFrom B M fuel supportLinks i crawledContent seen = Some run ->
  returned run = Fulfilled crawledContent
  /\ visited run = seen
  /\ Forall nothingAdded (trace run).
Proof.
  revert i crawledContent run.
  induction fuel as [|fuel IH]; intros i crawledContent run; [discriminate|].
  cbn [crawlFrom]. destruct (i <? length supportLinks)%nat.
  2:{ intros [= <-]. cbn. repeat split. constructor. }
  set (batch := slice supportLinks i (i + maxConcurrent)).
  destruct (rejected_batch i batch seen) as (Hres & Hseen & Hevents).
  rewrite Hres, Hseen, store_nothing.
  destruct (crawlFrom B M fuel supportLinks (i + maxConcurrent) crawledContent seen)
    as [r|] eqn:Hrest; [|discriminate].
  intros [= <-]. destruct (IH _ _ _ Hrest) as (Hret & Hvis & Htrace).
  cbn [returned visited trace]. split; [exact Hret|]. split; [exact Hvis|].
  constructor; [exact I|]. apply List.Forall_app. split; [exact Hevents|].
  apply List.Forall_app. split; [|exact Htrace].
  destruct (_ <? _)%nat; repeat constructor.
Qed.

End NoPage.

(** X18.  The background service has no case for 'fetchPageContent': it
    answers the request of [crawlSinglePage] with [{error: 'Unknown
    action'}] and stores nothing.  With this service on the other end of
    [chrome.runtime.sendMessage], every page promise is rejected with that
    message, and the crawl returns an empty content and leaves
    [this.crawledUrls] as it was, whatever links it is given. *)
Theorem background_answers_no_page_fetch (C : Background.Chrome)
    (st : Background.Storage) (B : Browser) (M : Methods) (this : Analyzer) :
  let B' := withSendMessage B (Background.replies C st) in
  (forall pageUrl,
     Background.handleMessage C (Background.fetchPageContent pageUrl) st
     = (Background.UnknownAction, st))
  /\ (forall k pageUrl,
        crawlSinglePage B' M k pageUrl = Rejected (mkError "Unknown action"))
  /\ forall supportLinks,
       exists run,
         crawlSupportPages B' M this supportLinks = Some run
         /\ returned run = Fulfilled []
         /\ visited run = crawledUrls this
         /\ Forall nothingAdded (trace run).
Proof.
  intros B'.
  assert (Hrej : forall k pageUrl,
            crawlSinglePage B' M k pageUrl = Rejected (mkError "Unknown action"))
    by reflexivity.
  split; [reflexivity|]. split; [exact Hrej|].
  intros supportLinks. unfold crawlSupportPages.
  destruct (crawlFrom_returns B' M supportLinks (S (length supportLinks)) 0 []
              (crawledUrls this)) as (run & Hrun); [lia|].
  exists run. split; [exact Hrun|].
  apply (crawlFrom_nothing B' M) with (2 := Hrun).
  intros k pageUrl. eexists. apply Hrej.
Qed.

(** ** The popup *)

Lemma replaceNewlines_singleLine (message : string) :
  singleLine (Popup.replaceNewlines message).
Proof.
  unfold singleLine. induction message as [|c rest IH]; cbn [Popup.replaceNewlines].
  - intros [].
  - destruct (Ascii.eqb c (ascii_of_nat 10)) eqn:Hc.
    + cbn. intros [H | [H | [H | [H | H]]]]; try discriminate H. exact (IH H).
    + cbn. intros [H | H]; [|exact (IH H)].
      apply Ascii.eqb_neq in Hc. apply Hc. exact H.
Qed.

Lemma replaceNewlines_same (message : string) :
  singleLine message -> Popup.replaceNewlines message = message.
Proof.
  unfold singleLine. induction message as [|c rest IH]; cbn [Popup.replaceNewlines];
    [reflexivity|].
  intros Hno. destruct (Ascii.eqb c (ascii_of_nat 10)) eqn:Hc.
  - apply Ascii.eqb_eq in Hc. exfalso. apply Hno. left. exact Hc.
  - rewrite IH; [reflexivity|]. intros H. apply Hno. right. exact H.
Qed.

(** X19.  [handleUserInput] does nothing when the input is blank.
    Otherwise it empties the input, hides the loading mark, and appends
    two messages to the chat and no more: the trimmed question as a user
    message and the answer of [processQuestion] as a bot message.  The
    markup of a message has no line feed, each one being replaced by a
    [<br>]; nothing else is replaced, so a question on one line becomes
    markup as it was typed.  A key other than Enter does nothing. *)
Theorem handleUserInput_appends_question_and_answer (R : Popup.Responses)
    (page : Popup.Page) :
  let question := trim (Popup.userInput page) in
  let page' := Popup.handleUserInput R page in
  (question = "" -> page' = page)
  /\ (question <> "" ->
      Popup.userInput page' = ""
      /\ Popup.loading page' = "none"
      /\ Popup.chatContainer page'
         = (Popup.chatContainer page
            ++ [("message user-message", Popup.replaceNewlines question);
                ("message bot-message",
                 Popup.replaceNewlines (Popup.processQuestion R question))])%list
      /\ singleLine (Popup.replaceNewlines question)
      /\ singleLine (Popup.replaceNewlines (Popup.processQuestion R question))
      /\ (singleLine question -> Popup.replaceNewlines question = question))
  /\ (forall key, key <> "Enter" -> Popup.handleKeyPress R key page = page)
  /\ (forall asked,
        Popup.askQuestion R asked page
        = Popup.handleKeyPress R "Enter"
            (Popup.mkPage asked (Popup.chatContainer page) (Popup.loading page))).
Proof.
  intros question page'. subst page'. unfold Popup.handleUserInput.
  change (trim (Popup.userInput page)) with question. clearbody question.
  split; [|split; [|split]].
  - intros ->. reflexivity.
  - intros Hq. destruct question as [|c rest]; [exfalso; apply Hq; reflexivity|].
    cbn [Popup.userInput Popup.loading Popup.chatContainer Popup.addMessage].
    split; [reflexivity|]. split; [reflexivity|]. split.
    + rewrite <- List.app_assoc. reflexivity.
    + split; [apply replaceNewlines_singleLine|].
      split; [apply replaceNewlines_singleLine | apply replaceNewlines_same].
  - intros key Hkey. unfold Popup.handleKeyPress.
    apply String.eqb_neq in Hkey. rewrite Hkey. reflexivity.
  - intros asked. reflexivity.
Qed.

Lemma firstMatch_in (questionLower : string) (entries : list (string * list string)) :
  In (Popup.firstMatch questionLower entries) ("general" :: List.map fst entries).
Proof.
  induction entries as [|[cat words] rest IH]; cbn [Popup.firstMatch List.map fst].
  - left. reflexivity.
  - destruct (existsb _ words).
    + right. left. reflexivity.
    + destruct IH as [H | H]; [left; exact H | right; right; exact H].
Qed.

Lemma firstMatch_general (questionLower : string) (entries : list (string * list string)) :
  Forall (fun entry => fst entry <> "general") entries ->
  Popup.firstMatch questionLower entries = "general"
  <-> forall entry word,
        In entry entries -> In word (snd entry) -> includes questionLower word = false.
Proof.
  induction entries as [|[cat words] rest IH]; intros Hnames; cbn [Popup.firstMatch].
  - split; [intros _ entry word [] | reflexivity].
  - inversion Hnames as [|? ? Hcat Hrest]; subst. cbn [fst] in Hcat.
    destruct (existsb _ words) eqn:Hwords.
    + split; [intros H; contradiction|].
      intros Hnone. apply existsb_exists in Hwords as (word & Hin & Hinc).
      rewrite (Hnone (cat, words) word) in Hinc; [discriminate | left; reflexivity | exact Hin].
    + rewrite (IH Hrest). split.
      * intros Hnone entry word [<- | Hentry] Hword; [|exact (Hnone entry word Hentry Hword)].
        cbn [snd] in Hword.
        destruct (includes questionLower word) eqn:Hinc; [|reflexivity].
        assert (existsb (fun word => includes questionLower word) words = true) as Hex.
        { apply existsb_exists. exists word. split; assumption. }
        rewrite Hex in Hwords. discriminate.
      * intros Hnone entry word Hentry. apply Hnone. right. exact Hentry.
Qed.

(** X20.  The category of a question.  [processQuestion] finds one of
    five categories, the same for a question and for its lower-case form.
    The tables are tried in the order cancel, refund, contact, billing and
    the first with a word that occurs in the question wins: a question
    with one of the cancel words is a cancel question whatever else it
    mentions.  The category is general exactly when no word of any table
    occurs.  The answer is the text of the category, or the general text
    when that text is empty. *)
Theorem questionCategory_first_table_wins (R : Popup.Responses) (question : string) :
  let questionLower := toLowerCase question in
  In (Popup.questionCategory question) ["general"; "cancel"; "refund"; "contact"; "billing"]
  /\ Popup.questionCategory (toLowerCase question) = Popup.questionCategory question
  /\ (forall word,
        In word ["cancel"; "cancellation"; "unsubscribe"; "stop"] ->
        includes questionLower word = true ->
        Popup.questionCategory question = "cancel"
        /\ Popup.processQuestion R question = orElse (Some (Popup.cancel R)) (Popup.general R))
  /\ (Popup.questionCategory question = "general"
      <-> forall entry word,
            In entry Popup.keywords -> In word (snd entry) ->
            includes questionLower word = false)
  /\ (Popup.questionCategory question = "general" ->
      Popup.processQuestion R question = Popup.general R).
Proof.
  intros questionLower. split; [|split; [|split; [|split]]].
  - apply (firstMatch_in questionLower Popup.keywords).
  - unfold Popup.questionCategory. rewrite toLowerCase_idempotent. reflexivity.
  - intros word Hword Hinc.
    assert (Popup.questionCategory question = "cancel") as Hcat.
    { unfold Popup.questionCategory, Popup.keywords. fold questionLower.
      cbn [Popup.firstMatch].
      assert (existsb (fun word => includes questionLower word)
                ["cancel"; "cancellation"; "unsubscribe"; "stop"] = true) as ->.
      { apply existsb_exists. exists word. split; assumption. }
      reflexivity. }
    split; [exact Hcat|]. unfold Popup.processQuestion. rewrite Hcat. reflexivity.
  - apply firstMatch_general. unfold Popup.keywords.
    repeat constructor; cbn [fst]; discriminate.
  - intros Hcat. unfold Popup.processQuestion. rewrite Hcat.
    unfold Popup.generateResponse.
    change (String.eqb "general" "cancel") with false.
    change (String.eqb "general" "refund") with false.
    change (String.eqb "general" "contact") with false.
    change (String.eqb "general" "billing") with false.
    change (String.eqb "general" "general") with true.
    cbv iota zeta. unfold orElse. now destruct (Popup.general R).
Qed.

(** ** A second run of the same analyzer *)

Lemma jobsOf_nth (i j : nat) (batch : list Link.t) (linkInfo : Link.t) :
  nth_error batch j = Some linkInfo -> In ((i + j)%nat, linkInfo) (jobsOf i batch).
Proof.
  unfold jobsOf. revert i j. induction batch as [|l batch IH]; intros i j.
  - destruct j; discriminate.
  - destruct j as [|j]; cbn [nth_error length seq combine].
    + intros [= ->]. left. now rewrite Nat.add_0_r.
    + intros H. right. replace (i + S j)%nat with (S i + j)%nat by lia. now apply IH.
Qed.

Lemma slice_has {A} (l : list A) (i k : nat) (a : A) :
  (i <= k < i + maxConcurrent)%nat ->
  nth_error l k = Some a ->
  nth_error (slice l i (i + maxConcurrent)) (k - i) = Some a.
Proof.
  unfold maxConcurrent. intros Hk Hnth. rewrite slice_is_chunk.
  rewrite nth_error_firstn.
  destruct (k - i <? 3)%nat eqn:E; [|apply Nat.ltb_ge in E; lia].
  rewrite nth_error_skipn. now replace (i + (k - i))%nat with k by lia.
Qed.

Section SecondRun.

Context (B : Browser) (M : Methods).

Hypothesis Hperm : answersEach B.

Lemma scanAnchors_crawledUrls (this : Analyzer) (s : gset string)
    (allLinks : list Dom.located) (k : nat) (links : list Link.t) :
  scanAnchors B M (withCrawledUrls this s) k allLinks links
  = scanAnchors B M this k allLinks links.
Proof.
  revert k links. induction allLinks as [|link rest IH]; intros k links; simpl;
    [reflexivity|].
  destruct (resolveUrl B (hrefOf link)) as [url|e]; simpl; [|reflexivity].
  destruct (isSupportRelated url _); [|apply IH].
  destruct (getLinkLocation M link) as [location|e]; simpl; [apply IH | reflexivity].
Qed.

Lemma discoverSupportLinks_crawledUrls (this : Analyzer) (s : gset string) :
  discoverSupportLinks B M (withCrawledUrls this s) = discoverSupportLinks B M this.
Proof.
  unfold discoverSupportLinks, findNavigationLinks.
  rewrite scanAnchors_crawledUrls. reflexivity.
Qed.

(** After a crawl that returned, every link from [i] on either has its
    URL in the set or had its page promise rejected. *)
Lemma crawlFrom_outcomes (supportLinks : list Link.t) (fuel i : nat)
    (crawledContent : JsObject.t Page.t) (seen : gset string) (run : CrawlRun)
    (content : JsObject.t Page.t) :
  crawlFrom B M fuel supportLinks i crawledContent seen = Some run ->
  returned run = Fulfilled content ->
  forall k linkInfo,
    (i <= k)%nat -> nth_error supportLinks k = Some linkInfo ->
    Link.url linkInfo ∈ visited run
    \/ exists error, crawlSinglePage B M k (Link.url linkInfo) = Rejected error.
Proof.
  revert i crawledContent seen run.
  induction fuel as [|fuel IH]; intros i crawledContent seen run; [discriminate|].
  cbn [crawlFrom]. destruct (i <? length supportLinks)%nat eqn:Hlt.
  2:{ intros [= <-] _ k linkInfo Hle Hnth. apply Nat.ltb_ge in Hlt.
      assert (nth_error supportLinks k <> None) as Hsome by congruence.
      apply nth_error_Some in Hsome. lia. }
  set (batch := slice supportLinks i (i + maxConcurrent)).
  destruct (batchResults (runBatch B M i batch seen)) as [results|e|] eqn:Hres.
  2:{ intros [= <-]. discriminate. }
  2:{ intros [= <-]. discriminate. }
  destruct (crawlFrom B M fuel supportLinks (i + maxConcurrent) _ _) as [rest|] eqn:Hrest;
    [|discriminate].
  intros [= <-] Hret k linkInfo Hle Hnth. cbn [returned visited] in *.
  destruct (Nat.lt_ge_cases k (i + maxConcurrent)) as [Hin | Hout].
  2:{ exact (IH _ _ _ _ Hrest Hret k linkInfo Hout Hnth). }
  destruct (crawlFrom_disciplined B M supportLinks _ _ _ _ rest Hperm Hrest) as [_ Hv].
  assert (Hkeep : forall u, u ∈ batchSeen (runBatch B M i batch seen) -> u ∈ visited rest).
  { intros u Hu. rewrite Hv. now apply crawledUrlsAfter_grows. }
  assert (Hjob : In (k, linkInfo) (jobsOf i batch)).
  { replace k with (i + (k - i))%nat at 1 by lia. apply jobsOf_nth.
    apply slice_has; [lia | exact Hnth]. }
  unfold runBatch in Hres. cbn [batchResults] in Hres.
  apply promiseAll_fulfilled in Hres.
  pose proof (List.in_map (crawlJob B M seen) _ _ Hjob) as Hout. rewrite Hres in Hout.
  apply List.in_map_iff in Hout as (r & Hr & _).
  destruct r as [page|].
  - left. apply Hkeep. symmetry in Hr.
    destruct (crawlJob_page B M seen (k, linkInfo) page Hr) as [Hurl _].
    cbn [snd] in Hurl. rewrite <- Hurl.
    exact (proj1 (fulfilled_job_is_marked B M i batch seen (k, linkInfo) page Hperm Hjob Hr)).
  - unfold crawlJob in Hr.
    destruct (bool_decide (Link.url linkInfo ∈ seen)) eqn:Hseen.
    + left. apply Hkeep. apply bool_decide_eq_true in Hseen.
      unfold runBatch. cbn [batchSeen]. now apply fold_settleRequest_old.
    + destruct (crawlSinglePage B M k (Link.url linkInfo)) as [c|e|];
        cbn [tryAwait] in Hr; try discriminate.
      right. exists e. reflexivity.
Qed.

Lemma promiseAll_nothing (seen : gset string) (jobs : list Job) :
  (forall job, In job jobs -> crawlJob B M seen job = Fulfilled None) ->
  promiseAll (List.map (crawlJob B M seen) jobs)
  = Fulfilled (List.map (fun _ => None) jobs).
Proof.
  induction jobs as [|job jobs IH]; intros Hall; [reflexivity|].
  cbn [List.map]. rewrite (Hall job) by (left; reflexivity).
  cbn [promiseAll]. rewrite IH; [reflexivity|].
  intros j Hj. apply Hall. right. exact Hj.
Qed.

Lemma settle_nothing (answered : list (nat * string)) (seen : gset string) :
  (forall r, In r answered -> isFulfilled (outcomeOf B M r) = false) ->
  fold_left (settleRequest B M) answered seen = seen.
Proof.
  induction answered as [|r answered IH]; intros Hall; [reflexivity|].
  cbn [fold_left]. unfold settleRequest at 2. rewrite (Hall r) by (left; reflexivity).
  apply IH. intros r' Hr'. apply Hall. right. exact Hr'.
Qed.

(** A crawl over links that are in the set or whose fetch is rejected
    adds nothing. *)
Lemma crawlFrom_again (supportLinks : list Link.t) (fuel i : nat)
    (crawledContent : JsObject.t Page.t) (seen : gset string) (run : CrawlRun) :
  (forall k linkInfo,
     (i <= k)%nat -> nth_error supportLinks k = Some linkInfo ->
     Link.url linkInfo ∈ seen
     \/ exists error, crawlSinglePage B M k (Link.url linkInfo) = Rejected error) ->
  crawlFrom B M fuel supportLinks i crawledContent seen = Some run ->
  returned run = Fulfilled crawledContent
  /\ visited run = seen
  /\ Forall nothingAdded (trace run).
Proof.
  revert i crawledContent run.
  induction fuel as [|fuel IH]; intros i crawledContent run Hcond; [discriminate|].
  cbn [crawlFrom]. destruct (i <? length supportLinks)%nat.
  2:{ intros [= <-]. cbn. repeat split. constructor. }
  set (batch := slice supportLinks i (i + maxConcurrent)).
  assert (Hjobs : forall job, In job (jobsOf i batch) ->
                    Link.url (snd job) ∈ seen
                    \/ exists error,
                         crawlSinglePage B M (fst job) (Link.url (snd job)) = Rejected error).
  { intros [k linkInfo] Hjob. cbn [fst snd]. apply Hcond.
    - apply jobsOf_in in Hjob. tauto.
    - now apply (batch_job_is_link supportLinks i). }
  assert (Hrequests : forall r,
            In r (settleOrder B
                    (List.filter (fun r => negb (isPending (outcomeOf B M r)))
                       (requestsOf seen (jobsOf i batch)))) ->
            isFulfilled (outcomeOf B M r) = false).
  { intros r Hr. apply (Permutation_in _ (Hperm _)) in Hr.
    apply List.filter_In in Hr as [Hr _].
    apply requestsOf_in in Hr as (job & Hjob & -> & Hnew). cbn [snd] in Hnew.
    destruct (Hjobs job Hjob) as [Hseen | (e & He)]; [contradiction|].
    unfold outcomeOf. cbn [fst snd]. rewrite He. reflexivity. }
  assert (Hres : batchResults (runBatch B M i batch seen)
                 = Fulfilled (List.map (fun _ => None) (jobsOf i batch))).
  { unfold runBatch. cbn [batchResults]. apply promiseAll_nothing.
    intros [k linkInfo] Hjob. unfold crawlJob.
    destruct (bool_decide (Link.url linkInfo ∈ seen)) eqn:Hseen; [reflexivity|].
    apply bool_decide_eq_false in Hseen.
    destruct (Hjobs _ Hjob) as [Hin | (e & He)]; [contradiction|].
    cbn [fst snd] in He. rewrite He. reflexivity. }
  assert (Hseen : batchSeen (runBatch B M i batch seen) = seen).
  { unfold runBatch. cbn [batchSeen]. now apply settle_nothing. }
  assert (Hevents : Forall nothingAdded (batchEvents (runBatch B M i batch seen))).
  { unfold runBatch. cbn [batchEvents]. apply List.Forall_app. split.
    - apply List.Forall_forall. intros e He.
      apply List.in_map_iff in He as (r & <- & _). exact I.
    - apply List.Forall_app. split.
      + apply List.Forall_forall. intros e He.
        apply List.in_map_iff in He as (r & <- & Hr). now apply Hrequests.
      + destruct (isFulfilled _); repeat constructor. }
  rewrite Hres, Hseen, store_nothing.
  destruct (crawlFrom B M fuel supportLinks (i + maxConcurrent) crawledContent seen)
    as [r|] eqn:Hrest; [|discriminate].
  intros [= <-].
  assert (Hlater : forall k linkInfo,
            (i + maxConcurrent <= k)%nat -> nth_error supportLinks k = Some linkInfo ->
            Link.url linkInfo ∈ seen
            \/ exists error, crawlSinglePage B M k (Link.url linkInfo) = Rejected error).
  { intros k l Hle. apply Hcond. lia. }
  destruct (IH _ _ _ Hlater Hrest) as (Hret & Hvis & Htrace).
  cbn [returned visited trace]. split; [exact Hret|]. split; [exact Hvis|].
  constructor; [exact I|]. apply List.Forall_app. split; [exact Hevents|].
  apply List.Forall_app. split; [|exact Htrace].
  destruct (_ <? _)%nat; repeat constructor.
Qed.

End SecondRun.

(** X21.  The analyzer keeps [crawledUrls] between runs, so a second run
    on the same page, answered as the first was, crawls nothing new.
    When a run has answered with a full result, the next run of the same
    analyzer marks no URL, leaves the analyzer as it is, and answers with
    the same [pagesAnalyzed] but with no support sections, no actionable
    information and no content types. *)
Theorem second_run_reports_no_sections (B : Browser) (M : Methods) (this : Analyzer)
    (run : AnalysisRun) (currentPage : JsValue) (sections : Structured)
    (actionable : Actionable.t) (pagesAnalyzed : nat) (types : list string)
    (timestamp : string) :
  answersEach B ->
  performDeepAnalysis B M this = Some run ->
  answer run
  = Fulfilled (Analysis currentPage sections actionable pagesAnalyzed types timestamp) ->
  exists trace2,
    performDeepAnalysis B M (after run)
    = Some (mkAnalysisRun
              (Fulfilled (Analysis currentPage [] Actionable.empty pagesAnalyzed []
                            timestamp))
              (after run) trace2)
    /\ Forall nothingAdded trace2.
Proof.
  intros Hperm. unfold performDeepAnalysis at 1.
  destruct (analyzeCurrentPage M) as [currentPageData|e] eqn:Hpage.
  2:{ intros [= <-]. discriminate. }
  destruct (discoverSupportLinks B M this) as [supportLinks|e|] eqn:Hlinks.
  2:{ intros [= <-]. discriminate. }
  2:{ intros [= <-]. discriminate. }
  destruct (crawlSupportPages B M this supportLinks) as [crawl|] eqn:Hcrawl; [|discriminate].
  destruct (returned crawl) as [crawledContent|e|] eqn:Hret.
  2:{ intros [= <-]. discriminate. }
  2:{ intros [= <-]. discriminate. }
  destruct (processAndStructureContent M crawledContent) as [structuredData|e].
  2:{ intros [= <-]. discriminate. }
  destruct (extractActionableInformation M structuredData) as [actionableData|e].
  2:{ intros [= <-]. discriminate. }
  intros [= <-]. cbn [answer after]. intros [= <- _ _ <- _ <-].
  unfold crawlSupportPages in Hcrawl.
  pose proof (crawlFrom_outcomes B M Hperm supportLinks _ _ _ _ crawl crawledContent
                Hcrawl Hret) as Hout.
  unfold performDeepAnalysis. rewrite Hpage, discoverSupportLinks_crawledUrls, Hlinks.
  unfold crawlSupportPages. cbn [crawledUrls withCrawledUrls].
  destruct (crawlFrom_returns B M supportLinks (S (length supportLinks)) 0 []
              (visited crawl)) as (again & Hagain); [lia|].
  rewrite Hagain.
  destruct (crawlFrom_again B M Hperm supportLinks _ _ _ _ again Hout Hagain)
    as (Hnone & Hsame & Htrace).
  rewrite Hnone, Hsame. exists (trace again). split; [reflexivity | exact Htrace].
Qed.

Lemma second_run_reports_no_sections_witness :
  exists run trace2,
    performDeepAnalysis Example.shop Example.methods constructor = Some run
    /\ performDeepAnalysis Example.shop Example.methods (after run)
       = Some (mkAnalysisRun
                 (Fulfilled (Analysis "{}" [] Actionable.empty 15 []
                               "2024-01-01T00:00:10.000Z"))
                 (after run) trace2).
Proof.
  eexists.
  assert (Hrun : performDeepAnalysis Example.shop Example.methods constructor = Some _)
    by (vm_compute; reflexivity).
  destruct (second_run_reports_no_sections Example.shop Example.methods constructor
              _ _ _ _ _ _ _ (example_answersEach _ _ _) Hrun eq_refl)
    as (trace2 & Hsecond & _).
  exists trace2. split; [exact Hrun | exact Hsecond].
Defined.
